(** * GitKit: the GitHub email finder (gitkit/github_email_finder.py)

    A shallow embedding of the script and the properties of its
    enumeration, scanning and aggregation stages.

    - Values parsed from API responses are [json] values; the Python
      operations the script applies to them ([.get], [in], subscripting,
      truthiness, iteration, [==], f-string formatting) are functions on
      [json] that raise the exception Python raises.
    - The network is a transition function [http_get] on an arbitrary world
      type: every request may change the world, so two identical requests
      may be answered differently.
    - [while True] loops take a fuel argument; running out of fuel is the
      outcome [Timeout], distinct from every outcome of the script. *)

From Stdlib Require Import ZArith Ascii String List DecimalString OrderedTypeEx.
From stdpp Require Import gmap strings list sorting.

Set Warnings "-register-all,-clear-no-such-hyp".

Local Open Scope string_scope.
Local Open Scope Z_scope.

(** ** Parsed JSON values *)

(** The result of [response.json()].  Numbers are integers (the numeric
    field the script reads is a pull request's "number").  A [JObj] lists
    the items of the dict in insertion order; a lookup reads the first item
    with the key. *)
Inductive json : Type :=
| JNull
| JBool (b : bool)
| JNum (n : Z)
| JStr (s : string)
| JArr (l : list json)
| JObj (o : list (string * json)).

(** ** Exceptions and outcomes *)

(** [RequestException] stands for [requests.exceptions.RequestException]
    and its subclasses (HTTPError, ConnectionError, JSONDecodeError), the
    only class [main] catches; [msg] is [str(e)]. *)
Inductive exn : Type :=
| RequestException (msg : string)
| KeyError
| TypeError
| AttributeError
| SystemExit (code : Z).

Inductive outcome (A : Type) : Type :=
| Ret (a : A)
| Raise (e : exn)
| Timeout.
Arguments Ret {A} a.
Arguments Raise {A} e.
Arguments Timeout {A}.

Definition obind {A B} (m : outcome A) (k : A -> outcome B) : outcome B :=
  match m with
  | Ret a => k a
  | Raise e => Raise e
  | Timeout => Timeout
  end.

Notation "'let*' x ':=' m 'in' k" := (obind m (fun x => k))
  (at level 10, x pattern, m at level 100, k at level 200).

(** ** Python operations on parsed values *)

Module Py.

Fixpoint assoc (k : string) (o : list (string * json)) : option json :=
  match o with
  | [] => None
  | (k', v) :: o' => if String.eqb k k' then Some v else assoc k o'
  end.

(** [bool(v)]. *)
Definition truthy (v : json) : bool :=
  match v with
  | JNull => false
  | JBool b => b
  | JNum n => negb (n =? 0)
  | JStr s => negb (String.eqb s "")
  | JArr l => match l with [] => false | _ => true end
  | JObj o => match o with [] => false | _ => true end
  end.

(** [d.get(k, default)]: only dicts have the method. *)
Definition get (d : json) (k : string) (default : json) : outcome json :=
  match d with
  | JObj o => Ret (match assoc k o with Some v => v | None => default end)
  | _ => Raise AttributeError
  end.

(** [c[k]] for a string [k]. *)
Definition getitem (c : json) (k : string) : outcome json :=
  match c with
  | JObj o => match assoc k o with Some v => Ret v | None => Raise KeyError end
  | _ => Raise TypeError
  end.

(** Iteration ([for x in v], [list.extend(v)]): the elements of a list,
    the keys of a dict, the characters of a string. *)
Fixpoint chars (s : string) : list json :=
  match s with
  | EmptyString => []
  | String c s' => JStr (String c EmptyString) :: chars s'
  end.

Definition iter (v : json) : outcome (list json) :=
  match v with
  | JArr l => Ret l
  | JObj o => Ret (map (fun kv => JStr (fst kv)) o)
  | JStr s => Ret (chars s)
  | _ => Raise TypeError
  end.

(** The integer a number or a boolean compares as ([True == 1]). *)
Definition as_int (v : json) : option Z :=
  match v with
  | JNum n => Some n
  | JBool b => Some (if b then 1 else 0)
  | _ => None
  end.

(** [a == b]. *)
Fixpoint eq (a b : json) {struct a} : bool :=
  match a, b with
  | JNull, JNull => true
  | JStr s, JStr t => String.eqb s t
  | JNum n, _ => match as_int b with Some m => n =? m | None => false end
  | JBool x, _ =>
      match as_int b with Some m => (if x then 1 else 0) =? m | None => false end
  | JArr l, JArr m =>
      (fix eq_list (l m : list json) {struct l} : bool :=
         match l, m with
         | [], [] => true
         | x :: l', y :: m' => eq x y && eq_list l' m'
         | _, _ => false
         end) l m
  | JObj o, JObj p =>
      (length o =? length p)%nat &&
      (fix eq_items (o : list (string * json)) : bool :=
         match o with
         | [] => true
         | (k, v) :: o' =>
             match assoc k p with
             | Some w => eq v w && eq_items o'
             | None => false
             end
         end) o
  | _, _ => false
  end.

(** [needle in hay] on strings. *)
Fixpoint substring_of (needle hay : string) : bool :=
  String.prefix needle hay ||
  match hay with
  | EmptyString => false
  | String _ hay' => substring_of needle hay'
  end.

(** [k in c] for a string [k]. *)
Definition contains (k : string) (c : json) : outcome bool :=
  match c with
  | JObj o => Ret (match assoc k o with Some _ => true | None => false end)
  | JStr s => Ret (substring_of k s)
  | JArr l => Ret (existsb (eq (JStr k)) l)
  | _ => Raise TypeError
  end.

(** [str(n)] for an integer. *)
Definition str_int (n : Z) : string := NilZero.string_of_int (Z.to_int n).

(** [s.lower()], on the letters A-Z (the keys of headers are ASCII). *)
Definition lower_ascii (c : ascii) : ascii :=
  let n := nat_of_ascii c in
  if ((65 <=? n) && (n <=? 90))%nat then ascii_of_nat (n + 32) else c.

Fixpoint lower (s : string) : string :=
  match s with
  | EmptyString => EmptyString
  | String c s' => String (lower_ascii c) (lower s')
  end.

End Py.

(** ** Elements of an email set *)

(** What a [set] can hold of a parsed value: [None], an integer (a boolean
    hashes and compares as 0 or 1) or a string.  Lists and dicts are
    unhashable. *)
Inductive key : Type :=
| KNone
| KInt (n : Z)
| KStr (s : string).

#[global] Instance key_eq_dec : EqDecision key.
Proof. solve_decision. Defined.

#[global] Instance key_countable : Countable key.
Proof.
  refine (inj_countable'
    (fun k => match k with
              | KNone => inl ()
              | KInt n => inr (inl n)
              | KStr s => inr (inr s)
              end)
    (fun x => match x with
              | inl _ => KNone
              | inr (inl n) => KInt n
              | inr (inr s) => KStr s
              end) _).
  intros []; reflexivity.
Defined.

Definition to_key (v : json) : option key :=
  match v with
  | JNull => Some KNone
  | JBool b => Some (KInt (if b then 1 else 0))
  | JNum n => Some (KInt n)
  | JStr s => Some (KStr s)
  | JArr _ | JObj _ => None
  end.

(** [emails.add(v)]. *)
Definition set_add (v : json) (emails : gset key) : outcome (gset key) :=
  match to_key v with
  | Some k => Ret ({[k]} ∪ emails)
  | None => Raise TypeError
  end.

(** ** Extraction of the emails of one commit *)

(** [if person and "email" in person: emails.add(person["email"])]. *)
Definition add_email_of (person : json) (emails : gset key) : outcome (gset key) :=
  if Py.truthy person then
    let* has := Py.contains "email" person in
    if has : bool then
      let* email := Py.getitem person "email" in
      set_add email emails
    else Ret emails
  else Ret emails.

(** The body of [for commit in commits] (lines 129-138 and 172-181). *)
Definition scan_commit (commit : json) (emails : gset key) : outcome (gset key) :=
  let* c := Py.get commit "commit" (JObj []) in
  let* author := Py.get c "author" (JObj []) in
  let* emails := add_email_of author emails in
  let* c := Py.get commit "commit" (JObj []) in
  let* committer := Py.get c "committer" (JObj []) in
  add_email_of committer emails.

Fixpoint scan_commits (commits : list json) (emails : gset key) : outcome (gset key) :=
  match commits with
  | [] => Ret emails
  | commit :: rest =>
      let* emails := scan_commit commit emails in
      scan_commits rest emails
  end.

(** ** The environment of a run *)

(** A call [session.get(url, params=params)]; [headers] are the headers
    of the session at the call ([session.headers]), which requests merges
    into the request it sends. *)
Record request : Type := {
  url : string;
  params : list (string * json);
  headers : list (string * string)
}.

(** The fields of a [requests.Response] the script and [raise_for_status]
    read.  [body] is what [response.json()] gives: the parsed value, or the
    message of the JSONDecodeError it raises. *)
Record response : Type := {
  status_code : Z;
  reason : string;
  resp_url : string;
  body : string + json
}.

(** What the script runs against: the network, Python's [repr] of a list
    or dict (used when one is formatted into an f-string), and the headers a
    new [requests.Session()] starts with (User-Agent, Accept-Encoding,
    Accept and Connection, with values that depend on the installed
    library).  [http_get] answers a request in a world and gives the next
    world; [inl msg] is a transport failure, raised by [requests] as a
    RequestException. *)
Class Env : Type := {
  world : Type;
  http_get : request -> world -> (string + response) * world;
  repr : json -> string;
  default_headers : list (string * string)
}.

Section Script.
Context `{Env}.

(** The state of a run: the world, the requests sent so far (oldest first)
    and the arguments of the [print] calls so far. *)
Record state : Type := {
  net : world;
  log : list request;
  stdout : list string
}.

Definition M (A : Type) : Type := state -> outcome A * state.

Definition ret {A} (a : A) : M A := fun st => (Ret a, st).
Definition raise {A} (e : exn) : M A := fun st => (Raise e, st).
Definition timeout {A} : M A := fun st => (Timeout, st).
Definition lift {A} (m : outcome A) : M A := fun st => (m, st).

Definition bind {A B} (m : M A) (k : A -> M B) : M B :=
  fun st =>
    match m st with
    | (Ret a, st') => k a st'
    | (Raise e, st') => (Raise e, st')
    | (Timeout, st') => (Timeout, st')
    end.

Notation "'let!' x ':=' m 'in' k" := (bind m (fun x => k))
  (at level 10, x pattern, m at level 100, k at level 200).

(** The state after [print(line)]. *)
Definition printed (line : string) (st : state) : state :=
  {| net := net st; log := log st; stdout := stdout st ++ [line] |}.

Definition print (line : string) : M unit :=
  fun st => (Ret tt, printed line st).

(** f-string interpolation [{v}]: [str(v)]. *)
Definition fstr (v : json) : string :=
  match v with
  | JStr s => s
  | JNull => "None"
  | JBool true => "True"
  | JBool false => "False"
  | JNum n => Py.str_int n
  | JArr _ | JObj _ => repr v
  end.

Definition nl : string := String (ascii_of_nat 10) EmptyString.

(** *** The client *)

Definition GITHUB_API_URL : string := "https://api.github.com".

(** The headers of a session are a [CaseInsensitiveDict], here its items
    in insertion order.  [headers[k] = v] replaces, where it stands, the item
    whose key is [k] up to case, and appends the item otherwise;
    [headers.update(new)] sets the items of [new] in turn. *)
Record session : Type := { session_headers : list (string * string) }.

Fixpoint header_set (k v : string) (hs : list (string * string)) : list (string * string) :=
  match hs with
  | [] => [(k, v)]
  | (k', v') :: rest =>
      if String.eqb (Py.lower k') (Py.lower k) then (k, v) :: rest
      else (k', v') :: header_set k v rest
  end.

Definition headers_update (hs new : list (string * string)) : list (string * string) :=
  fold_left (fun hs kv => header_set (fst kv) (snd kv) hs) new hs.

Definition create_github_session (token : string) : session :=
  {| session_headers :=
       headers_update default_headers
         [("Authorization", "Bearer " +:+ token);
          ("Accept", "application/vnd.github.v3+json");
          ("User-Agent", "GitHub-Email-Finder")] |}.

(** [session.get(url, params=params)]. *)
Definition get_request (s : session) (u : string) (ps : list (string * json)) : request :=
  {| url := u; params := ps; headers := session_headers s |}.

(** The state after request [rq] was sent and the world moved to [w]. *)
Definition after_request (rq : request) (w : world) (st : state) : state :=
  {| net := w; log := log st ++ [rq]; stdout := stdout st |}.

Definition session_get (s : session) (u : string) (ps : list (string * json)) : M response :=
  fun st =>
    let rq := get_request s u ps in
    let (r, w) := http_get rq (net st) in
    match r with
    | inl msg => (Raise (RequestException msg), after_request rq w st)
    | inr resp => (Ret resp, after_request rq w st)
    end.

(** [response.raise_for_status()] of the requests library: HTTPError for
    a 4xx or 5xx status, nothing otherwise. *)
Definition raise_for_status (r : response) : outcome unit :=
  if (400 <=? status_code r) && (status_code r <? 500) then
    Raise (RequestException
      (Py.str_int (status_code r) +:+ " Client Error: " +:+ reason r +:+ " for url: " +:+ resp_url r))
  else if (500 <=? status_code r) && (status_code r <? 600) then
    Raise (RequestException
      (Py.str_int (status_code r) +:+ " Server Error: " +:+ reason r +:+ " for url: " +:+ resp_url r))
  else Ret tt.

(** [response.json()]. *)
Definition response_json (r : response) : outcome json :=
  match body r with
  | inl msg => Raise (RequestException msg)
  | inr v => Ret v
  end.

Definition get_authenticated_user (s : session) : M json :=
  let! response := session_get s (GITHUB_API_URL +:+ "/user") [] in
  let! _ := lift (raise_for_status response) in
  lift (response_json response).

(** *** The repository enumerator *)

Definition user_repos_url : string := GITHUB_API_URL +:+ "/user/repos".

Definition user_repos_params (page : Z) : list (string * json) :=
  [("per_page", JNum 100); ("page", JNum page); ("affiliation", JStr "owner")].

(** The [while True] loop of [get_user_repos]. *)
Fixpoint user_repos_loop (fuel : nat) (s : session) (repos : list json) (page : Z)
  : M (list json) :=
  match fuel with
  | O => timeout
  | S fuel' =>
      let! response := session_get s user_repos_url (user_repos_params page) in
      let! _ := lift (raise_for_status response) in
      let! batch := lift (response_json response) in
      if negb (Py.truthy batch) then ret repos
      else
        let! items := lift (Py.iter batch) in
        user_repos_loop fuel' s (repos ++ items) (page + 1)
  end.

Definition get_user_repos (fuel : nat) (s : session) : M (list json) :=
  user_repos_loop fuel s [] 1.

Definition org_repos_url (org_name : json) : string :=
  GITHUB_API_URL +:+ "/orgs/" +:+ fstr org_name +:+ "/repos".

Definition org_repos_params (page : Z) : list (string * json) :=
  [("per_page", JNum 100); ("page", JNum page)].

(** [repo.get("permissions", {}).get("push", False)] as a condition. *)
Definition has_push (repo : json) : outcome bool :=
  let* permissions := Py.get repo "permissions" (JObj []) in
  let* push := Py.get permissions "push" (JBool false) in
  Ret (Py.truthy push).

(** [[repo for repo in batch if ...]]. *)
Fixpoint push_repos (batch : list json) : outcome (list json) :=
  match batch with
  | [] => Ret []
  | repo :: rest =>
      let* keep := has_push repo in
      let* kept := push_repos rest in
      Ret (if keep : bool then repo :: kept else kept)
  end.

(** The [while True] loop of [get_org_repos], for one organization. *)
Fixpoint org_repos_loop (fuel : nat) (s : session) (org_name : json)
    (all_org_repos : list json) (page : Z) : M (list json) :=
  match fuel with
  | O => timeout
  | S fuel' =>
      let! response := session_get s (org_repos_url org_name) (org_repos_params page) in
      let! _ := lift (raise_for_status response) in
      let! batch := lift (response_json response) in
      if negb (Py.truthy batch) then ret all_org_repos
      else
        let! items := lift (Py.iter batch) in
        let! kept := lift (push_repos items) in
        org_repos_loop fuel' s org_name (all_org_repos ++ kept) (page + 1)
  end.

(** [for org in orgs]. *)
Fixpoint orgs_loop (fuel : nat) (s : session) (orgs : list json)
    (all_org_repos : list json) : M (list json) :=
  match orgs with
  | [] => ret all_org_repos
  | org :: rest =>
      let! org_name := lift (Py.getitem org "login") in
      let! all_org_repos := org_repos_loop fuel s org_name all_org_repos 1 in
      orgs_loop fuel s rest all_org_repos
  end.

Definition get_org_repos (fuel : nat) (s : session) : M (list json) :=
  let! orgs_response := session_get s (GITHUB_API_URL +:+ "/user/orgs") [] in
  let! _ := lift (raise_for_status orgs_response) in
  let! orgs := lift (response_json orgs_response) in
  let! org_list := lift (Py.iter orgs) in
  orgs_loop fuel s org_list [].

(** *** The contribution scanner *)

Definition repo_url (repo_owner repo_name : json) : string :=
  GITHUB_API_URL +:+ "/repos/" +:+ fstr repo_owner +:+ "/" +:+ fstr repo_name.

Definition commits_url (repo_owner repo_name : json) : string :=
  repo_url repo_owner repo_name +:+ "/commits".

Definition commits_params (username : json) (page : Z) : list (string * json) :=
  [("author", username); ("per_page", JNum 100); ("page", JNum page)].

(** The first [while True] loop of [get_contribution_emails]. *)
Fixpoint commits_loop (fuel : nat) (s : session) (repo_owner repo_name username : json)
    (emails : gset key) (page : Z) : M (gset key) :=
  match fuel with
  | O => timeout
  | S fuel' =>
      let! commits_response :=
        session_get s (commits_url repo_owner repo_name) (commits_params username page) in
      if negb (status_code commits_response =? 200) then ret emails
      else
        let! commits := lift (response_json commits_response) in
        if negb (Py.truthy commits) then ret emails
        else
          let! items := lift (Py.iter commits) in
          let! emails := lift (scan_commits items emails) in
          commits_loop fuel' s repo_owner repo_name username emails (page + 1)
  end.

Definition pulls_url (repo_owner repo_name : json) : string :=
  repo_url repo_owner repo_name +:+ "/pulls".

Definition pulls_params (page : Z) : list (string * json) :=
  [("state", JStr "all"); ("per_page", JNum 100); ("page", JNum page)].

Definition pr_commits_url (repo_owner repo_name pr_number : json) : string :=
  repo_url repo_owner repo_name +:+ "/pulls/" +:+ fstr pr_number +:+ "/commits".

(** [pr.get("user", {}).get("login") == username]. *)
Definition opened_by (username pr : json) : outcome bool :=
  let* user := Py.get pr "user" (JObj []) in
  let* login := Py.get user "login" JNull in
  Ret (Py.eq login username).

(** [[pr for pr in prs if ...]]. *)
Fixpoint user_prs (username : json) (prs : list json) : outcome (list json) :=
  match prs with
  | [] => Ret []
  | pr :: rest =>
      let* mine := opened_by username pr in
      let* kept := user_prs username rest in
      Ret (if mine : bool then pr :: kept else kept)
  end.

(** [for pr in user_prs]. *)
Fixpoint scan_prs (s : session) (repo_owner repo_name : json) (prs : list json)
    (emails : gset key) : M (gset key) :=
  match prs with
  | [] => ret emails
  | pr :: rest =>
      let! pr_number := lift (Py.getitem pr "number") in
      let! pr_commits_response :=
        session_get s (pr_commits_url repo_owner repo_name pr_number) [] in
      let! emails :=
        (if status_code pr_commits_response =? 200 then
           let! pr_commits := lift (response_json pr_commits_response) in
           let! items := lift (Py.iter pr_commits) in
           lift (scan_commits items emails)
         else ret emails) in
      scan_prs s repo_owner repo_name rest emails
  end.

(** The second [while True] loop of [get_contribution_emails]. *)
Fixpoint pulls_loop (fuel : nat) (s : session) (repo_owner repo_name username : json)
    (emails : gset key) (page : Z) : M (gset key) :=
  match fuel with
  | O => timeout
  | S fuel' =>
      let! prs_response :=
        session_get s (pulls_url repo_owner repo_name) (pulls_params page) in
      if negb (status_code prs_response =? 200) then ret emails
      else
        let! prs := lift (response_json prs_response) in
        if negb (Py.truthy prs) then ret emails
        else
          let! items := lift (Py.iter prs) in
          let! mine := lift (user_prs username items) in
          let! emails := scan_prs s repo_owner repo_name mine emails in
          pulls_loop fuel' s repo_owner repo_name username emails (page + 1)
  end.

Definition get_contribution_emails (fuel : nat) (s : session)
    (repo_owner repo_name username : json) : M (gset key) :=
  let! emails := commits_loop fuel s repo_owner repo_name username ∅ 1 in
  pulls_loop fuel s repo_owner repo_name username emails 1.

(** *** The aggregator *)

(** The two aggregates of [main]: [all_emails] and [repo_emails]. *)
Definition aggregates : Type := gset key * gmap string (gset key).

(** [f"{repo_owner}/{repo_name}"]. *)
Definition repo_key (repo_owner repo_name : json) : string :=
  fstr repo_owner +:+ "/" +:+ fstr repo_name.

(** [if emails: repo_emails[key] = emails; all_emails.update(emails)]. *)
Definition record_emails (k : string) (emails : gset key) (acc : aggregates) : aggregates :=
  if decide (emails = ∅) then acc
  else (fst acc ∪ emails, <[k := emails]> (snd acc)).

(** [for i, repo in enumerate(all_repos, 1)], from index [i] on; [total]
    is [len(all_repos)]. *)
Fixpoint collect (fuel : nat) (s : session) (username : json) (total : Z)
    (repos : list json) (i : Z) (acc : aggregates) : M aggregates :=
  match repos with
  | [] => ret acc
  | repo :: rest =>
      let! owner := lift (Py.getitem repo "owner") in
      let! repo_owner := lift (Py.getitem owner "login") in
      let! repo_name := lift (Py.getitem repo "name") in
      let! _ := print ("[" +:+ Py.str_int i +:+ "/" +:+ Py.str_int total +:+ "] Checking "
                       +:+ repo_key repo_owner repo_name +:+ "...") in
      let! emails := get_contribution_emails fuel s repo_owner repo_name username in
      collect fuel s username total rest (i + 1)
        (record_emails (repo_key repo_owner repo_name) emails acc)
  end.

Definition len {A} (l : list A) : Z := Z.of_nat (length l).

Definition token_prompt : string := "Please provide a token using the --token argument.".

(** The body of the [try] of [main], up to the end of the aggregation
    (lines 202-240), returning the two aggregates; [main_try_report] below
    is the whole body, with the report. *)
Definition main_try (fuel : nat) (token : string) : M aggregates :=
  let session := create_github_session token in
  let! user := get_authenticated_user session in
  let! username := lift (Py.getitem user "login") in
  let! _ := print ("Authenticated as: " +:+ fstr username) in
  let! _ := print (nl +:+ "Fetching your repositories...") in
  let! user_repos := get_user_repos fuel session in
  let! _ := print ("Found " +:+ Py.str_int (len user_repos) +:+ " repositories owned by you") in
  let! _ := print (nl +:+ "Fetching organization repositories...") in
  let! org_repos := get_org_repos fuel session in
  let! _ := print ("Found " +:+ Py.str_int (len org_repos)
                   +:+ " organization repositories where you have push access") in
  let all_repos := (user_repos ++ org_repos)%list in
  let! _ := print (nl +:+ "Analyzing contributions across " +:+ Py.str_int (len all_repos)
                   +:+ " repositories...") in
  collect fuel session username (len all_repos) all_repos 1 (∅, ∅).

(** [except requests.exceptions.RequestException as e].  The handler of
    KeyboardInterrupt answers a signal from outside the script and has no
    counterpart here. *)
Definition main_except {A} (m : M A) : M A :=
  fun st =>
    match m st with
    | (Raise (RequestException msg), st') =>
        (let! _ := print ("Error: " +:+ msg) in raise (SystemExit 1)) st'
    | r => r
    end.

(** [main] from line 195 on, up to the end of the aggregation; [token] is
    the [args.token] that [parser.parse_args()] returned, [None] when the
    flag is not given.  The parsing of the command line (lines 189-192),
    which ends the run itself on --help and on a rejected command line, is
    the work of argparse and has no counterpart here. *)
Definition main (fuel : nat) (token : option string) : M aggregates :=
  match token with
  | Some (String c t) => main_except (main_try fuel (String c t))
  | _ => let! _ := print token_prompt in raise (SystemExit 1)
  end.

Definition initial (w : world) : state := {| net := w; log := []; stdout := [] |}.

End Script.

(** ** Vocabulary of the properties *)

(** The dict [commit.get("commit", {})] of a commit entry with items [c],
    when that value is a dict. *)
Definition commit_fields (c : list (string * json)) : option (list (string * json)) :=
  match Py.assoc "commit" c with
  | None => Some []
  | Some (JObj inner) => Some inner
  | Some _ => None
  end.

(** The set element for the "email" of an author or committer field. *)
Definition email_key (person : option json) : option key :=
  match person with
  | Some (JObj p) =>
      match Py.assoc "email" p with
      | Some e => to_key e
      | None => None
      end
  | _ => None
  end.

Definition key_set (k : option key) : gset key :=
  match k with
  | Some k => {[k]}
  | None => ∅
  end.

(** The emails of the author and committer fields of the dict [inner] of a
    commit entry. *)
Definition emails_of_commit (inner : list (string * json)) : gset key :=
  key_set (email_key (Py.assoc "author" inner))
  ∪ key_set (email_key (Py.assoc "committer" inner)).

(** An author or committer field as the API sends it: absent, null, or an
    object whose "email", when present, is a scalar. *)
Definition person_wf (person : option json) : Prop :=
  match person with
  | None | Some JNull => True
  | Some (JObj p) =>
      match Py.assoc "email" p with
      | Some e => is_Some (to_key e)
      | None => True
      end
  | Some _ => False
  end.

(** "Its permissions object reports push=true". *)
Definition reports_push (repo : json) : bool :=
  match repo with
  | JObj o =>
      match Py.assoc "permissions" o with
      | Some (JObj p) =>
          match Py.assoc "push" p with
          | Some (JBool true) => true
          | _ => false
          end
      | _ => false
      end
  | _ => false
  end.

(** A repository entry as the API sends it: an object whose "permissions",
    when present, is an object whose "push", when present, is a boolean. *)
Definition repo_typed (repo : json) : Prop :=
  match repo with
  | JObj o =>
      match Py.assoc "permissions" o with
      | None => True
      | Some (JObj p) =>
          match Py.assoc "push" p with
          | None | Some (JBool _) => True
          | Some _ => False
          end
      | Some _ => False
      end
  | _ => False
  end.


(** A pull request entry whose "user" is absent or an object. *)
Definition pr_typed (pr : json) : Prop :=
  match pr with
  | JObj o =>
      match Py.assoc "user" o with
      | None | Some (JObj _) => True
      | Some _ => False
      end
  | _ => False
  end.

(** The request for the commits of pull request [pr]. *)
Definition pr_commits_request `{Env} (s : session) (repo_owner repo_name pr : json) : request :=
  get_request s
    (pr_commits_url repo_owner repo_name
       (match Py.getitem pr "number" with Ret number => number | _ => JNull end)) [].

(** The scans of a run of [collect], in order: the key and the email set
    of each repository, computed as [collect] computes them. *)
Fixpoint scan_all `{Env} (fuel : nat) (s : session) (username : json) (total : Z)
    (repos : list json) (i : Z) : M (list (string * gset key)) :=
  match repos with
  | [] => ret []
  | repo :: rest =>
      bind (lift (Py.getitem repo "owner")) (fun owner =>
      bind (lift (Py.getitem owner "login")) (fun repo_owner =>
      bind (lift (Py.getitem repo "name")) (fun repo_name =>
      bind (print ("[" +:+ Py.str_int i +:+ "/" +:+ Py.str_int total +:+ "] Checking "
                   +:+ repo_key repo_owner repo_name +:+ "...")) (fun _ =>
      bind (get_contribution_emails fuel s repo_owner repo_name username) (fun emails =>
      bind (scan_all fuel s username total rest (i + 1)) (fun scans =>
      ret ((repo_key repo_owner repo_name, emails) :: scans)))))))
  end.

(** The aggregates after the scans [scans] were recorded in turn. *)
Definition record_all (scans : list (string * gset key)) (acc : aggregates) : aggregates :=
  fold_left (fun acc scan => record_emails (fst scan) (snd scan) acc) scans acc.

(** The last non-empty scan under key [k]. *)
Fixpoint last_scan (k : string) (scans : list (string * gset key)) : option (gset key) :=
  match scans with
  | [] => None
  | (k', e) :: rest =>
      match last_scan k rest with
      | Some e' => Some e'
      | None => if decide (k' = k ∧ e ≠ ∅) then Some e else None
      end
  end.

(** The scans that found an email. *)
Definition fruitful (scans : list (string * gset key)) : list (string * gset key) :=
  filter (fun scan => snd scan ≠ ∅) scans.

(** The log of a computation only grows. *)
Definition grows `{Env} {A} (m : M A) : Prop :=
  ∀ st : state, ∃ l : list request, log (snd (m st)) = (log st ++ l)%list.

(** ** Sources that serve a list in pages *)

(** What is left of a listing of [items] from page [page] (from 1) on, 100
    per page; and the page. *)
Definition rest_from (items : list json) (page : Z) : list json :=
  skipn (100 * (Z.to_nat page - 1)) items.

Definition page_of (items : list json) (page : Z) : list json :=
  firstn 100 (rest_from items page).

(** [ceil(total_items / 100) + 1]. *)
Definition page_bound (items : list json) : nat :=
  S ((length items + 99) / 100).

(** The [k] page numbers from [page] on; from 1 on. *)
Definition pages_from (page : Z) (k : nat) : list Z :=
  map (fun i => page + Z.of_nat i) (seq 0 k).

Definition pages (k : nat) : list Z := pages_from 1 k.

(** The requests of [l] that went to [u]. *)
Definition requests_to (u : string) (l : list request) : list request :=
  filter (fun rq => String.eqb (url rq) u) l.

(** [raise_for_status] lets the response through. *)
Definition passes `{Env} (resp : response) : bool :=
  match raise_for_status resp with
  | Ret _ => true
  | _ => false
  end.

Definition is_200 (resp : response) : bool := status_code resp =? 200.

(** The source behind the requests [rq 1], [rq 2], ... has the items
    [items]: whenever, in any world, the request for a page is answered with
    a response the loop reads ([reads]), its body is that page of [items]. *)
Definition serves `{Env} (rq : Z -> request) (reads : response -> bool)
    (items : list json) : Prop :=
  ∀ (page : Z) (w w' : world) (resp : response),
    1 <= page ->
    http_get (rq page) w = (inr resp, w') ->
    reads resp = true ->
    body resp = inr (JArr (page_of items page)).

(** ** Concrete forges *)

Module Sample.

Definition person (name email : string) : json :=
  JObj [("name", JStr name); ("email", JStr email)].

Definition commit_by (author committer : json) : json :=
  JObj [("sha", JStr "0a1b2c");
        ("commit", JObj [("author", author); ("committer", committer)])].

Definition repo (owner name : string) (permissions : list (string * json)) : json :=
  JObj ([("name", JStr name); ("owner", JObj [("login", JStr owner)])] ++ permissions).

Definition pull (number : Z) (login : string) : json :=
  JObj [("number", JNum number); ("user", JObj [("login", JStr login)])].

Definition page_param (rq : request) : Z :=
  match Py.assoc "page" (params rq) with
  | Some (JNum p) => p
  | _ => 1
  end.

Definition reply (rq : request) (status : Z) (why : string) (v : json) : response :=
  {| status_code := status; reason := why; resp_url := url rq; body := inr v |}.

Definition ok (rq : request) (v : json) : response := reply rq 200 "OK" v.

Definition listing (rq : request) (items : list json) : response :=
  ok rq (JArr (page_of items (page_param rq))).

Definition alice_commit : json :=
  commit_by (person "Alice" "alice@x.com") (person "Alice" "alice@x.com").

Definition proj : json := repo "alice" "proj" [].
Definition tool : json := repo "acme" "tool" [("permissions", JObj [("push", JBool true)])].
Definition docs : json := repo "acme" "docs" [("permissions", JObj [("push", JBool false)])].
Definition misc : json := repo "acme" "misc" [].

Definition api (path : string) : string := "https://api.github.com" +:+ path.

(** The headers of a new session of one release of requests. *)
Definition requests_headers : list (string * string) :=
  [("User-Agent", "python-requests/2.32.3");
   ("Accept-Encoding", "gzip, deflate");
   ("Accept", "*/*");
   ("Connection", "keep-alive")].

Definition routes (acme_status : Z) : list (string * (request -> response)) :=
  [(api "/user", fun rq => ok rq (JObj [("login", JStr "alice"); ("id", JNum 1)]));
   (api "/user/repos", fun rq => listing rq [proj]);
   (api "/user/orgs", fun rq => ok rq (JArr [JObj [("login", JStr "acme")];
                                                JObj [("login", JStr "beta")]]));
   (api "/orgs/acme/repos", fun rq =>
      if acme_status =? 200 then listing rq [tool; docs; misc]
      else reply rq acme_status "Internal Server Error" (JObj [("message", JStr "error")]));
   (api "/orgs/beta/repos", fun rq => listing rq []);
   (api "/repos/alice/proj/commits", fun rq => listing rq [alice_commit]);
   (api "/repos/alice/proj/pulls", fun rq => listing rq [pull 7 "alice"; pull 8 "Alice"; pull 9 "bob"]);
   (api "/repos/alice/proj/pulls/7/commits", fun rq =>
      ok rq (JArr [commit_by (person "Alice" "alice@work.com") JNull]));
   (api "/repos/alice/proj/pulls/8/commits", fun rq =>
      ok rq (JArr [commit_by (person "Other" "other@x.com") JNull]));
   (api "/repos/acme/tool/commits", fun rq =>
      reply rq 403 "Forbidden" (JObj [("message", JStr "forbidden")]));
   (api "/repos/acme/tool/pulls", fun rq => listing rq [pull 3 "alice"; pull 4 "alice"]);
   (api "/repos/acme/tool/pulls/4/commits", fun rq =>
      ok rq (JArr [commit_by (person "Alice" "alice@acme.com") (person "Bot" "bot@acme.com")]))].

Fixpoint route (table : list (string * (request -> response))) (rq : request) : response :=
  match table with
  | [] => reply rq 404 "Not Found" (JObj [("message", JStr "Not Found")])
  | (u, f) :: table' => if String.eqb (url rq) u then f rq else route table' rq
  end.

(** A forge that answers every request from a fixed table. *)
Definition forge : Env :=
  {| world := unit;
     http_get := fun rq w => (inr (route (routes 200) rq), w);
     repr := fun _ => "";
     default_headers := requests_headers |}.

(** The same forge when the listing of acme's repositories fails. *)
Definition failing_forge : Env :=
  {| world := unit;
     http_get := fun rq w => (inr (route (routes 500) rq), w);
     repr := fun _ => "";
     default_headers := requests_headers |}.

(** A forge whose answers change during the run; the world is the number
    of requests answered so far.  The owned repositories are listed while
    one is being created, so alice/proj ends page 1 and starts page 2; the
    commits of alice/proj are served once and refused (rate limit) from the
    ninth request on, when its pull requests have appeared. *)
Definition moving_routes (t : nat) : list (string * (request -> response)) :=
  [(api "/user", fun rq => ok rq (JObj [("login", JStr "alice")]));
   (api "/user/repos", fun rq =>
      ok rq (JArr (if page_param rq <? 3 then [proj] else [])));
   (api "/user/orgs", fun rq => ok rq (JArr []));
   (api "/repos/alice/proj/commits", fun rq =>
      if (t <? 8)%nat then listing rq [alice_commit]
      else reply rq 403 "rate limit exceeded" (JObj [("message", JStr "rate limit")]));
   (api "/repos/alice/proj/pulls", fun rq =>
      if (t <? 8)%nat then listing rq [] else listing rq [pull 7 "alice"]);
   (api "/repos/alice/proj/pulls/7/commits", fun rq =>
      ok rq (JArr [commit_by (person "Alice" "alice@work.com") JNull]))].

Definition moving_forge : Env :=
  {| world := nat;
     http_get := fun rq t => (inr (route (moving_routes t) rq), S t);
     repr := fun _ => "";
     default_headers := requests_headers |}.

Definition alice_session : session := @create_github_session forge "t0ken".

Definition start : @state forge := @initial forge tt.
Definition failing_start : @state failing_forge := @initial failing_forge tt.
Definition moving_start (t : nat) : @state moving_forge := @initial moving_forge t.

End Sample.

(** ** Frames of a run *)

(** A value raises only exceptions in [E]. *)
Definition raises_only {A} (E : exn -> Prop) (o : outcome A) : Prop :=
  ∀ e : exn, o = Raise e -> E e.

(** Every run of [m] takes a state to a state related to it by [R], and
    raises only exceptions in [E]. *)
Definition keeps `{Env} {A} (R : state -> state -> Prop) (E : exn -> Prop) (m : M A) : Prop :=
  ∀ st : state, R st (snd (m st)) ∧ raises_only E (fst (m st)).

(** The value of the header [k] in the headers [hs], keys compared without
    case. *)
Fixpoint header (k : string) (hs : list (string * string)) : option string :=
  match hs with
  | [] => None
  | (k', v) :: rest =>
      if String.eqb (Py.lower k') (Py.lower k) then Some v else header k rest
  end.

(** A request of session [s] to the API: its URL is a path under the base
    URL, "https://api.github.com/...". *)
Definition to_api (s : session) (rq : request) : Prop :=
  headers rq = session_headers s ∧
  String.prefix (GITHUB_API_URL +:+ "/") (url rq) = true.

(** From [st] to [st'] requests of session [s] to the API were sent, and
    nothing else; nothing was printed. *)
Definition silent `{Env} (s : session) (st st' : state) : Prop :=
  stdout st' = stdout st ∧
  ∃ l : list request, log st' = (log st ++ l)%list ∧ Forall (to_api s) l.

(** From [st] to [st'] requests of session [s] to the API were sent, and
    nothing else; lines may have been printed. *)
Definition talking `{Env} (s : session) (st st' : state) : Prop :=
  (∃ lines : list string, stdout st' = (stdout st ++ lines)%list) ∧
  ∃ l : list request, log st' = (log st ++ l)%list ∧ Forall (to_api s) l.

(** The exceptions other than SystemExit. *)
Definition not_exit (e : exn) : Prop := ∀ code : Z, e ≠ SystemExit code.

(** ** Sources that always answer *)

(** The source behind the requests [rq 1], [rq 2], ... has the items
    [items] and always answers: in every world the request for a page is
    answered with a response the loop reads, whose body is that page. *)
Definition serves_all `{Env} (rq : Z -> request) (reads : response -> bool)
    (items : list json) : Prop :=
  ∀ (page : Z) (w : world),
    1 <= page ->
    ∃ (resp : response) (w' : world),
      http_get (rq page) w = (inr resp, w') ∧
      reads resp = true ∧
      body resp = inr (JArr (page_of items page)).

(** The source behind the requests [rq 1], [rq 2], ... answers every
    request, in every world, with a response the loop reads whose body is a
    non-empty list. *)
Definition never_empty `{Env} (rq : Z -> request) (reads : response -> bool) : Prop :=
  ∀ (page : Z) (w : world),
    ∃ (resp : response) (w' : world) (x : json) (l : list json),
      http_get (rq page) w = (inr resp, w') ∧
      reads resp = true ∧
      body resp = inr (JArr (x :: l)).

(** ** The progress lines *)

(** [f"[{i}/{len(all_repos)}] Checking {repo_owner}/{repo_name}..."], for
    the key [k] of the repository. *)
Definition progress_line (total i : Z) (k : string) : string :=
  "[" +:+ Py.str_int i +:+ "/" +:+ Py.str_int total +:+ "] Checking " +:+ k +:+ "...".

(** The progress lines of repositories with keys [keys], numbered from [i]. *)
Definition progress_lines (total i : Z) (keys : list string) : list string :=
  imap (fun j k => progress_line total (i + Z.of_nat j) k) keys.

(** ** The report *)

(** [s * n]. *)
Fixpoint str_mul (s : string) (n : nat) : string :=
  match n with
  | O => ""
  | S n' => s +:+ str_mul s n'
  end.

(** The strings of a list of set elements that are all strings; the
    integers of one whose elements are all integers or booleans. *)
Fixpoint strings_of (l : list key) : option (list string) :=
  match l with
  | [] => Some []
  | KStr s :: rest => option_map (cons s) (strings_of rest)
  | _ :: _ => None
  end.

Fixpoint ints_of (l : list key) : option (list Z) :=
  match l with
  | [] => Some []
  | KInt n :: rest => option_map (cons n) (ints_of rest)
  | _ :: _ => None
  end.

(** [s <= t] on strings: by character, a proper prefix first (the order
    of code points, as the strings hold the bytes of UTF-8). *)
Definition str_le (s t : string) : Prop := String.leb s t = true.

#[global] Instance str_le_dec : RelDecision str_le.
Proof. intros s t. unfold str_le. apply _. Defined.

(** [sorted(l)] for the elements of a set in some order: nothing is compared
    in a list of at most one element; strings are compared with strings and
    integers with integers; any other comparison ([None] with anything, a
    string with an integer) raises TypeError. *)
Definition py_sorted (l : list key) : outcome (list key) :=
  match l with
  | [] | [_] => Ret l
  | _ =>
      match strings_of l, ints_of l with
      | Some ss, _ => Ret (KStr <$> merge_sort str_le ss)
      | None, Some ns => Ret (KInt <$> merge_sort Z.le ns)
      | None, None => Raise TypeError
      end
  end.

(** [repo_emails[k] = v] on the items of the dict, in insertion order: the
    value of a key that is there is replaced where it stands, a new key goes
    to the end. *)
Fixpoint dict_set (k : string) (v : gset key) (items : list (string * gset key))
  : list (string * gset key) :=
  match items with
  | [] => [(k, v)]
  | (k', v') :: rest =>
      if String.eqb k' k then (k', v) :: rest else (k', v') :: dict_set k v rest
  end.

(** [all_emails] and the items of [repo_emails]. *)
Definition ordered_aggregates : Type := gset key * list (string * gset key).

(** [if emails: repo_emails[key] = emails; all_emails.update(emails)]. *)
Definition record_items (k : string) (emails : gset key) (acc : ordered_aggregates)
  : ordered_aggregates :=
  if decide (emails = ∅) then acc
  else (fst acc ∪ emails, dict_set k emails (snd acc)).

(** The items of [repo_emails] after the scans [scans] were recorded in turn. *)
Definition items_after (scans : list (string * gset key)) (acc : ordered_aggregates)
  : ordered_aggregates :=
  fold_left (fun acc scan => record_items (fst scan) (snd scan) acc) scans acc.

(** The keys of [keys] in the order of their first occurrences. *)
Definition first_occurrences (keys : list string) : list string :=
  fold_left (fun seen k => if decide (k ∈ seen) then seen else seen ++ [k])%list keys [].

Section Report.
Context `{Env}.

(** [str] of the element of a set that is an integer or a boolean: the set
    element [KInt n] stands for both the integer [n] and, for 0 and 1, the
    boolean, and Python prints the one that entered the set. *)
Variable show_int : Z -> string.

(** [str(email)] for an element of an email set. *)
Definition key_str (k : key) : string :=
  match k with
  | KStr s => s
  | KNone => "None"
  | KInt n => show_int n
  end.

Fixpoint print_each (lines : list string) : M unit :=
  match lines with
  | [] => ret tt
  | line :: rest => bind (print line) (fun _ => print_each rest)
  end.

(** [for repo_name, emails in repo_emails.items()]. *)
Fixpoint breakdown (items : list (string * gset key)) : M unit :=
  match items with
  | [] => ret tt
  | (repo_name, emails) :: rest =>
      bind (print (nl +:+ repo_name +:+ ":")) (fun _ =>
      bind (lift (py_sorted (elements emails))) (fun sorted =>
      bind (print_each (map (fun email => "  - " +:+ key_str email) sorted)) (fun _ =>
      breakdown rest)))
  end.

(** Lines 242-255 of [main]. *)
Definition report (all_emails : gset key) (repo_emails : list (string * gset key)) : M unit :=
  bind (print (nl +:+ str_mul "=" 60)) (fun _ =>
  bind (print ("Found " +:+ Py.str_int (Z.of_nat (size all_emails))
               +:+ " unique email addresses across "
               +:+ Py.str_int (len repo_emails) +:+ " repositories:")) (fun _ =>
  bind (print (str_mul "=" 60)) (fun _ =>
  bind (lift (py_sorted (elements all_emails))) (fun sorted =>
  bind (print_each (map key_str sorted)) (fun _ =>
  bind (print (nl +:+ "Repository breakdown:")) (fun _ =>
  breakdown repo_emails)))))).

(** [collect] with [repo_emails] as the dict it is, items in insertion
    order. *)
Fixpoint collect_items (fuel : nat) (s : session) (username : json) (total : Z)
    (repos : list json) (i : Z) (acc : ordered_aggregates) : M ordered_aggregates :=
  match repos with
  | [] => ret acc
  | repo :: rest =>
      bind (lift (Py.getitem repo "owner")) (fun owner =>
      bind (lift (Py.getitem owner "login")) (fun repo_owner =>
      bind (lift (Py.getitem repo "name")) (fun repo_name =>
      bind (print ("[" +:+ Py.str_int i +:+ "/" +:+ Py.str_int total +:+ "] Checking "
                   +:+ repo_key repo_owner repo_name +:+ "...")) (fun _ =>
      bind (get_contribution_emails fuel s repo_owner repo_name username) (fun emails =>
      collect_items fuel s username total rest (i + 1)
        (record_items (repo_key repo_owner repo_name) emails acc))))))
  end.

(** The body of the [try] of [main], whole: [main_try] with the dict in
    insertion order, and then the report. *)
Definition main_try_report (fuel : nat) (token : string) : M unit :=
  let session := create_github_session token in
  bind (get_authenticated_user session) (fun user =>
  bind (lift (Py.getitem user "login")) (fun username =>
  bind (print ("Authenticated as: " +:+ fstr username)) (fun _ =>
  bind (print (nl +:+ "Fetching your repositories...")) (fun _ =>
  bind (get_user_repos fuel session) (fun user_repos =>
  bind (print ("Found " +:+ Py.str_int (len user_repos)
               +:+ " repositories owned by you")) (fun _ =>
  bind (print (nl +:+ "Fetching organization repositories...")) (fun _ =>
  bind (get_org_repos fuel session) (fun org_repos =>
  bind (print ("Found " +:+ Py.str_int (len org_repos)
               +:+ " organization repositories where you have push access")) (fun _ =>
  let all_repos := (user_repos ++ org_repos)%list in
  bind (print (nl +:+ "Analyzing contributions across " +:+ Py.str_int (len all_repos)
               +:+ " repositories...")) (fun _ =>
  bind (collect_items fuel session username (len all_repos) all_repos 1 (∅, [])) (fun acc =>
  report (fst acc) (snd acc)))))))))))).

(** [main] from line 195 on, with the report: what [main] does once
    [parser.parse_args()] has returned [args], in a run that no signal from
    the keyboard interrupts. *)
Definition main_report (fuel : nat) (token : option string) : M unit :=
  match token with
  | Some (String c t) => main_except (main_try_report fuel (String c t))
  | _ => bind (print token_prompt) (fun _ => raise (SystemExit 1))
  end.

End Report.

(** The state after the lines [lines] were printed. *)
Definition printed_all `{Env} (lines : list string) (st : state) : state :=
  {| net := net st; log := log st; stdout := (stdout st ++ lines)%list |}.

(** The strings among the elements of an email set, ascending. *)
Definition email_lines (emails : gset key) : list string :=
  merge_sort str_le
    (omap (fun k => match k with KStr s => Some s | _ => None end) (elements emails)).

(** Every email of the set is a string. *)
Definition all_strings (emails : gset key) : Prop :=
  ∀ k : key, k ∈ emails -> ∃ s : string, k = KStr s.

(** The lines of the section of one repository in the breakdown. *)
Definition section_lines (item : string * gset key) : list string :=
  (nl +:+ fst item +:+ ":") :: map (fun s => "  - " +:+ s) (email_lines (snd item)).

(** The lines of the report for email sets of strings. *)
Definition report_lines (all_emails : gset key) (repo_emails : list (string * gset key))
  : list string :=
  ([nl +:+ str_mul "=" 60;
    "Found " +:+ Py.str_int (Z.of_nat (size all_emails))
      +:+ " unique email addresses across "
      +:+ Py.str_int (len repo_emails) +:+ " repositories:";
    str_mul "=" 60]
   ++ email_lines all_emails
   ++ [nl +:+ "Repository breakdown:"]
   ++ concat (map section_lines repo_emails))%list.

(** ** Deciding the outcome of a run *)

#[global] Instance exn_eq_dec : EqDecision exn.
Proof. solve_decision. Defined.

#[global] Instance outcome_eq_dec {A} `{EqDecision A} : EqDecision (outcome A).
Proof. solve_decision. Defined.

#[global] Instance aggregates_eq_dec : EqDecision aggregates.
Proof. unfold aggregates. apply _. Defined.

#[global] Instance ordered_aggregates_eq_dec : EqDecision ordered_aggregates.
Proof. unfold ordered_aggregates. apply _. Defined.

(** ** More concrete forges *)

Module Cases.

(** A forge that refuses every request (a revoked token). *)
Definition denied_forge : Env :=
  {| world := unit;
     http_get := fun rq w =>
       (inr (Sample.reply rq 401 "Unauthorized" (JObj [("message", JStr "Bad credentials")])), w);
     repr := fun _ => "";
     default_headers := Sample.requests_headers |}.

(** A forge whose answer for the authenticated user has no "login". *)
Definition anonymous_forge : Env :=
  {| world := unit;
     http_get := fun rq w => (inr (Sample.ok rq (JObj [("id", JNum 1)])), w);
     repr := fun _ => "";
     default_headers := Sample.requests_headers |}.

(** A forge that answers every request with the same one-element page. *)
Definition endless_forge : Env :=
  {| world := unit;
     http_get := fun rq w => (inr (Sample.ok rq (JArr [Sample.proj])), w);
     repr := fun _ => "";
     default_headers := Sample.requests_headers |}.

(** The repositories of the organizations of [Sample.forge], by login. *)
Definition repos_of (name : json) : list json :=
  match name with
  | JStr "acme" => [Sample.tool; Sample.docs; Sample.misc]
  | _ => []
  end.

Definition acme_emails : gset key := {[KStr "bot@acme.com"; KStr "alice@acme.com"]}.

Definition mixed_emails : gset key := {[KNone; KStr "alice@x.com"]}.

(** A pull request whose user is null (a deleted account). *)
Definition ghost_pull : json := JObj [("number", JNum 5); ("user", JNull)].

(** A forge whose pull requests of alice/proj hold one with a null user. *)
Definition ghost_forge : Env :=
  {| world := unit;
     http_get := fun rq w =>
       (inr (Sample.ok rq (JArr [Sample.pull 7 "alice"; ghost_pull])), w);
     repr := fun _ => "";
     default_headers := Sample.requests_headers |}.


End Cases.

(** * Properties *)

(** ** Extraction of emails from a commit *)

Lemma get_field (o : list (string * json)) (k : string) (d : json) :
  Py.get (JObj o) k d = Ret (match Py.assoc k o with Some v => v | None => d end).
Proof. reflexivity. Qed.

Lemma add_email_of_wf (person : option json) (emails : gset key) :
  person_wf person ->
  add_email_of (match person with Some v => v | None => JObj [] end) emails
  = Ret (emails ∪ key_set (email_key person)).
Proof.
  destruct person as [[| | | |l|p]|]; simpl; try contradiction; intros Hwf;
    try (f_equal; set_solver).
  unfold add_email_of. destruct p as [|kv p'] eqn:Ep.
  - simpl. f_equal. set_solver.
  - rewrite <- Ep in *. replace (Py.truthy (JObj p)) with true by (subst p; reflexivity).
    simpl. destruct (Py.assoc "email" p) as [e|]; simpl.
    + unfold set_add. destruct Hwf as [k Hk]. rewrite Hk. simpl. f_equal. set_solver.
    + f_equal. set_solver.
Qed.

Lemma scan_commit_wf (c inner : list (string * json)) (emails : gset key) :
  commit_fields c = Some inner ->
  person_wf (Py.assoc "author" inner) ->
  person_wf (Py.assoc "committer" inner) ->
  scan_commit (JObj c) emails =
    Ret (emails ∪ key_set (email_key (Py.assoc "author" inner))
                ∪ key_set (email_key (Py.assoc "committer" inner))).
Proof.
  intros Hc Ha Hm. unfold scan_commit. rewrite get_field.
  assert (match Py.assoc "commit" c with Some v => v | None => JObj [] end = JObj inner) as ->.
  { unfold commit_fields in Hc. destruct (Py.assoc "commit" c) as [[]|]; simpl; congruence. }
  simpl obind.
  rewrite (add_email_of_wf _ _ Ha). simpl obind.
  rewrite (add_email_of_wf _ _ Hm). reflexivity.
Qed.

Lemma add_email_of_mono (person : json) (emails result : gset key) :
  add_email_of person emails = Ret result -> emails ⊆ result.
Proof.
  unfold add_email_of. destruct (Py.truthy person); [|intros [= <-]; done].
  destruct (Py.contains "email" person) as [[|]|e|]; simpl; try discriminate.
  - destruct (Py.getitem person "email") as [v|e|]; simpl; try discriminate.
    unfold set_add. destruct (to_key v); [|discriminate]. intros [= <-]. set_solver.
  - intros [= <-]. done.
Qed.

Lemma scan_commit_mono (commit : json) (emails result : gset key) :
  scan_commit commit emails = Ret result -> emails ⊆ result.
Proof.
  unfold scan_commit.
  destruct (Py.get commit "commit" (JObj [])) as [c|e|]; simpl; try discriminate.
  destruct (Py.get c "author" (JObj [])) as [author|e|]; simpl; try discriminate.
  destruct (add_email_of author emails) as [emails1|e|] eqn:Ha; simpl; try discriminate.
  destruct (Py.get c "committer" (JObj [])) as [committer|e|]; simpl; try discriminate.
  intros Hm. apply add_email_of_mono in Ha, Hm. set_solver.
Qed.

Lemma scan_commits_mono (commits : list json) (emails result : gset key) :
  scan_commits commits emails = Ret result -> emails ⊆ result.
Proof.
  revert emails. induction commits as [|commit rest IH]; intros emails; simpl.
  - intros [= <-]. done.
  - destruct (scan_commit commit emails) as [emails1|e|] eqn:Hc; simpl; try discriminate.
    intros Hrest. apply scan_commit_mono in Hc. apply IH in Hrest. set_solver.
Qed.

Lemma scan_commits_app (l1 l2 : list json) (emails : gset key) :
  scan_commits (l1 ++ l2) emails
  = obind (scan_commits l1 emails) (fun emails => scan_commits l2 emails).
Proof.
  revert emails. induction l1 as [|commit l1 IH]; intros emails; simpl; [reflexivity|].
  destruct (scan_commit commit emails); simpl; auto.
Qed.

(** ** The two filters *)

Lemma has_push_typed (repo : json) :
  repo_typed repo -> has_push repo = Ret (reports_push repo).
Proof.
  destruct repo as [| | | | |o]; simpl; try contradiction.
  unfold has_push. rewrite get_field.
  destruct (Py.assoc "permissions" o) as [[| | | | |p]|]; simpl; try contradiction; auto.
  destruct (Py.assoc "push" p) as [[|[]| | | |]|]; simpl; try contradiction; auto.
Qed.

Lemma push_repos_typed (batch : list json) :
  Forall repo_typed batch ->
  push_repos batch = Ret (filter (fun repo => reports_push repo) batch).
Proof.
  induction 1 as [|repo batch Hrepo _ IH]; [reflexivity|].
  simpl. rewrite (has_push_typed repo Hrepo), IH. simpl.
  rewrite filter_cons. destruct (reports_push repo); simpl; reflexivity.
Qed.

Lemma eq_str (v : json) (u : string) : Py.eq v (JStr u) = true <-> v = JStr u.
Proof.
  destruct v as [|[]|n|s|l|o]; simpl; try (split; [discriminate|discriminate]).
  rewrite String.eqb_eq. split; congruence.
Qed.




Lemma opened_by_untyped (username pr : json) :
  ¬ pr_typed pr -> opened_by username pr = Raise AttributeError.
Proof.
  intros Hpr. unfold opened_by. destruct pr as [| | | | |o]; try reflexivity.
  rewrite get_field. simpl in Hpr.
  destruct (Py.assoc "user" o) as [[| | | | |u]|]; try reflexivity; exfalso; by apply Hpr.
Qed.

Lemma opened_by_raises (username pr : json) (e : exn) :
  opened_by username pr = Raise e -> e = AttributeError.
Proof.
  unfold opened_by. destruct pr as [| | | | |o]; try (by intros [= <-]).
  rewrite get_field. simpl.
  destruct (match Py.assoc "user" o with Some v => v | None => JObj [] end);
    simpl; by intros [= <-].
Qed.

Lemma opened_by_total (username pr : json) : opened_by username pr ≠ Timeout.
Proof.
  unfold opened_by. destruct pr as [| | | | |o]; try discriminate.
  rewrite get_field. simpl.
  destruct (match Py.assoc "user" o with Some v => v | None => JObj [] end);
    simpl; discriminate.
Qed.

Lemma user_prs_untyped (username : json) (prs : list json) :
  Exists (fun pr => ¬ pr_typed pr) prs -> user_prs username prs = Raise AttributeError.
Proof.
  induction prs as [|pr rest IH]; intros Hex; [by apply Exists_nil in Hex|].
  simpl. destruct (opened_by username pr) as [mine|e|] eqn:Hmine.
  - apply Exists_cons in Hex as [Hpr|Hrest].
    + rewrite (opened_by_untyped username pr Hpr) in Hmine. discriminate.
    + simpl. by rewrite (IH Hrest).
  - apply opened_by_raises in Hmine as ->. reflexivity.
  - by apply opened_by_total in Hmine.
Qed.

(** ** Recording scans *)

Lemma record_all_global (scans : list (string * gset key)) (acc : aggregates) (x : key) :
  x ∈ fst (record_all scans acc) <-> x ∈ fst acc ∨ ∃ k e, (k, e) ∈ scans ∧ x ∈ e.
Proof.
  revert acc. induction scans as [|[k' e'] rest IH]; intros acc; simpl.
  - split; [auto|]. intros [?|(k & e & Hin & _)]; [done|]. by apply elem_of_nil in Hin.
  - unfold record_all in IH. rewrite IH. unfold record_emails. simpl.
    destruct (decide (e' = ∅)) as [->|Hne]; simpl.
    + split.
      * intros [?|(k & e & Hin & Hx)]; [auto|]. right. exists k, e.
        split; [by apply list_elem_of_further|done].
      * intros [?|(k & e & Hin & Hx)]; [auto|].
        apply elem_of_cons in Hin as [Heq|Hin]; [|eauto].
        injection Heq as -> ->. set_solver.
    + rewrite elem_of_union. split.
      * intros [[?|?]|(k & e & Hin & Hx)]; [auto| |].
        -- right. exists k', e'. split; [apply list_elem_of_here|done].
        -- right. exists k, e. split; [by apply list_elem_of_further|done].
      * intros [?|(k & e & Hin & Hx)]; [auto|].
        apply elem_of_cons in Hin as [Heq|Hin]; [|eauto].
        injection Heq as -> ->. auto.
Qed.

Lemma record_all_lookup (scans : list (string * gset key)) (acc : aggregates) (k : string) :
  snd (record_all scans acc) !! k
  = match last_scan k scans with
    | Some e => Some e
    | None => snd acc !! k
    end.
Proof.
  revert acc. induction scans as [|[k' e'] rest IH]; intros acc; [reflexivity|].
  simpl. unfold record_all in IH. rewrite IH.
  destruct (last_scan k rest) as [e|]; [reflexivity|].
  unfold record_emails. destruct (decide (e' = ∅)) as [->|Hne]; simpl.
  - destruct (decide (k' = k ∧ ∅ ≠ ∅)) as [[_ ?]|]; [done|reflexivity].
  - destruct (decide (k' = k ∧ e' ≠ ∅)) as [[-> _]|Hn].
    + apply lookup_insert_eq.
    + apply lookup_insert_ne. intros ->. apply Hn. done.
Qed.

Lemma last_scan_Some (k : string) (scans : list (string * gset key)) (e : gset key) :
  last_scan k scans = Some e -> e ≠ ∅ ∧ (k, e) ∈ scans.
Proof.
  induction scans as [|[k' e'] rest IH]; simpl; [discriminate|].
  destruct (last_scan k rest) as [e0|].
  - intros [= ->]. destruct (IH eq_refl) as [? ?].
    split; [done|by apply list_elem_of_further].
  - destruct (decide (k' = k ∧ e' ≠ ∅)) as [[-> ?]|]; [|discriminate].
    intros [= ->]. split; [done|apply list_elem_of_here].
Qed.

Lemma last_scan_None (k : string) (scans : list (string * gset key)) :
  last_scan k scans = None <-> ∀ e, (k, e) ∈ scans -> e = ∅.
Proof.
  induction scans as [|[k' e'] rest IH]; simpl.
  - split; [|done]. intros _ e Hin. by apply elem_of_nil in Hin.
  - destruct (last_scan k rest) as [e0|] eqn:Hrest.
    + split; [discriminate|]. intros Hall.
      destruct (last_scan_Some _ _ _ Hrest) as [Hne Hin].
      exfalso. apply Hne, Hall. by apply list_elem_of_further.
    + destruct IH as [IH _]. specialize (IH eq_refl).
      destruct (decide (k' = k ∧ e' ≠ ∅)) as [[-> Hne]|Hn].
      * split; [discriminate|]. intros Hall. exfalso. apply Hne, Hall, list_elem_of_here.
      * split; [|done]. intros _ e Hin.
        apply elem_of_cons in Hin as [Heq|Hin]; [|by apply IH].
        injection Heq as -> ->. destruct (decide (e' = ∅)); [done|].
        exfalso. apply Hn. done.
Qed.

Lemma last_scan_app (k : string) (l1 l2 : list (string * gset key)) :
  last_scan k (l1 ++ l2)
  = match last_scan k l2 with
    | Some e => Some e
    | None => last_scan k l1
    end.
Proof.
  induction l1 as [|[k' e'] l1 IH]; simpl.
  - destruct (last_scan k l2); reflexivity.
  - rewrite IH. destruct (last_scan k l2); reflexivity.
Qed.

Lemma last_scan_unique (k : string) (scans : list (string * gset key)) (e : gset key) :
  NoDup (fst <$> fruitful scans) ->
  (k, e) ∈ scans -> e ≠ ∅ -> last_scan k scans = Some e.
Proof.
  unfold fruitful. induction scans as [|[k' e'] rest IH]; intros Hnd Hin Hne.
  - by apply elem_of_nil in Hin.
  - simpl. rewrite filter_cons in Hnd. simpl in Hnd.
    destruct (decide (e' ≠ ∅)) as [Hne'|He'].
    + simpl in Hnd. apply NoDup_cons in Hnd as [Hfresh Hnd].
      apply elem_of_cons in Hin as [Heq|Hin].
      * injection Heq as <- <-.
        destruct (last_scan k rest) as [e0|] eqn:Hrest.
        -- exfalso. apply Hfresh. destruct (last_scan_Some _ _ _ Hrest) as [Hne0 Hin0].
           apply list_elem_of_fmap. exists (k, e0). split; [done|].
           apply list_elem_of_filter. done.
        -- destruct (decide (k = k ∧ e ≠ ∅)) as [|Hn]; [done|]. exfalso. apply Hn. done.
      * rewrite (IH Hnd Hin Hne). reflexivity.
    + apply elem_of_cons in Hin as [Heq|Hin].
      * injection Heq as <- <-. done.
      * rewrite (IH Hnd Hin Hne). reflexivity.
Qed.

(** ** Runs against an arbitrary forge *)

Section Runs.
Context `{Env}.

Lemma session_get_answer (s : session) (u : string) (ps : list (string * json))
    (st : state) (resp : response) (w : world) :
  http_get (get_request s u ps) (net st) = (inr resp, w) ->
  session_get s u ps st = (Ret resp, after_request (get_request s u ps) w st).
Proof. intros Hget. unfold session_get. rewrite Hget. reflexivity. Qed.

Lemma bind_ret {A B} (m : M A) (k : A -> M B) (st st' : state) (a : A) :
  m st = (Ret a, st') -> bind m k st = k a st'.
Proof. intros Hm. unfold bind. rewrite Hm. reflexivity. Qed.

Lemma bind_raise {A B} (m : M A) (k : A -> M B) (st st' : state) (e : exn) :
  m st = (Raise e, st') -> bind m k st = (Raise e, st').
Proof. intros Hm. unfold bind. rewrite Hm. reflexivity. Qed.

Lemma bind_lift {A B} (o : outcome A) (k : A -> M B) (st : state) :
  bind (lift o) k st =
  match o with
  | Ret a => k a st
  | Raise e => (Raise e, st)
  | Timeout => (Timeout, st)
  end.
Proof. unfold bind, lift. destruct o; reflexivity. Qed.

Lemma bind_assoc {A B C} (m : M A) (k : A -> M B) (k' : B -> M C) (st : state) :
  bind (bind m k) k' st = bind m (fun a => bind (k a) k') st.
Proof. unfold bind. destruct (m st) as [[a|e|] st']; reflexivity. Qed.

Lemma bind_cong {A B} (m : M A) (k k' : A -> M B) (st : state) :
  (∀ a st', k a st' = k' a st') -> bind m k st = bind m k' st.
Proof. intros Hk. unfold bind. destruct (m st) as [[a|e|] st']; auto. Qed.

(** *** The log only grows *)

Lemma grows_ret {A} (a : A) : grows (ret a).
Proof. intros st. exists []. simpl. by rewrite app_nil_r. Qed.

Lemma grows_raise {A} (e : exn) : grows (@raise _ A e).
Proof. intros st. exists []. simpl. by rewrite app_nil_r. Qed.

Lemma grows_timeout {A} : grows (@timeout _ A).
Proof. intros st. exists []. simpl. by rewrite app_nil_r. Qed.

Lemma grows_lift {A} (o : outcome A) : grows (lift o).
Proof. intros st. exists []. simpl. by rewrite app_nil_r. Qed.

Lemma grows_print (line : string) : grows (print line).
Proof. intros st. exists []. simpl. by rewrite app_nil_r. Qed.

Lemma session_get_log (s : session) (u : string) (ps : list (string * json)) (st : state) :
  log (snd (session_get s u ps st)) = (log st ++ [get_request s u ps])%list.
Proof.
  unfold session_get. destruct (http_get _ _) as [[msg|resp] w]; reflexivity.
Qed.

Lemma grows_session_get (s : session) (u : string) (ps : list (string * json)) :
  grows (session_get s u ps).
Proof. intros st. eexists. apply session_get_log. Qed.

Lemma grows_bind {A B} (m : M A) (k : A -> M B) :
  grows m -> (∀ a, grows (k a)) -> grows (bind m k).
Proof.
  intros Hm Hk st. unfold bind. destruct (Hm st) as [l Hl].
  destruct (m st) as [[a|e|] st']; simpl in *; eauto.
  destruct (Hk a st') as [l' Hl']. exists (l ++ l')%list.
  rewrite Hl', Hl. by rewrite app_assoc.
Qed.

Ltac grows_step :=
  first
    [ apply grows_ret | apply grows_raise | apply grows_timeout | apply grows_lift
    | apply grows_print | apply grows_session_get
    | apply grows_bind; [|intros ?]
    | match goal with |- grows (if ?b then _ else _) => destruct b end
    | match goal with |- grows (match ?b with _ => _ end) => destruct b end ].

Lemma grows_user_repos_loop fuel s repos page : grows (user_repos_loop fuel s repos page).
Proof.
  revert repos page. induction fuel as [|fuel IH]; intros repos page; simpl;
    repeat (assumption || apply IH || grows_step).
Qed.

Lemma grows_org_repos_loop fuel s org acc page : grows (org_repos_loop fuel s org acc page).
Proof.
  revert acc page. induction fuel as [|fuel IH]; intros acc page; simpl;
    repeat (assumption || apply IH || grows_step).
Qed.

Lemma grows_orgs_loop fuel s orgs acc : grows (orgs_loop fuel s orgs acc).
Proof.
  revert acc. induction orgs as [|org rest IH]; intros acc; simpl;
    repeat (apply IH || apply grows_org_repos_loop || grows_step).
Qed.

Lemma grows_get_org_repos_aux fuel s : grows (get_org_repos fuel s).
Proof.
  unfold get_org_repos. repeat (apply grows_orgs_loop || grows_step).
Qed.

Lemma grows_commits_loop fuel s o n u emails page : grows (commits_loop fuel s o n u emails page).
Proof.
  revert emails page. induction fuel as [|fuel IH]; intros emails page; simpl;
    repeat (apply IH || grows_step).
Qed.

Lemma grows_scan_prs s o n prs emails : grows (scan_prs s o n prs emails).
Proof.
  revert emails. induction prs as [|pr rest IH]; intros emails; simpl;
    repeat (apply IH || grows_step).
Qed.

Lemma grows_pulls_loop fuel s o n u emails page : grows (pulls_loop fuel s o n u emails page).
Proof.
  revert emails page. induction fuel as [|fuel IH]; intros emails page; simpl;
    repeat (apply IH || apply grows_scan_prs || grows_step).
Qed.

Lemma grows_get_contribution_emails fuel s o n u : grows (get_contribution_emails fuel s o n u).
Proof.
  unfold get_contribution_emails.
  apply grows_bind; [apply grows_commits_loop | intros; apply grows_pulls_loop].
Qed.

Lemma grows_collect fuel s u total repos i acc : grows (collect fuel s u total repos i acc).
Proof.
  revert i acc. induction repos as [|repo rest IH]; intros i acc; simpl;
    repeat (apply IH || apply grows_get_contribution_emails || grows_step).
Qed.

(** A run of [bind (session_get ...) k] logs the request first. *)
Lemma session_get_first {B} s u ps (k : response -> M B) (st : state) :
  (∀ r, grows (k r)) ->
  ∃ l, log (snd (bind (session_get s u ps) k st)) = (log st ++ get_request s u ps :: l)%list.
Proof.
  intros Hk. unfold bind. pose proof (session_get_log s u ps st) as Hlog.
  destruct (session_get s u ps st) as [[r|e|] st']; simpl in *.
  - destruct (Hk r st') as [l Hl]. exists l. rewrite Hl, Hlog.
    by rewrite <- app_assoc.
  - exists []. exact Hlog.
  - exists []. exact Hlog.
Qed.

(** An iteration starts with the request for its page. *)
Lemma user_repos_loop_first (n : nat) (s : session) (repos : list json) (page : Z)
    (st : state) :
  ∃ l : list request,
    log (snd (user_repos_loop (S n) s repos page st))
    = (log st ++ get_request s user_repos_url (user_repos_params page) :: l)%list.
Proof.
  simpl. apply session_get_first. intros r.
  repeat (apply grows_user_repos_loop || grows_step).
Qed.

Lemma org_repos_loop_first (n : nat) (s : session) (org_name : json) (acc : list json)
    (page : Z) (st : state) :
  ∃ l : list request,
    log (snd (org_repos_loop (S n) s org_name acc page st))
    = (log st ++ get_request s (org_repos_url org_name) (org_repos_params page) :: l)%list.
Proof.
  simpl. apply session_get_first. intros r.
  repeat (apply grows_org_repos_loop || grows_step).
Qed.

Lemma commits_loop_first (n : nat) (s : session) (repo_owner repo_name username : json)
    (emails : gset key) (page : Z) (st : state) :
  ∃ l : list request,
    log (snd (commits_loop (S n) s repo_owner repo_name username emails page st))
    = (log st ++ get_request s (commits_url repo_owner repo_name)
                   (commits_params username page) :: l)%list.
Proof.
  simpl. apply session_get_first. intros r.
  repeat (apply grows_commits_loop || grows_step).
Qed.

Lemma pulls_loop_first (n : nat) (s : session) (repo_owner repo_name username : json)
    (emails : gset key) (page : Z) (st : state) :
  ∃ l : list request,
    log (snd (pulls_loop (S n) s repo_owner repo_name username emails page st))
    = (log st ++ get_request s (pulls_url repo_owner repo_name) (pulls_params page) :: l)%list.
Proof.
  simpl. apply session_get_first. intros r.
  repeat (apply grows_pulls_loop || apply grows_scan_prs || grows_step).
Qed.

(** *** The scanner only adds emails *)

Lemma commits_loop_mono (fuel : nat) (s : session) (repo_owner repo_name username : json)
    (emails result : gset key) (page : Z) (st st' : state) :
  commits_loop fuel s repo_owner repo_name username emails page st = (Ret result, st') ->
  emails ⊆ result.
Proof.
  revert emails page st. induction fuel as [|fuel IH]; intros emails page st Hrun;
    [discriminate|].
  simpl in Hrun. unfold bind at 1 in Hrun.
  destruct (session_get _ _ _ st) as [[resp|e|] st1]; try discriminate.
  destruct (negb (status_code resp =? 200)); [injection Hrun as <- _; done|].
  rewrite bind_lift in Hrun. destruct (response_json resp) as [commits|e|]; try discriminate.
  destruct (negb (Py.truthy commits)); [injection Hrun as <- _; done|].
  rewrite bind_lift in Hrun. destruct (Py.iter commits) as [items|e|]; try discriminate.
  rewrite bind_lift in Hrun.
  destruct (scan_commits items emails) as [emails1|e|] eqn:Hscan; try discriminate.
  apply scan_commits_mono in Hscan. apply IH in Hrun. set_solver.
Qed.

Lemma scan_prs_mono (s : session) (repo_owner repo_name : json) (prs : list json)
    (emails result : gset key) (st st' : state) :
  scan_prs s repo_owner repo_name prs emails st = (Ret result, st') -> emails ⊆ result.
Proof.
  revert emails st. induction prs as [|pr rest IH]; intros emails st Hrun.
  { injection Hrun as <- _. done. }
  simpl in Hrun. rewrite bind_lift in Hrun.
  destruct (Py.getitem pr "number") as [number|e|]; try discriminate.
  unfold bind at 1 in Hrun.
  destruct (session_get _ _ _ st) as [[resp|e|] st1]; try discriminate.
  unfold bind at 1 in Hrun.
  destruct (status_code resp =? 200).
  2: { simpl in Hrun. eapply IH. exact Hrun. }
  rewrite bind_lift in Hrun. destruct (response_json resp) as [v|e|]; try discriminate.
  rewrite bind_lift in Hrun. destruct (Py.iter v) as [items|e|]; try discriminate.
  unfold lift in Hrun.
  destruct (scan_commits items emails) as [emails1|e|] eqn:Hscan; try discriminate.
  apply scan_commits_mono in Hscan. apply IH in Hrun. set_solver.
Qed.

Lemma pulls_loop_mono (fuel : nat) (s : session) (repo_owner repo_name username : json)
    (emails result : gset key) (page : Z) (st st' : state) :
  pulls_loop fuel s repo_owner repo_name username emails page st = (Ret result, st') ->
  emails ⊆ result.
Proof.
  revert emails page st. induction fuel as [|fuel IH]; intros emails page st Hrun;
    [discriminate|].
  simpl in Hrun. unfold bind at 1 in Hrun.
  destruct (session_get _ _ _ st) as [[resp|e|] st1]; try discriminate.
  destruct (negb (status_code resp =? 200)); [injection Hrun as <- _; done|].
  rewrite bind_lift in Hrun. destruct (response_json resp) as [prs|e|]; try discriminate.
  destruct (negb (Py.truthy prs)); [injection Hrun as <- _; done|].
  rewrite bind_lift in Hrun. destruct (Py.iter prs) as [items|e|]; try discriminate.
  rewrite bind_lift in Hrun. destruct (user_prs username items) as [mine|e|]; try discriminate.
  unfold bind at 1 in Hrun.
  destruct (scan_prs s repo_owner repo_name mine emails st1) as [[emails1|e|] st2] eqn:Hscan;
    try discriminate.
  apply scan_prs_mono in Hscan. apply IH in Hrun. set_solver.
Qed.

(** *** One iteration of each loop of the scanner *)

Lemma scan_prs_app (s : session) (repo_owner repo_name : json) (l1 l2 : list json)
    (emails : gset key) (st : state) :
  scan_prs s repo_owner repo_name (l1 ++ l2) emails st
  = bind (scan_prs s repo_owner repo_name l1 emails)
         (fun emails => scan_prs s repo_owner repo_name l2 emails) st.
Proof.
  revert emails st. induction l1 as [|pr l1 IH]; intros emails st; [reflexivity|].
  simpl. rewrite bind_assoc. apply bind_cong. intros num st1.
  rewrite bind_assoc. apply bind_cong. intros r st2.
  rewrite bind_assoc. apply bind_cong. intros emails1 st3. apply IH.
Qed.


Lemma commits_loop_page (fuel : nat) (s : session) (repo_owner repo_name username : json)
    (emails : gset key) (page : Z) (st : state) (resp : response) (w : world)
    (items : list json) :
  http_get (get_request s (commits_url repo_owner repo_name) (commits_params username page))
           (net st) = (inr resp, w) ->
  status_code resp = 200 ->
  body resp = inr (JArr items) ->
  items ≠ [] ->
  commits_loop (S fuel) s repo_owner repo_name username emails page st
  = bind (lift (scan_commits items emails))
         (fun emails => commits_loop fuel s repo_owner repo_name username emails (page + 1))
         (after_request (get_request s (commits_url repo_owner repo_name)
                           (commits_params username page)) w st).
Proof.
  intros Hget Hok Hbody Hne. simpl.
  erewrite bind_ret by (apply session_get_answer; exact Hget).
  rewrite Hok. change (negb (200 =? 200)) with false. cbv iota.
  unfold response_json. rewrite Hbody, bind_lift.
  destruct items as [|x l]; [contradiction|].
  change (negb (Py.truthy (JArr (x :: l)))) with false. cbv iota.
  change (Py.iter (JArr (x :: l))) with (Ret (x :: l)).
  rewrite bind_lift. reflexivity.
Qed.

Lemma scan_prs_fetch (s : session) (repo_owner repo_name pr number : json)
    (rest : list json) (emails : gset key) (st : state) (resp : response) (w : world)
    (commits : list json) :
  Py.getitem pr "number" = Ret number ->
  http_get (get_request s (pr_commits_url repo_owner repo_name number) []) (net st)
  = (inr resp, w) ->
  status_code resp = 200 ->
  body resp = inr (JArr commits) ->
  scan_prs s repo_owner repo_name (pr :: rest) emails st
  = bind (lift (scan_commits commits emails))
         (fun emails => scan_prs s repo_owner repo_name rest emails)
         (after_request (get_request s (pr_commits_url repo_owner repo_name number) []) w st).
Proof.
  intros Hnumber Hget Hok Hbody. simpl. rewrite bind_lift, Hnumber.
  erewrite bind_ret by (apply session_get_answer; exact Hget).
  rewrite Hok. change (200 =? 200) with true. cbv iota.
  rewrite bind_assoc, bind_lift. unfold response_json. rewrite Hbody.
  rewrite bind_assoc, bind_lift. reflexivity.
Qed.

Lemma pulls_loop_page (fuel : nat) (s : session) (repo_owner repo_name username : json)
    (emails : gset key) (page : Z) (st : state) (resp : response) (w : world)
    (items : list json) :
  http_get (get_request s (pulls_url repo_owner repo_name) (pulls_params page)) (net st)
  = (inr resp, w) ->
  status_code resp = 200 ->
  body resp = inr (JArr items) ->
  items ≠ [] ->
  pulls_loop (S fuel) s repo_owner repo_name username emails page st
  = bind (lift (user_prs username items))
         (fun mine =>
            bind (scan_prs s repo_owner repo_name mine emails)
                 (fun emails =>
                    pulls_loop fuel s repo_owner repo_name username emails (page + 1)))
         (after_request (get_request s (pulls_url repo_owner repo_name) (pulls_params page))
            w st).
Proof.
  intros Hget Hok Hbody Hne. simpl.
  erewrite bind_ret by (apply session_get_answer; exact Hget).
  rewrite Hok. change (negb (200 =? 200)) with false. cbv iota.
  unfold response_json. rewrite Hbody, bind_lift.
  destruct items as [|x l]; [contradiction|].
  change (negb (Py.truthy (JArr (x :: l)))) with false. cbv iota.
  change (Py.iter (JArr (x :: l))) with (Ret (x :: l)).
  rewrite bind_lift. reflexivity.
Qed.

(** *** From a scanned commit to the set the scanner returns *)

Lemma scan_commits_finds (c inner : list (string * json)) (before after : list json)
    (start final : gset key) :
  commit_fields c = Some inner ->
  person_wf (Py.assoc "author" inner) ->
  person_wf (Py.assoc "committer" inner) ->
  scan_commits (before ++ JObj c :: after) start = Ret final ->
  start ∪ emails_of_commit inner ⊆ final.
Proof.
  intros Hc Ha Hm. rewrite scan_commits_app.
  destruct (scan_commits before start) as [emails1|e|] eqn:Hbefore; simpl; try discriminate.
  rewrite (scan_commit_wf c inner emails1 Hc Ha Hm). simpl.
  intros Hfinal. apply scan_commits_mono in Hfinal, Hbefore.
  unfold emails_of_commit. set_solver.
Qed.

Lemma commits_loop_scanned (fuel : nat) (s : session) (repo_owner repo_name username : json)
    (start : gset key) (page : Z) (st : state) (resp : response) (w : world)
    (items : list json) (result : gset key) (st' : state) :
  http_get (get_request s (commits_url repo_owner repo_name) (commits_params username page))
           (net st) = (inr resp, w) ->
  status_code resp = 200 ->
  body resp = inr (JArr items) ->
  items ≠ [] ->
  commits_loop (S fuel) s repo_owner repo_name username start page st = (Ret result, st') ->
  ∃ emails1 : gset key,
    scan_commits items start = Ret emails1 ∧
    commits_loop fuel s repo_owner repo_name username emails1 (page + 1)
      (after_request (get_request s (commits_url repo_owner repo_name)
                        (commits_params username page)) w st)
    = (Ret result, st') ∧
    emails1 ⊆ result.
Proof.
  intros Hget Hok Hbody Hne Hrun.
  rewrite (commits_loop_page _ _ _ _ _ _ _ _ _ _ _ Hget Hok Hbody Hne), bind_lift in Hrun.
  destruct (scan_commits items start) as [emails1|e|]; try discriminate.
  exists emails1. split; [reflexivity|]. split; [exact Hrun|].
  eapply commits_loop_mono. exact Hrun.
Qed.

Lemma scan_prs_scanned (s : session) (repo_owner repo_name : json)
    (done rest : list json) (pr number : json) (start emails1 : gset key)
    (st st1 : state) (resp : response) (w : world) (commits : list json)
    (result : gset key) (st' : state) :
  scan_prs s repo_owner repo_name done start st = (Ret emails1, st1) ->
  Py.getitem pr "number" = Ret number ->
  http_get (get_request s (pr_commits_url repo_owner repo_name number) []) (net st1)
  = (inr resp, w) ->
  status_code resp = 200 ->
  body resp = inr (JArr commits) ->
  scan_prs s repo_owner repo_name (done ++ pr :: rest) start st = (Ret result, st') ->
  ∃ emails2 : gset key,
    scan_commits commits emails1 = Ret emails2 ∧
    scan_prs s repo_owner repo_name rest emails2
      (after_request (get_request s (pr_commits_url repo_owner repo_name number) []) w st1)
    = (Ret result, st') ∧
    emails2 ⊆ result.
Proof.
  intros Hdone Hnumber Hget Hok Hbody Hrun.
  rewrite scan_prs_app in Hrun. erewrite bind_ret in Hrun by exact Hdone.
  rewrite (scan_prs_fetch _ _ _ _ _ _ _ _ _ _ _ Hnumber Hget Hok Hbody), bind_lift in Hrun.
  destruct (scan_commits commits emails1) as [emails2|e|]; try discriminate.
  exists emails2. split; [reflexivity|]. split; [exact Hrun|].
  eapply scan_prs_mono. exact Hrun.
Qed.

Lemma pulls_loop_scanned (fuel : nat) (s : session) (repo_owner repo_name username : json)
    (start : gset key) (page : Z) (st : state) (resp : response) (w : world)
    (items mine : list json) (emails1 : gset key) (st1 : state)
    (result : gset key) (st' : state) :
  http_get (get_request s (pulls_url repo_owner repo_name) (pulls_params page)) (net st)
  = (inr resp, w) ->
  status_code resp = 200 ->
  body resp = inr (JArr items) ->
  items ≠ [] ->
  user_prs username items = Ret mine ->
  scan_prs s repo_owner repo_name mine start
    (after_request (get_request s (pulls_url repo_owner repo_name) (pulls_params page)) w st)
  = (Ret emails1, st1) ->
  pulls_loop (S fuel) s repo_owner repo_name username start page st = (Ret result, st') ->
  pulls_loop fuel s repo_owner repo_name username emails1 (page + 1) st1 = (Ret result, st') ∧
  emails1 ⊆ result.
Proof.
  intros Hget Hok Hbody Hne Hmine Hscan Hrun.
  rewrite (pulls_loop_page _ _ _ _ _ _ _ _ _ _ _ Hget Hok Hbody Hne), bind_lift, Hmine in Hrun.
  erewrite bind_ret in Hrun by exact Hscan.
  split; [exact Hrun|]. eapply pulls_loop_mono. exact Hrun.
Qed.

Lemma get_contribution_emails_loops (fuel : nat) (s : session)
    (repo_owner repo_name username : json) (st st' : state) (result : gset key) :
  get_contribution_emails fuel s repo_owner repo_name username st = (Ret result, st') ->
  ∃ (commit_emails : gset key) (st1 : state),
    commits_loop fuel s repo_owner repo_name username ∅ 1 st = (Ret commit_emails, st1) ∧
    pulls_loop fuel s repo_owner repo_name username commit_emails 1 st1 = (Ret result, st') ∧
    commit_emails ⊆ result.
Proof.
  intros Hrun. unfold get_contribution_emails, bind in Hrun.
  destruct (commits_loop fuel s repo_owner repo_name username ∅ 1 st)
    as [[commit_emails|e|] st1]; try discriminate.
  exists commit_emails, st1. split; [reflexivity|]. split; [exact Hrun|].
  eapply pulls_loop_mono. exact Hrun.
Qed.

(** C4. For a commit entry whose author and committer fields are absent,
    null or objects with a scalar "email": the scan of the commit returns
    (raises nothing); the email of a present author or committer object
    that has an "email" key is in the result; a commit with neither field
    adds nothing; a present object without an "email" key adds nothing;
    when both carry the same address the result gains that one element; and
    whatever list of commits the entry is scanned in, its emails are in the
    set the scan of the list returns.  And the emails reach what the scanner
    returns: when the entry is on a page of the commit listing, its emails
    are in the set the commit loop goes on with and returns; when it is
    among the commits of a pull request that is scanned, they are in the set
    the scan of the pull requests goes on with and returns; what the scan of
    a page of pull requests returns is in what the pull-request loop
    returns; and the scanner returns what the pull-request loop returns,
    started from what the commit loop returned. *)
Theorem scan_commit_extraction (c inner : list (string * json)) (emails : gset key)
    (Hc : commit_fields c = Some inner)
    (Ha : person_wf (Py.assoc "author" inner))
    (Hm : person_wf (Py.assoc "committer" inner)) :
  (∃ result : gset key,
    scan_commit (JObj c) emails = Ret result ∧
    emails ⊆ result ∧
    (∀ (field : string) (p : list (string * json)) (e : json) (k : key),
        field = "author" ∨ field = "committer" ->
        Py.assoc field inner = Some (JObj p) ->
        Py.assoc "email" p = Some e ->
        to_key e = Some k ->
        k ∈ result) ∧
    (Py.assoc "author" inner = None ->
     Py.assoc "committer" inner = None ->
     result = emails) ∧
    (∀ p : list (string * json),
        Py.assoc "author" inner = Some (JObj p) ->
        Py.assoc "email" p = None ->
        result = emails ∪ key_set (email_key (Py.assoc "committer" inner))) ∧
    (∀ p : list (string * json),
        Py.assoc "committer" inner = Some (JObj p) ->
        Py.assoc "email" p = None ->
        result = emails ∪ key_set (email_key (Py.assoc "author" inner))) ∧
    (∀ k : key,
        email_key (Py.assoc "author" inner) = Some k ->
        email_key (Py.assoc "committer" inner) = Some k ->
        result = emails ∪ {[k]} ∧ (emails = ∅ -> size result = 1%nat)) ∧
    (∀ (before after : list json) (start final : gset key),
        scan_commits (before ++ JObj c :: after) start = Ret final ->
        key_set (email_key (Py.assoc "author" inner))
        ∪ key_set (email_key (Py.assoc "committer" inner)) ⊆ final)) ∧
  (∀ (fuel : nat) (s : session) (repo_owner repo_name username : json) (start : gset key)
     (page : Z) (st : state) (resp : response) (w : world) (before after : list json)
     (result : gset key) (st' : state),
      http_get (get_request s (commits_url repo_owner repo_name)
                  (commits_params username page)) (net st) = (inr resp, w) ->
      status_code resp = 200 ->
      body resp = inr (JArr (before ++ JObj c :: after)) ->
      commits_loop (S fuel) s repo_owner repo_name username start page st
      = (Ret result, st') ->
      ∃ emails1 : gset key,
        scan_commits (before ++ JObj c :: after) start = Ret emails1 ∧
        start ∪ emails_of_commit inner ⊆ emails1 ∧
        commits_loop fuel s repo_owner repo_name username emails1 (page + 1)
          (after_request (get_request s (commits_url repo_owner repo_name)
                            (commits_params username page)) w st)
        = (Ret result, st') ∧
        emails1 ⊆ result) ∧
  (∀ (s : session) (repo_owner repo_name : json) (done rest : list json)
     (pr number : json) (start emails1 : gset key) (st st1 : state)
     (resp : response) (w : world) (before after : list json)
     (result : gset key) (st' : state),
      scan_prs s repo_owner repo_name done start st = (Ret emails1, st1) ->
      Py.getitem pr "number" = Ret number ->
      http_get (get_request s (pr_commits_url repo_owner repo_name number) []) (net st1)
      = (inr resp, w) ->
      status_code resp = 200 ->
      body resp = inr (JArr (before ++ JObj c :: after)) ->
      scan_prs s repo_owner repo_name (done ++ pr :: rest) start st = (Ret result, st') ->
      ∃ emails2 : gset key,
        scan_commits (before ++ JObj c :: after) emails1 = Ret emails2 ∧
        emails1 ∪ emails_of_commit inner ⊆ emails2 ∧
        scan_prs s repo_owner repo_name rest emails2
          (after_request (get_request s (pr_commits_url repo_owner repo_name number) [])
             w st1)
        = (Ret result, st') ∧
        emails2 ⊆ result) ∧
  (∀ (fuel : nat) (s : session) (repo_owner repo_name username : json) (start : gset key)
     (page : Z) (st : state) (resp : response) (w : world) (items mine : list json)
     (emails1 : gset key) (st1 : state) (result : gset key) (st' : state),
      http_get (get_request s (pulls_url repo_owner repo_name) (pulls_params page)) (net st)
      = (inr resp, w) ->
      status_code resp = 200 ->
      body resp = inr (JArr items) ->
      items ≠ [] ->
      user_prs username items = Ret mine ->
      scan_prs s repo_owner repo_name mine start
        (after_request (get_request s (pulls_url repo_owner repo_name) (pulls_params page))
           w st)
      = (Ret emails1, st1) ->
      pulls_loop (S fuel) s repo_owner repo_name username start page st = (Ret result, st') ->
      pulls_loop fuel s repo_owner repo_name username emails1 (page + 1) st1
      = (Ret result, st') ∧
      emails1 ⊆ result) ∧
  (∀ (fuel : nat) (s : session) (repo_owner repo_name username : json) (st st' : state)
     (result : gset key),
      get_contribution_emails fuel s repo_owner repo_name username st = (Ret result, st') ->
      ∃ (commit_emails : gset key) (st1 : state),
        commits_loop fuel s repo_owner repo_name username ∅ 1 st = (Ret commit_emails, st1) ∧
        pulls_loop fuel s repo_owner repo_name username commit_emails 1 st1
        = (Ret result, st') ∧
        commit_emails ⊆ result).
Proof.
  split.
  { eexists. split; [apply (scan_commit_wf c inner emails Hc Ha Hm)|].
    split; [set_solver|].
    split.
    { intros field p e k [-> | ->] Hp He Hk; rewrite Hp; simpl; rewrite He, Hk; set_solver. }
    split.
    { intros -> ->. simpl. set_solver. }
    split.
    { intros p Hp He. rewrite Hp. simpl. rewrite He. simpl. set_solver. }
    split.
    { intros p Hp He. rewrite Hp. simpl. rewrite He. simpl. set_solver. }
    split.
    { intros k -> ->. simpl. split; [set_solver|].
      intros ->. replace (∅ ∪ {[k]} ∪ {[k]}) with ({[k]} : gset key) by set_solver.
      apply size_singleton. }
    intros before after start final Hfinal.
    pose proof (scan_commits_finds c inner before after start final Hc Ha Hm Hfinal) as Hsub.
    unfold emails_of_commit in Hsub. set_solver. }
  split.
  { intros fuel s repo_owner repo_name username start page st resp w before after
           result st' Hget Hok Hbody Hrun.
    destruct (commits_loop_scanned _ _ _ _ _ _ _ _ _ _ _ _ _ Hget Hok Hbody
                ltac:(by destruct before) Hrun) as (emails1 & Hscan & Hnext & Hsub).
    exists emails1. split; [exact Hscan|].
    split; [exact (scan_commits_finds c inner before after start emails1 Hc Ha Hm Hscan)|].
    split; [exact Hnext|exact Hsub]. }
  split.
  { intros s repo_owner repo_name done rest pr number start emails1 st st1 resp w
           before after result st' Hdone Hnumber Hget Hok Hbody Hrun.
    destruct (scan_prs_scanned _ _ _ _ _ _ _ _ _ _ _ _ _ _ _ _ Hdone Hnumber Hget Hok
                Hbody Hrun) as (emails2 & Hscan & Hnext & Hsub).
    exists emails2. split; [exact Hscan|].
    split; [exact (scan_commits_finds c inner before after emails1 emails2 Hc Ha Hm Hscan)|].
    split; [exact Hnext|exact Hsub]. }
  split.
  { intros fuel s repo_owner repo_name username start page st resp w items mine
           emails1 st1 result st'. apply pulls_loop_scanned. }
  intros fuel s repo_owner repo_name username st st' result.
  apply get_contribution_emails_loops.
Qed.

(** *** Tolerated failures of the scanner *)

(** C6. When the first page of the commit listing of a repository is
    answered with a status other than 200, the commit scan returns the empty
    set without raising, and the scan of the repository is the pull-request
    scan started from the empty set in the state the refused request left;
    that scan sends its first-page request. *)
Theorem commit_listing_refused (fuel : nat) (s : session) (repo_owner repo_name username : json)
    (st : state) (resp : response) (w : world)
    (Hget : http_get (get_request s (commits_url repo_owner repo_name)
                                  (commits_params username 1)) (net st) = (inr resp, w))
    (Hstatus : status_code resp ≠ 200) :
  let rq := get_request s (commits_url repo_owner repo_name) (commits_params username 1) in
  let st1 := after_request rq w st in
  commits_loop (S fuel) s repo_owner repo_name username ∅ 1 st = (Ret ∅, st1) ∧
  get_contribution_emails (S fuel) s repo_owner repo_name username st
  = pulls_loop (S fuel) s repo_owner repo_name username ∅ 1 st1 ∧
  ∃ l : list request,
    log (snd (get_contribution_emails (S fuel) s repo_owner repo_name username st))
    = (log st ++ rq :: get_request s (pulls_url repo_owner repo_name) (pulls_params 1) :: l)%list.
Proof.
  intros rq st1.
  assert (commits_loop (S fuel) s repo_owner repo_name username ∅ 1 st = (Ret ∅, st1)) as Hloop.
  { simpl. erewrite bind_ret by (apply session_get_answer; exact Hget).
    destruct (Z.eqb_spec (status_code resp) 200); [contradiction|]. reflexivity. }
  assert (get_contribution_emails (S fuel) s repo_owner repo_name username st
          = pulls_loop (S fuel) s repo_owner repo_name username ∅ 1 st1) as Hscan.
  { unfold get_contribution_emails. erewrite bind_ret by exact Hloop. reflexivity. }
  split; [exact Hloop|]. split; [exact Hscan|].
  rewrite Hscan. simpl.
  destruct (session_get_first s (pulls_url repo_owner repo_name) (pulls_params 1)
              (fun prs_response =>
                 if negb (status_code prs_response =? 200) then ret ∅
                 else bind (lift (response_json prs_response)) (fun prs =>
                   if negb (Py.truthy prs) then ret ∅
                   else bind (lift (Py.iter prs)) (fun items =>
                     bind (lift (user_prs username items)) (fun mine =>
                       bind (scan_prs s repo_owner repo_name mine ∅) (fun emails =>
                         pulls_loop fuel s repo_owner repo_name username emails (1 + 1))))))
              st1) as [l Hl].
  { intros r. repeat (apply grows_pulls_loop || apply grows_scan_prs || grows_step). }
  exists l. rewrite Hl. unfold st1. simpl. by rewrite <- app_assoc.
Qed.

(** C9. When the fetch of the commit list of one pull request is answered
    with a status other than 200, after the pull requests [before] were
    scanned, the scan of the page goes on with the pull requests [rest] and
    the emails accumulated so far: nothing is raised and nothing is lost;
    and once the page is scanned the loop asks for the next page. *)
Theorem pr_commits_refused (s : session) (repo_owner repo_name : json)
    (before rest : list json) (pr number : json) (emails emails1 : gset key)
    (st st1 : state) (resp : response) (w : world)
    (Hbefore : scan_prs s repo_owner repo_name before emails st = (Ret emails1, st1))
    (Hnumber : Py.getitem pr "number" = Ret number)
    (Hget : http_get (get_request s (pr_commits_url repo_owner repo_name number) [])
                     (net st1) = (inr resp, w))
    (Hstatus : status_code resp ≠ 200) :
  let st2 := after_request (get_request s (pr_commits_url repo_owner repo_name number) []) w st1 in
  scan_prs s repo_owner repo_name (before ++ pr :: rest) emails st
  = scan_prs s repo_owner repo_name rest emails1 st2 ∧
  (∀ (fuel : nat) (username : json) (page : Z) (st0 : state) (page_resp : response)
     (prs : json) (items : list json) (result : gset key) (st3 : state),
      session_get s (pulls_url repo_owner repo_name) (pulls_params page) st0
      = (Ret page_resp, st) ->
      status_code page_resp = 200 ->
      response_json page_resp = Ret prs ->
      Py.truthy prs = true ->
      Py.iter prs = Ret items ->
      user_prs username items = Ret (before ++ pr :: rest)%list ->
      scan_prs s repo_owner repo_name rest emails1 st2 = (Ret result, st3) ->
      pulls_loop (S fuel) s repo_owner repo_name username emails page st0
      = pulls_loop fuel s repo_owner repo_name username result (page + 1) st3).
Proof.
  intros st2.
  assert (scan_prs s repo_owner repo_name (before ++ pr :: rest) emails st
          = scan_prs s repo_owner repo_name rest emails1 st2) as Hskip.
  { rewrite scan_prs_app. erewrite bind_ret by exact Hbefore.
    simpl. rewrite bind_lift, Hnumber.
    erewrite bind_ret by (apply session_get_answer; exact Hget).
    destruct (Z.eqb_spec (status_code resp) 200); [contradiction|]. reflexivity. }
  split; [exact Hskip|].
  intros fuel username page st0 page_resp prs items result st3
         Hpage Hok Hjson Htruthy Hiter Hmine Hrest.
  simpl. erewrite bind_ret by exact Hpage.
  rewrite Hok. simpl. rewrite bind_lift, Hjson, Htruthy. simpl.
  rewrite bind_lift, Hiter, bind_lift, Hmine.
  erewrite bind_ret by (rewrite Hskip; exact Hrest). reflexivity.
Qed.

(** *** The push filter of the enumerator *)


(** *** The pull requests of the identity *)

Lemma scan_prs_log (s : session) (repo_owner repo_name : json) (mine : list json)
    (emails : gset key) (st : state) (out : outcome (gset key)) (st' : state) :
  scan_prs s repo_owner repo_name mine emails st = (out, st') ->
  ∃ j : nat,
    (j <= length mine)%nat ∧
    log st' = (log st ++ map (pr_commits_request s repo_owner repo_name) (take j mine))%list ∧
    ((∃ result, out = Ret result) -> j = length mine).
Proof.
  revert emails st. induction mine as [|pr rest IH]; intros emails st Hrun.
  { injection Hrun as <- <-. exists 0%nat. simpl. rewrite app_nil_r. auto. }
  simpl scan_prs in Hrun. rewrite bind_lift in Hrun.
  destruct (Py.getitem pr "number") as [number|e|] eqn:Hnumber.
  2,3: injection Hrun as <- <-; exists 0%nat; simpl; rewrite app_nil_r; split; [lia|];
    split; [reflexivity|]; intros [? ?]; discriminate.
  unfold bind at 1 in Hrun.
  pose proof (session_get_log s (pr_commits_url repo_owner repo_name number) [] st) as Hlog.
  assert (get_request s (pr_commits_url repo_owner repo_name number) []
          = pr_commits_request s repo_owner repo_name pr) as Hrq.
  { unfold pr_commits_request. by rewrite Hnumber. }
  rewrite Hrq in Hlog.
  destruct (session_get s _ [] st) as [[resp|e|] st1]; simpl in Hlog.
  2,3: injection Hrun as <- <-; exists 1%nat; simpl; split; [lia|]; split;
    [exact Hlog | intros [? ?]; discriminate].
  unfold bind at 1 in Hrun.
  match type of Hrun with
  | match ?m st1 with _ => _ end = _ =>
      assert (log (snd (m st1)) = log st1) as Hm;
      [ destruct (status_code resp =? 200); [|reflexivity];
        rewrite bind_lift; destruct (response_json resp); try reflexivity;
        rewrite bind_lift; destruct (Py.iter _); reflexivity
      | destruct (m st1) as [[a|e|] st2]; simpl in Hm ]
  end.
  - destruct (IH a st2 Hrun) as (j & Hj & Hl & Hret).
    exists (S j). simpl. split; [lia|]. split.
    + rewrite Hl, Hm, Hlog. by rewrite <- app_assoc.
    + intros Hr. f_equal. apply Hret. exact Hr.
  - injection Hrun as <- <-. exists 1%nat. simpl. split; [lia|]. split.
    + by rewrite Hm, Hlog.
    + intros [? ?]; discriminate.
  - injection Hrun as <- <-. exists 1%nat. simpl. split; [lia|]. split.
    + by rewrite Hm, Hlog.
    + intros [? ?]; discriminate.
Qed.


(** *** Failures that end the run *)

Lemma raise_for_status_error (resp : response) :
  400 <= status_code resp < 600 ->
  ∃ msg : string, raise_for_status resp = Raise (RequestException msg).
Proof.
  intros [Hlo Hhi]. unfold raise_for_status.
  destruct (Z.leb_spec 400 (status_code resp)); [|lia].
  destruct (Z.ltb_spec (status_code resp) 500); simpl; [eauto|].
  destruct (Z.leb_spec 500 (status_code resp)); [|lia].
  destruct (Z.ltb_spec (status_code resp) 600); simpl; [eauto|lia].
Qed.

Lemma orgs_loop_app (fuel : nat) (s : session) (l1 l2 : list json) (acc : list json)
    (st : state) :
  orgs_loop fuel s (l1 ++ l2) acc st
  = bind (orgs_loop fuel s l1 acc) (fun acc => orgs_loop fuel s l2 acc) st.
Proof.
  revert acc st. induction l1 as [|org l1 IH]; intros acc st; [reflexivity|].
  simpl. rewrite bind_assoc. apply bind_cong. intros org_name st1.
  rewrite bind_assoc. apply bind_cong. intros acc1 st2. apply IH.
Qed.

Lemma main_except_request_exception {A} (m : M A) (st st' : state) (msg : string) :
  m st = (Raise (RequestException msg), st') ->
  main_except m st = (Raise (SystemExit 1), printed ("Error: " +:+ msg) st').
Proof. intros Hm. unfold main_except. rewrite Hm. reflexivity. Qed.

(** C2, as the code has it.  A 4xx or 5xx answer to a page request for an
    organization's repositories raises (HTTPError, a RequestException) out
    of the loop over the pages; the exception leaves the loop over the
    organizations, so the organizations after it are not queried, and
    leaves [get_org_repos]; and [main] then prints the error and exits with
    status 1. *)
Theorem org_listing_failure_aborts :
  (∀ (fuel : nat) (s : session) (org_name : json) (all_org_repos : list json) (page : Z)
     (st : state) (resp : response) (w : world),
      http_get (get_request s (org_repos_url org_name) (org_repos_params page)) (net st)
      = (inr resp, w) ->
      400 <= status_code resp < 600 ->
      ∃ msg : string,
        org_repos_loop (S fuel) s org_name all_org_repos page st
        = (Raise (RequestException msg),
           after_request (get_request s (org_repos_url org_name) (org_repos_params page)) w st)) ∧
  (∀ (fuel : nat) (s : session) (before rest : list json) (org org_name : json)
     (acc acc1 : list json) (st st1 st2 : state) (e : exn),
      orgs_loop fuel s before acc st = (Ret acc1, st1) ->
      Py.getitem org "login" = Ret org_name ->
      org_repos_loop fuel s org_name acc1 1 st1 = (Raise e, st2) ->
      orgs_loop fuel s (before ++ org :: rest) acc st = (Raise e, st2)) ∧
  (∀ (fuel : nat) (s : session) (st st1 st2 : state) (resp : response) (orgs : json)
     (org_list : list json) (e : exn),
      session_get s (GITHUB_API_URL +:+ "/user/orgs") [] st = (Ret resp, st1) ->
      raise_for_status resp = Ret tt ->
      response_json resp = Ret orgs ->
      Py.iter orgs = Ret org_list ->
      orgs_loop fuel s org_list [] st1 = (Raise e, st2) ->
      get_org_repos fuel s st = (Raise e, st2)) ∧
  (∀ (fuel : nat) (c : ascii) (t : string) (st st1 st2 st3 : state) (user username : json)
     (user_repos : list json) (msg : string),
      let token := String c t in
      let session := create_github_session token in
      get_authenticated_user session st = (Ret user, st1) ->
      Py.getitem user "login" = Ret username ->
      get_user_repos fuel session
        (printed (nl +:+ "Fetching your repositories...")
           (printed ("Authenticated as: " +:+ fstr username) st1))
      = (Ret user_repos, st2) ->
      get_org_repos fuel session
        (printed (nl +:+ "Fetching organization repositories...")
           (printed ("Found " +:+ Py.str_int (len user_repos) +:+ " repositories owned by you")
              st2))
      = (Raise (RequestException msg), st3) ->
      main fuel (Some token) st = (Raise (SystemExit 1), printed ("Error: " +:+ msg) st3)).
Proof.
  split.
  { intros fuel s org_name acc page st resp w Hget Hstatus.
    destruct (raise_for_status_error resp Hstatus) as [msg Hmsg]. exists msg.
    simpl. erewrite bind_ret by (apply session_get_answer; exact Hget).
    rewrite bind_lift, Hmsg. reflexivity. }
  split.
  { intros fuel s before rest org org_name acc acc1 st st1 st2 e Hbefore Hlogin Hfail.
    rewrite orgs_loop_app. erewrite bind_ret by exact Hbefore.
    simpl. rewrite bind_lift, Hlogin.
    erewrite bind_raise by exact Hfail. reflexivity. }
  split.
  { intros fuel s st st1 st2 resp orgs org_list e Hget Hok Hjson Hiter Hloop.
    unfold get_org_repos. erewrite bind_ret by exact Hget.
    rewrite bind_lift, Hok, bind_lift, Hjson, bind_lift, Hiter. exact Hloop. }
  intros fuel c t st st1 st2 st3 user username user_repos msg token session
         Huser Hlogin Hrepos Horgs.
  unfold main. fold token. apply main_except_request_exception.
  unfold main_try. fold session.
  erewrite bind_ret by exact Huser.
  rewrite bind_lift, Hlogin.
  unfold bind at 1. unfold print at 1. unfold bind at 1. unfold print at 1.
  erewrite bind_ret by exact Hrepos.
  unfold bind at 1. unfold print at 1. unfold bind at 1. unfold print at 1.
  erewrite bind_raise by exact Horgs. reflexivity.
Qed.

(** *** The token gate *)

Lemma main_except_log {A} (m : M A) (st : state) :
  log (snd (main_except m st)) = log (snd (m st)).
Proof.
  unfold main_except. destruct (m st) as [[a|[]|] st']; reflexivity.
Qed.

Lemma main_try_first_request (fuel : nat) (token : string) (st : state) :
  ∃ l : list request,
    log (snd (main_try fuel token st))
    = (log st ++ get_request (create_github_session token) (GITHUB_API_URL +:+ "/user") [] :: l)%list.
Proof.
  unfold main_try, get_authenticated_user. rewrite bind_assoc.
  apply session_get_first. intros r.
  repeat (apply grows_collect || apply grows_get_org_repos_aux || apply grows_user_repos_loop
          || grows_step).
Qed.

(** C7, as the code has it.  Without a token argument, and also with an
    empty one, [main] prints the prompt and exits with status 1 and sends no
    request; with a non-empty token it runs the [try] block, whose first
    action is the request for the authenticated user. *)
Theorem token_gate :
  (∀ (fuel : nat) (token : option string) (st : state),
      token = None ∨ token = Some "" ->
      main fuel token st = (Raise (SystemExit 1), printed token_prompt st) ∧
      log (snd (main fuel token st)) = log st) ∧
  (∀ (fuel : nat) (token : string) (st : state),
      token ≠ "" ->
      main fuel (Some token) st = main_except (main_try fuel token) st ∧
      ∃ l : list request,
        log (snd (main fuel (Some token) st))
        = (log st ++ get_request (create_github_session token) (GITHUB_API_URL +:+ "/user") []
                  :: l)%list).
Proof.
  split.
  - intros fuel token st [-> | ->]; split; reflexivity.
  - intros fuel token st Hne. destruct token as [|c t]; [congruence|].
    split; [reflexivity|].
    change (main fuel (Some (String c t)) st)
      with (main_except (main_try fuel (String c t)) st).
    rewrite main_except_log. apply main_try_first_request.
Qed.

(** *** The aggregation *)

Lemma collect_scan_all (fuel : nat) (s : session) (username : json) (total : Z)
    (repos : list json) (i : Z) (acc : aggregates) (st : state) :
  collect fuel s username total repos i acc st
  = bind (scan_all fuel s username total repos i)
         (fun scans => ret (record_all scans acc)) st.
Proof.
  revert i acc st. induction repos as [|repo rest IH]; intros i acc st; [reflexivity|].
  simpl. rewrite bind_assoc. apply bind_cong. intros owner st1.
  rewrite bind_assoc. apply bind_cong. intros repo_owner st2.
  rewrite bind_assoc. apply bind_cong. intros repo_name st3.
  rewrite bind_assoc. apply bind_cong. intros [] st4.
  rewrite bind_assoc. apply bind_cong. intros emails st5.
  rewrite bind_assoc. rewrite IH. apply bind_cong. intros scans st6. reflexivity.
Qed.

Lemma collect_scans (fuel : nat) (s : session) (username : json) (total : Z)
    (repos : list json) (i : Z) (acc result : aggregates) (st st' : state) :
  collect fuel s username total repos i acc st = (Ret result, st') ->
  ∃ scans, scan_all fuel s username total repos i st = (Ret scans, st') ∧
           result = record_all scans acc.
Proof.
  rewrite collect_scan_all. unfold bind.
  destruct (scan_all fuel s username total repos i st) as [[scans|e|] st1];
    try discriminate.
  intros [= <- <-]. eauto.
Qed.

(** C1, as the code has it.  After [collect] has processed the
    repositories: the global set is the union of the email sets the scans
    returned; every entry of the per-repository mapping is the non-empty
    result of a scan under that key, and is included in the global set;
    every key with a non-empty scan has an entry; and when no two scans that
    found an email share a key, an email is in the global set if and only
    if it is in an entry of the mapping. *)
Theorem aggregation_invariant (fuel : nat) (s : session) (username : json) (total : Z)
    (repos : list json) (i : Z) (st st' : state)
    (all_emails : gset key) (repo_emails : gmap string (gset key))
    (Hrun : collect fuel s username total repos i (∅, ∅) st
            = (Ret (all_emails, repo_emails), st')) :
  ∃ scans : list (string * gset key),
    scan_all fuel s username total repos i st = (Ret scans, st') ∧
    (∀ x : key, x ∈ all_emails <-> ∃ k e, (k, e) ∈ scans ∧ x ∈ e) ∧
    (∀ (k : string) (e : gset key),
        repo_emails !! k = Some e -> e ≠ ∅ ∧ (k, e) ∈ scans ∧ e ⊆ all_emails) ∧
    (∀ (k : string) (e : gset key),
        (k, e) ∈ scans -> e ≠ ∅ -> is_Some (repo_emails !! k)) ∧
    (NoDup (fst <$> fruitful scans) ->
     ∀ x : key, x ∈ all_emails <-> ∃ k e, repo_emails !! k = Some e ∧ x ∈ e).
Proof.
  destruct (collect_scans _ _ _ _ _ _ _ _ _ _ Hrun) as (scans & Hscans & Hresult).
  exists scans. split; [exact Hscans|].
  assert (∀ x : key, x ∈ all_emails <-> ∃ k e, (k, e) ∈ scans ∧ x ∈ e) as Hall.
  { intros x. pose proof (record_all_global scans (∅, ∅) x) as Hg.
    rewrite <- Hresult in Hg. simpl in Hg. rewrite Hg. set_solver. }
  assert (∀ k, repo_emails !! k = last_scan k scans) as Hper.
  { intros k. pose proof (record_all_lookup scans (∅, ∅) k) as Hl.
    rewrite <- Hresult in Hl. simpl in Hl. rewrite Hl, lookup_empty.
    destruct (last_scan k scans); reflexivity. }
  assert (∀ k e, repo_emails !! k = Some e -> e ≠ ∅ ∧ (k, e) ∈ scans ∧ e ⊆ all_emails)
    as Hentry.
  { intros k e He. rewrite Hper in He.
    destruct (last_scan_Some _ _ _ He) as [Hne Hin].
    split; [done|]. split; [done|]. intros x Hx. apply Hall. eauto. }
  split; [exact Hall|]. split; [exact Hentry|]. split.
  { intros k e Hin Hne. rewrite Hper.
    destruct (last_scan k scans) as [e'|] eqn:Hlast; [eauto|].
    exfalso. apply Hne. eapply last_scan_None; eauto. }
  intros Hnd x. split.
  - rewrite Hall. intros (k & e & Hin & Hx). exists k, e. split; [|done].
    rewrite Hper. apply last_scan_unique; [done|done|]. intros ->. set_solver.
  - intros (k & e & He & Hx). destruct (Hentry k e He) as (_ & _ & Hsub). by apply Hsub.
Qed.

(** C10. When the scans of a run of [collect] contain two scans under the
    same key, both non-empty, and no later non-empty scan under that key,
    the per-repository mapping holds the set of the second scan under the
    key, and the global set contains the emails of both. *)
Theorem duplicate_key_replaces (fuel : nat) (s : session) (username : json) (total : Z)
    (repos : list json) (i : Z) (st st' : state)
    (all_emails : gset key) (repo_emails : gmap string (gset key))
    (scans l1 l2 l3 : list (string * gset key)) (k : string) (e1 e2 : gset key)
    (Hrun : collect fuel s username total repos i (∅, ∅) st
            = (Ret (all_emails, repo_emails), st'))
    (Hscans : scan_all fuel s username total repos i st = (Ret scans, st'))
    (Hsplit : scans = (l1 ++ (k, e1) :: l2 ++ (k, e2) :: l3)%list)
    (Hfirst : e1 ≠ ∅)
    (Hsecond : e2 ≠ ∅)
    (Hlast : ∀ e, (k, e) ∈ l3 -> e = ∅) :
  repo_emails !! k = Some e2 ∧ e1 ∪ e2 ⊆ all_emails.
Proof.
  destruct (collect_scans _ _ _ _ _ _ _ _ _ _ Hrun) as (scans' & Hscans' & Hresult).
  rewrite Hscans in Hscans'. injection Hscans' as <-.
  split.
  - pose proof (record_all_lookup scans (∅, ∅) k) as Hl.
    rewrite <- Hresult in Hl. simpl in Hl. rewrite Hl, Hsplit.
    rewrite last_scan_app. simpl last_scan at 1. rewrite last_scan_app.
    simpl last_scan at 1.
    apply last_scan_None in Hlast. rewrite Hlast.
    destruct (decide (k = k ∧ e2 ≠ ∅)) as [|Hn]; [reflexivity|].
    exfalso. apply Hn. done.
  - intros x Hx. pose proof (record_all_global scans (∅, ∅) x) as Hg.
    rewrite <- Hresult in Hg. simpl in Hg. apply Hg. right.
    apply elem_of_union in Hx as [Hx|Hx].
    + exists k, e1. split; [|done]. rewrite Hsplit.
      apply elem_of_app. right. apply list_elem_of_here.
    + exists k, e2. split; [|done]. rewrite Hsplit.
      apply elem_of_app. right. apply list_elem_of_further.
      apply elem_of_app. right. apply list_elem_of_here.
Qed.

End Runs.

(** ** Pagination *)

Lemma page_bound_first (items : list json) :
  page_bound (rest_from items 1) = page_bound items.
Proof. reflexivity. Qed.

Lemma page_bound_next (items : list json) (page : Z) (x : json) (l : list json) :
  1 <= page ->
  page_of items page = x :: l ->
  (S (page_bound (rest_from items (page + 1))) <= page_bound (rest_from items page))%nat.
Proof.
  intros Hpage Hne. unfold page_bound, page_of, rest_from in *.
  rewrite !length_skipn.
  assert (1 <= length items - 100 * (Z.to_nat page - 1))%nat as Hlen.
  { rewrite <- length_skipn.
    destruct (skipn (100 * (Z.to_nat page - 1)) items); [discriminate|simpl; lia]. }
  replace (Z.to_nat (page + 1) - 1)%nat with (S (Z.to_nat page - 1)) by lia.
  set (n := (length items - 100 * (Z.to_nat page - 1))%nat) in *.
  replace (length items - 100 * S (Z.to_nat page - 1))%nat with (n - 100)%nat by lia.
  destruct (le_lt_dec 100 n) as [Hbig|Hsmall].
  - replace (n + 99)%nat with ((n - 100 + 99) + 1 * 100)%nat by lia.
    rewrite Nat.div_add by lia. lia.
  - replace (n - 100 + 99)%nat with 99%nat by lia.
    change (99 / 100)%nat with 0%nat.
    assert (100 / 100 <= (n + 99) / 100)%nat as Hdiv
      by (apply Nat.Div0.div_le_mono; lia).
    change (100 / 100)%nat with 1%nat in Hdiv. lia.
Qed.

Lemma pages_from_S (page : Z) (k : nat) :
  pages_from page (S k) = page :: pages_from (page + 1) k.
Proof.
  unfold pages_from. simpl. f_equal; [lia|].
  rewrite <- seq_shift, map_map. apply map_ext. intros i. lia.
Qed.

Lemma raise_for_status_total (resp : response) : raise_for_status resp ≠ Timeout.
Proof.
  unfold raise_for_status.
  destruct (_ && _); [discriminate|]. destruct (_ && _); discriminate.
Qed.

(** The operations on parsed values return or raise. *)
Lemma obind_total {A B} (m : outcome A) (k : A -> outcome B) :
  m ≠ Timeout -> (∀ a, k a ≠ Timeout) -> obind m k ≠ Timeout.
Proof. destruct m; simpl; [auto|discriminate|contradiction]. Qed.

Lemma get_total (d : json) (k : string) (v : json) : Py.get d k v ≠ Timeout.
Proof. destruct d; discriminate. Qed.

Lemma add_email_of_total (person : json) (emails : gset key) :
  add_email_of person emails ≠ Timeout.
Proof.
  unfold add_email_of. destruct (Py.truthy person); [|discriminate].
  apply obind_total.
  - destruct person; discriminate.
  - intros [|]; [|discriminate]. apply obind_total.
    + unfold Py.getitem. destruct person; try discriminate.
      destruct (Py.assoc "email" o); discriminate.
    + intros e. unfold set_add. destruct (to_key e); discriminate.
Qed.

Ltac no_timeout :=
  repeat first
    [ apply obind_total; [|intros ?]
    | apply get_total
    | apply add_email_of_total
    | discriminate ].

Lemma scan_commit_total (commit : json) (emails : gset key) :
  scan_commit commit emails ≠ Timeout.
Proof. unfold scan_commit. no_timeout. Qed.

Lemma scan_commits_total (commits : list json) (emails : gset key) :
  scan_commits commits emails ≠ Timeout.
Proof.
  revert emails. induction commits as [|commit rest IH]; intros emails; simpl; [discriminate|].
  pose proof (scan_commit_total commit emails) as Hc.
  destruct (scan_commit commit emails); simpl; [apply IH|discriminate|contradiction].
Qed.

Lemma push_repos_total (batch : list json) : push_repos batch ≠ Timeout.
Proof.
  induction batch as [|repo rest IH]; simpl; [discriminate|].
  assert (has_push repo ≠ Timeout) as Hp
    by (unfold has_push; no_timeout).
  destruct (has_push repo); simpl; [|discriminate|contradiction].
  destruct (push_repos rest); simpl; [discriminate|discriminate|contradiction].
Qed.

Lemma user_prs_total (username : json) (prs : list json) : user_prs username prs ≠ Timeout.
Proof.
  induction prs as [|pr rest IH]; simpl; [discriminate|].
  assert (opened_by username pr ≠ Timeout) as Hp
    by (unfold opened_by; no_timeout).
  destruct (opened_by username pr); simpl; [|discriminate|contradiction].
  destruct (user_prs username rest); simpl; [discriminate|discriminate|contradiction].
Qed.

Lemma app_inj_prefix (a b c : string) : a +:+ b = a +:+ c -> b = c.
Proof. induction a as [|x a IH]; simpl; [auto|]. intros [= Heq]. auto. Qed.

Section Pagination.
Context `{Env}.

(** One request was sent and the loop stopped. *)
Lemma one_page (rq : Z -> request) (page : Z) (st : state) (w : world) (bound : nat) :
  (1 <= bound)%nat ->
  ∃ k : nat, (1 <= k <= bound)%nat ∧
    log (after_request (rq page) w st) = (log st ++ map rq (pages_from page k))%list.
Proof. intros Hb. exists 1%nat. split; [lia|]. simpl. by rewrite Z.add_0_r. Qed.

Lemma more_pages (rq : Z -> request) (page : Z) (st st1 st' : state) (k bound bound' : nat) :
  log st1 = (log st ++ [rq page])%list ->
  (S bound' <= bound)%nat ->
  (1 <= k <= bound')%nat ->
  log st' = (log st1 ++ map rq (pages_from (page + 1) k))%list ->
  ∃ k : nat, (1 <= k <= bound)%nat ∧
    log st' = (log st ++ map rq (pages_from page k))%list.
Proof.
  intros H1 Hb Hk H'. exists (S k). split; [lia|].
  rewrite H', H1, pages_from_S. simpl. by rewrite <- app_assoc.
Qed.

Lemma user_repos_loop_pages (s : session) (items : list json) :
  let rq := fun page => get_request s user_repos_url (user_repos_params page) in
  serves rq passes items ->
  ∀ (fuel : nat) (repos : list json) (page : Z) (st st' : state) (out : outcome (list json)),
    user_repos_loop fuel s repos page st = (out, st') ->
    1 <= page ->
    (page_bound (rest_from items page) <= fuel)%nat ->
    out ≠ Timeout ∧
    ∃ k : nat, (1 <= k <= page_bound (rest_from items page))%nat ∧
      log st' = (log st ++ map rq (pages_from page k))%list.
Proof.
  intros rq Hserves. induction fuel as [|fuel IH];
    intros repos page st st' out Hrun Hpage Hfuel.
  { unfold page_bound in Hfuel. lia. }
  simpl in Hrun. unfold bind at 1 in Hrun. unfold session_get in Hrun.
  fold (rq page) in Hrun.
  destruct (http_get (rq page) (net st)) as [[msg|resp] w] eqn:Hget.
  { injection Hrun as <- <-. split; [discriminate|]. apply one_page. unfold page_bound. lia. }
  rewrite bind_lift in Hrun.
  pose proof (Hserves page (net st) w resp Hpage Hget) as Hbody. unfold passes in Hbody.
  pose proof (raise_for_status_total resp) as Htotal.
  destruct (raise_for_status resp) as [[]|e|]; [| |contradiction].
  2: { injection Hrun as <- <-. split; [discriminate|]. apply one_page.
       unfold page_bound. lia. }
  unfold response_json in Hrun. rewrite (Hbody eq_refl), bind_lift in Hrun.
  destruct (page_of items page) as [|x l] eqn:Hitems.
  { injection Hrun as <- <-. split; [discriminate|]. apply one_page. unfold page_bound. lia. }
  change (negb (Py.truthy (JArr (x :: l)))) with false in Hrun. cbv iota in Hrun.
  change (Py.iter (JArr (x :: l))) with (Ret (x :: l)) in Hrun.
  rewrite bind_lift in Hrun.
  pose proof (page_bound_next items page x l Hpage Hitems) as Hnext.
  destruct (IH _ _ _ _ _ Hrun) as (Hout & k & Hk & Hlog); [lia|lia|].
  split; [exact Hout|].
  exact (more_pages rq page st (after_request (rq page) w st) st' k _ _
           eq_refl Hnext Hk Hlog).
Qed.

Lemma org_repos_loop_pages (s : session) (org_name : json) (items : list json) :
  let rq := fun page => get_request s (org_repos_url org_name) (org_repos_params page) in
  serves rq passes items ->
  ∀ (fuel : nat) (acc : list json) (page : Z) (st st' : state) (out : outcome (list json)),
    org_repos_loop fuel s org_name acc page st = (out, st') ->
    1 <= page ->
    (page_bound (rest_from items page) <= fuel)%nat ->
    out ≠ Timeout ∧
    ∃ k : nat, (1 <= k <= page_bound (rest_from items page))%nat ∧
      log st' = (log st ++ map rq (pages_from page k))%list.
Proof.
  intros rq Hserves. induction fuel as [|fuel IH];
    intros acc page st st' out Hrun Hpage Hfuel.
  { unfold page_bound in Hfuel. lia. }
  simpl in Hrun. unfold bind at 1 in Hrun. unfold session_get in Hrun.
  fold (rq page) in Hrun.
  destruct (http_get (rq page) (net st)) as [[msg|resp] w] eqn:Hget.
  { injection Hrun as <- <-. split; [discriminate|]. apply one_page. unfold page_bound. lia. }
  rewrite bind_lift in Hrun.
  pose proof (Hserves page (net st) w resp Hpage Hget) as Hbody. unfold passes in Hbody.
  pose proof (raise_for_status_total resp) as Htotal.
  destruct (raise_for_status resp) as [[]|e|]; [| |contradiction].
  2: { injection Hrun as <- <-. split; [discriminate|]. apply one_page.
       unfold page_bound. lia. }
  unfold response_json in Hrun. rewrite (Hbody eq_refl), bind_lift in Hrun.
  destruct (page_of items page) as [|x l] eqn:Hitems.
  { injection Hrun as <- <-. split; [discriminate|]. apply one_page. unfold page_bound. lia. }
  change (negb (Py.truthy (JArr (x :: l)))) with false in Hrun. cbv iota in Hrun.
  change (Py.iter (JArr (x :: l))) with (Ret (x :: l)) in Hrun.
  rewrite !bind_lift in Hrun.
  pose proof (page_bound_next items page x l Hpage Hitems) as Hnext.
  pose proof (push_repos_total (x :: l)) as Hpush.
  destruct (push_repos (x :: l)) as [kept|e|]; [| |contradiction].
  2: { injection Hrun as <- <-. split; [discriminate|]. apply one_page.
       unfold page_bound. lia. }
  destruct (IH _ _ _ _ _ Hrun) as (Hout & k & Hk & Hlog); [lia|lia|].
  split; [exact Hout|].
  exact (more_pages rq page st (after_request (rq page) w st) st' k _ _
           eq_refl Hnext Hk Hlog).
Qed.

Lemma commits_loop_pages (s : session) (repo_owner repo_name username : json)
    (items : list json) :
  let rq := fun page =>
    get_request s (commits_url repo_owner repo_name) (commits_params username page) in
  serves rq is_200 items ->
  ∀ (fuel : nat) (emails : gset key) (page : Z) (st st' : state) (out : outcome (gset key)),
    commits_loop fuel s repo_owner repo_name username emails page st = (out, st') ->
    1 <= page ->
    (page_bound (rest_from items page) <= fuel)%nat ->
    out ≠ Timeout ∧
    ∃ k : nat, (1 <= k <= page_bound (rest_from items page))%nat ∧
      log st' = (log st ++ map rq (pages_from page k))%list.
Proof.
  intros rq Hserves. induction fuel as [|fuel IH];
    intros emails page st st' out Hrun Hpage Hfuel.
  { unfold page_bound in Hfuel. lia. }
  simpl in Hrun. unfold bind at 1 in Hrun. unfold session_get in Hrun.
  fold (rq page) in Hrun.
  destruct (http_get (rq page) (net st)) as [[msg|resp] w] eqn:Hget.
  { injection Hrun as <- <-. split; [discriminate|]. apply one_page. unfold page_bound. lia. }
  pose proof (Hserves page (net st) w resp Hpage Hget) as Hbody. unfold is_200 in Hbody.
  destruct (status_code resp =? 200).
  2: { injection Hrun as <- <-. split; [discriminate|]. apply one_page.
       unfold page_bound. lia. }
  change (negb true) with false in Hrun. cbv iota in Hrun.
  unfold response_json in Hrun. rewrite (Hbody eq_refl), bind_lift in Hrun.
  destruct (page_of items page) as [|x l] eqn:Hitems.
  { injection Hrun as <- <-. split; [discriminate|]. apply one_page. unfold page_bound. lia. }
  change (negb (Py.truthy (JArr (x :: l)))) with false in Hrun. cbv iota in Hrun.
  change (Py.iter (JArr (x :: l))) with (Ret (x :: l)) in Hrun.
  rewrite !bind_lift in Hrun.
  pose proof (page_bound_next items page x l Hpage Hitems) as Hnext.
  pose proof (scan_commits_total (x :: l) emails) as Hscan.
  destruct (scan_commits (x :: l) emails) as [emails1|e|]; [| |contradiction].
  2: { injection Hrun as <- <-. split; [discriminate|]. apply one_page.
       unfold page_bound. lia. }
  destruct (IH _ _ _ _ _ Hrun) as (Hout & k & Hk & Hlog); [lia|lia|].
  split; [exact Hout|].
  exact (more_pages rq page st (after_request (rq page) w st) st' k _ _
           eq_refl Hnext Hk Hlog).
Qed.

Lemma requests_to_app (u : string) (l1 l2 : list request) :
  requests_to u (l1 ++ l2) = (requests_to u l1 ++ requests_to u l2)%list.
Proof. apply filter_app. Qed.

Lemma requests_to_same (u : string) (rq : Z -> request) (l : list Z) :
  (∀ page, url (rq page) = u) -> requests_to u (map rq l) = map rq l.
Proof.
  intros Hu. induction l as [|page l IH]; [reflexivity|].
  simpl. unfold requests_to in *. rewrite filter_cons, IH.
  rewrite Hu, String.eqb_refl. reflexivity.
Qed.

Lemma requests_to_pr_commits (s : session) (repo_owner repo_name : json) (l : list json) :
  requests_to (pulls_url repo_owner repo_name)
    (map (pr_commits_request s repo_owner repo_name) l) = [].
Proof.
  induction l as [|pr l IH]; [reflexivity|].
  simpl. unfold requests_to in *. rewrite filter_cons, IH.
  destruct (String.eqb_spec (url (pr_commits_request s repo_owner repo_name pr))
                            (pulls_url repo_owner repo_name)) as [Heq|]; [|reflexivity].
  exfalso. unfold pr_commits_request, get_request, pr_commits_url, pulls_url in Heq.
  simpl in Heq. apply app_inj_prefix in Heq. discriminate.
Qed.

Lemma scan_prs_total (s : session) (repo_owner repo_name : json) (prs : list json)
    (emails : gset key) (st st' : state) (out : outcome (gset key)) :
  scan_prs s repo_owner repo_name prs emails st = (out, st') -> out ≠ Timeout.
Proof.
  revert emails st. induction prs as [|pr rest IH]; intros emails st Hrun.
  { injection Hrun as <- <-. discriminate. }
  simpl in Hrun. rewrite bind_lift in Hrun.
  destruct (Py.getitem pr "number") as [number|e|] eqn:Hnumber.
  2: { injection Hrun as <- <-. discriminate. }
  2: { unfold Py.getitem in Hnumber. destruct pr; try discriminate.
       destruct (Py.assoc "number" o); discriminate. }
  unfold bind at 1 in Hrun. unfold session_get in Hrun.
  destruct (http_get _ (net st)) as [[msg|resp] w].
  { injection Hrun as <- <-. discriminate. }
  unfold bind at 1 in Hrun.
  destruct (status_code resp =? 200).
  2: { simpl in Hrun. eapply IH. exact Hrun. }
  rewrite bind_lift in Hrun. unfold response_json in Hrun.
  destruct (body resp) as [msg|v].
  { injection Hrun as <- <-. discriminate. }
  rewrite bind_lift in Hrun.
  destruct (Py.iter v) as [items|e|] eqn:Hiter.
  2: { injection Hrun as <- <-. discriminate. }
  2: { destruct v; discriminate. }
  unfold lift in Hrun.
  pose proof (scan_commits_total items emails) as Hscan.
  destruct (scan_commits items emails) as [emails1|e|]; [| |contradiction].
  - eapply IH. exact Hrun.
  - injection Hrun as <- <-. discriminate.
Qed.

Lemma pulls_loop_pages (s : session) (repo_owner repo_name username : json)
    (items : list json) :
  let rq := fun page =>
    get_request s (pulls_url repo_owner repo_name) (pulls_params page) in
  serves rq is_200 items ->
  ∀ (fuel : nat) (emails : gset key) (page : Z) (st st' : state) (out : outcome (gset key)),
    pulls_loop fuel s repo_owner repo_name username emails page st = (out, st') ->
    1 <= page ->
    (page_bound (rest_from items page) <= fuel)%nat ->
    out ≠ Timeout ∧
    ∃ (k : nat) (sent : list request),
      (1 <= k <= page_bound (rest_from items page))%nat ∧
      log st' = (log st ++ sent)%list ∧
      requests_to (pulls_url repo_owner repo_name) sent = map rq (pages_from page k).
Proof.
  intros rq Hserves.
  assert (∀ page, requests_to (pulls_url repo_owner repo_name) [rq page] = [rq page]) as Hone.
  { intros page. apply (requests_to_same _ rq [page]). reflexivity. }
  assert (∀ page (st : state) w bound, (1 <= bound)%nat ->
            ∃ (k : nat) (sent : list request),
              (1 <= k <= bound)%nat ∧
              log (after_request (rq page) w st) = (log st ++ sent)%list ∧
              requests_to (pulls_url repo_owner repo_name) sent = map rq (pages_from page k))
    as Hstop.
  { intros page st w bound Hb. exists 1%nat, [rq page]. split; [lia|]. split; [reflexivity|].
    rewrite Hone. simpl. by rewrite Z.add_0_r. }
  induction fuel as [|fuel IH]; intros emails page st st' out Hrun Hpage Hfuel.
  { unfold page_bound in Hfuel. lia. }
  simpl in Hrun. unfold bind at 1 in Hrun. unfold session_get in Hrun.
  fold (rq page) in Hrun.
  destruct (http_get (rq page) (net st)) as [[msg|resp] w] eqn:Hget.
  { injection Hrun as <- <-. split; [discriminate|]. apply Hstop. unfold page_bound. lia. }
  pose proof (Hserves page (net st) w resp Hpage Hget) as Hbody. unfold is_200 in Hbody.
  destruct (status_code resp =? 200).
  2: { injection Hrun as <- <-. split; [discriminate|]. apply Hstop. unfold page_bound. lia. }
  change (negb true) with false in Hrun. cbv iota in Hrun.
  unfold response_json in Hrun. rewrite (Hbody eq_refl), bind_lift in Hrun.
  destruct (page_of items page) as [|x l] eqn:Hitems.
  { injection Hrun as <- <-. split; [discriminate|]. apply Hstop. unfold page_bound. lia. }
  change (negb (Py.truthy (JArr (x :: l)))) with false in Hrun. cbv iota in Hrun.
  change (Py.iter (JArr (x :: l))) with (Ret (x :: l)) in Hrun.
  rewrite !bind_lift in Hrun.
  pose proof (page_bound_next items page x l Hpage Hitems) as Hnext.
  pose proof (user_prs_total username (x :: l)) as Hmine.
  destruct (user_prs username (x :: l)) as [mine|e|]; [| |contradiction].
  2: { injection Hrun as <- <-. split; [discriminate|]. apply Hstop. unfold page_bound. lia. }
  unfold bind at 1 in Hrun.
  destruct (scan_prs s repo_owner repo_name mine emails (after_request (rq page) w st))
    as [scanned st2] eqn:Hscan.
  destruct (scan_prs_log _ _ _ _ _ _ _ _ Hscan) as (j & _ & Hlog2 & _).
  pose proof (scan_prs_total _ _ _ _ _ _ _ _ Hscan) as Htotal.
  assert (requests_to (pulls_url repo_owner repo_name)
            (rq page :: map (pr_commits_request s repo_owner repo_name) (take j mine))
          = [rq page]) as Hsent.
  { change (rq page :: ?l) with ([rq page] ++ l)%list.
    rewrite requests_to_app, Hone, requests_to_pr_commits. reflexivity. }
  destruct scanned as [emails1|e|]; [| |contradiction].
  2: { injection Hrun as <- <-. split; [discriminate|].
       exists 1%nat, (rq page :: map (pr_commits_request s repo_owner repo_name) (take j mine)).
       split; [unfold page_bound; lia|]. split.
       - rewrite Hlog2. simpl. by rewrite <- app_assoc.
       - rewrite Hsent. simpl. by rewrite Z.add_0_r. }
  destruct (IH _ _ _ _ _ Hrun) as (Hout & k & sent & Hk & Hlog & Hto); [lia|lia|].
  split; [exact Hout|].
  exists (S k),
    ((rq page :: map (pr_commits_request s repo_owner repo_name) (take j mine)) ++ sent)%list.
  split; [lia|]. split.
  - rewrite Hlog, Hlog2. simpl. by rewrite <- !app_assoc.
  - rewrite requests_to_app, Hsent, Hto, pages_from_S. reflexivity.
Qed.

(** After a page that is not empty the loop asks for the next one. *)
Lemma user_repos_loop_page (n : nat) (s : session) (repos : list json) (page : Z)
    (st : state) (resp : response) (w : world) (batch : list json) :
  http_get (get_request s user_repos_url (user_repos_params page)) (net st) = (inr resp, w) ->
  raise_for_status resp = Ret tt ->
  body resp = inr (JArr batch) ->
  batch ≠ [] ->
  user_repos_loop (S n) s repos page st
  = user_repos_loop n s (repos ++ batch) (page + 1)
      (after_request (get_request s user_repos_url (user_repos_params page)) w st).
Proof.
  intros Hget Hok Hbody Hne. simpl.
  erewrite bind_ret by (apply session_get_answer; exact Hget).
  rewrite bind_lift, Hok. unfold response_json. rewrite Hbody, bind_lift.
  destruct batch as [|x l]; [contradiction|].
  change (negb (Py.truthy (JArr (x :: l)))) with false. cbv iota.
  change (Py.iter (JArr (x :: l))) with (Ret (x :: l)).
  rewrite bind_lift. reflexivity.
Qed.

Lemma org_repos_loop_page (n : nat) (s : session) (org_name : json) (acc : list json)
    (page : Z) (st : state) (resp : response) (w : world) (batch kept : list json) :
  http_get (get_request s (org_repos_url org_name) (org_repos_params page)) (net st)
  = (inr resp, w) ->
  raise_for_status resp = Ret tt ->
  body resp = inr (JArr batch) ->
  batch ≠ [] ->
  push_repos batch = Ret kept ->
  org_repos_loop (S n) s org_name acc page st
  = org_repos_loop n s org_name (acc ++ kept) (page + 1)
      (after_request (get_request s (org_repos_url org_name) (org_repos_params page)) w st).
Proof.
  intros Hget Hok Hbody Hne Hkept. simpl.
  erewrite bind_ret by (apply session_get_answer; exact Hget).
  rewrite bind_lift, Hok. unfold response_json. rewrite Hbody, bind_lift.
  destruct batch as [|x l]; [contradiction|].
  change (negb (Py.truthy (JArr (x :: l)))) with false. cbv iota.
  change (Py.iter (JArr (x :: l))) with (Ret (x :: l)).
  rewrite !bind_lift, Hkept. reflexivity.
Qed.

(** C8. Each of the four paginated listings asks for page 1 first and
    then for the next page each time, with [per_page] 100; it stops at the
    first empty page and at the first answer it treats as an error; after a
    page that is not empty (and whose entries it could process) it goes on
    with the next page, whose request is the next it sends to the listing;
    and against a source that serves [items] in pages, with fuel for
    [ceil(|items| / 100) + 1] iterations it ends (no [Timeout]) having sent
    the requests for the pages 1, ..., k of the listing, for some
    [k <= ceil(|items| / 100) + 1]. *)
Theorem pagination_bound (s : session) (items : list json) (fuel : nat)
    (Hfuel : (page_bound items <= fuel)%nat) :
  (let rq := fun page => get_request s user_repos_url (user_repos_params page) in
   (serves rq passes items ->
    ∀ (st st' : state) (out : outcome (list json)),
      get_user_repos fuel s st = (out, st') ->
      out ≠ Timeout ∧
      ∃ k : nat, (1 <= k <= page_bound items)%nat ∧
        log st' = (log st ++ map rq (pages k))%list) ∧
   (∀ (n : nat) (repos : list json) (page : Z) (st : state) (resp : response) (w : world),
      http_get (rq page) (net st) = (inr resp, w) ->
      (400 <= status_code resp < 600 ->
       ∃ msg, user_repos_loop (S n) s repos page st
              = (Raise (RequestException msg), after_request (rq page) w st)) ∧
      (∀ v, raise_for_status resp = Ret tt -> body resp = inr v -> Py.truthy v = false ->
            user_repos_loop (S n) s repos page st
            = (Ret repos, after_request (rq page) w st))) ∧
   (∀ (n : nat) (repos : list json) (page : Z) (st : state) (resp : response) (w : world)
      (batch : list json),
      http_get (rq page) (net st) = (inr resp, w) ->
      raise_for_status resp = Ret tt ->
      body resp = inr (JArr batch) ->
      batch ≠ [] ->
      user_repos_loop (S n) s repos page st
      = user_repos_loop n s (repos ++ batch) (page + 1) (after_request (rq page) w st) ∧
      ∃ l : list request,
        log (snd (user_repos_loop (S (S n)) s repos page st))
        = (log st ++ rq page :: rq (page + 1) :: l)%list)) ∧
  (∀ org_name : json,
   let rq := fun page => get_request s (org_repos_url org_name) (org_repos_params page) in
   (serves rq passes items ->
    ∀ (acc : list json) (st st' : state) (out : outcome (list json)),
      org_repos_loop fuel s org_name acc 1 st = (out, st') ->
      out ≠ Timeout ∧
      ∃ k : nat, (1 <= k <= page_bound items)%nat ∧
        log st' = (log st ++ map rq (pages k))%list) ∧
   (∀ (n : nat) (acc : list json) (page : Z) (st : state) (resp : response) (w : world),
      http_get (rq page) (net st) = (inr resp, w) ->
      (400 <= status_code resp < 600 ->
       ∃ msg, org_repos_loop (S n) s org_name acc page st
              = (Raise (RequestException msg), after_request (rq page) w st)) ∧
      (∀ v, raise_for_status resp = Ret tt -> body resp = inr v -> Py.truthy v = false ->
            org_repos_loop (S n) s org_name acc page st
            = (Ret acc, after_request (rq page) w st))) ∧
   (∀ (n : nat) (acc : list json) (page : Z) (st : state) (resp : response) (w : world)
      (batch kept : list json),
      http_get (rq page) (net st) = (inr resp, w) ->
      raise_for_status resp = Ret tt ->
      body resp = inr (JArr batch) ->
      batch ≠ [] ->
      push_repos batch = Ret kept ->
      org_repos_loop (S n) s org_name acc page st
      = org_repos_loop n s org_name (acc ++ kept) (page + 1) (after_request (rq page) w st) ∧
      ∃ l : list request,
        log (snd (org_repos_loop (S (S n)) s org_name acc page st))
        = (log st ++ rq page :: rq (page + 1) :: l)%list)) ∧
  (∀ repo_owner repo_name username : json,
   let rq := fun page =>
     get_request s (commits_url repo_owner repo_name) (commits_params username page) in
   (serves rq is_200 items ->
    ∀ (emails : gset key) (st st' : state) (out : outcome (gset key)),
      commits_loop fuel s repo_owner repo_name username emails 1 st = (out, st') ->
      out ≠ Timeout ∧
      ∃ k : nat, (1 <= k <= page_bound items)%nat ∧
        log st' = (log st ++ map rq (pages k))%list) ∧
   (∀ (n : nat) (emails : gset key) (page : Z) (st : state) (resp : response) (w : world),
      http_get (rq page) (net st) = (inr resp, w) ->
      status_code resp ≠ 200 ∨ (∃ v, body resp = inr v ∧ Py.truthy v = false) ->
      commits_loop (S n) s repo_owner repo_name username emails page st
      = (Ret emails, after_request (rq page) w st)) ∧
   (∀ (n : nat) (emails : gset key) (page : Z) (st : state) (resp : response) (w : world)
      (batch : list json) (emails1 : gset key),
      http_get (rq page) (net st) = (inr resp, w) ->
      status_code resp = 200 ->
      body resp = inr (JArr batch) ->
      batch ≠ [] ->
      scan_commits batch emails = Ret emails1 ->
      commits_loop (S n) s repo_owner repo_name username emails page st
      = commits_loop n s repo_owner repo_name username emails1 (page + 1)
          (after_request (rq page) w st) ∧
      ∃ l : list request,
        log (snd (commits_loop (S (S n)) s repo_owner repo_name username emails page st))
        = (log st ++ rq page :: rq (page + 1) :: l)%list)) ∧
  (∀ repo_owner repo_name username : json,
   let rq := fun page =>
     get_request s (pulls_url repo_owner repo_name) (pulls_params page) in
   (serves rq is_200 items ->
    ∀ (emails : gset key) (st st' : state) (out : outcome (gset key)),
      pulls_loop fuel s repo_owner repo_name username emails 1 st = (out, st') ->
      out ≠ Timeout ∧
      ∃ (k : nat) (sent : list request),
        (1 <= k <= page_bound items)%nat ∧
        log st' = (log st ++ sent)%list ∧
        requests_to (pulls_url repo_owner repo_name) sent = map rq (pages k)) ∧
   (∀ (n : nat) (emails : gset key) (page : Z) (st : state) (resp : response) (w : world),
      http_get (rq page) (net st) = (inr resp, w) ->
      status_code resp ≠ 200 ∨ (∃ v, body resp = inr v ∧ Py.truthy v = false) ->
      pulls_loop (S n) s repo_owner repo_name username emails page st
      = (Ret emails, after_request (rq page) w st)) ∧
   (∀ (n : nat) (emails : gset key) (page : Z) (st : state) (resp : response) (w : world)
      (batch mine : list json) (emails1 : gset key) (st1 : state),
      http_get (rq page) (net st) = (inr resp, w) ->
      status_code resp = 200 ->
      body resp = inr (JArr batch) ->
      batch ≠ [] ->
      user_prs username batch = Ret mine ->
      scan_prs s repo_owner repo_name mine emails (after_request (rq page) w st)
      = (Ret emails1, st1) ->
      pulls_loop (S n) s repo_owner repo_name username emails page st
      = pulls_loop n s repo_owner repo_name username emails1 (page + 1) st1 ∧
      ∃ l : list request,
        log (snd (pulls_loop (S (S n)) s repo_owner repo_name username emails page st))
        = (log st1 ++ rq (page + 1) :: l)%list)).
Proof.
  split; [|split; [|split]].
  - intros rq. split.
    + intros Hserves st st' out Hrun.
      apply (user_repos_loop_pages s items Hserves fuel [] 1 st st' out Hrun); [lia|].
      rewrite page_bound_first. exact Hfuel.
    + split.
      { intros n repos page st resp w Hget. split.
        * intros Hstatus. destruct (raise_for_status_error resp Hstatus) as [msg Hmsg].
          exists msg. simpl. erewrite bind_ret by (apply session_get_answer; exact Hget).
          rewrite bind_lift, Hmsg. reflexivity.
        * intros v Hok Hbody Hempty. simpl.
          erewrite bind_ret by (apply session_get_answer; exact Hget).
          rewrite bind_lift, Hok. unfold response_json. rewrite Hbody, bind_lift, Hempty.
          reflexivity. }
      intros n repos page st resp w batch Hget Hok Hbody Hne.
      pose proof (λ m, user_repos_loop_page m s repos page st resp w batch Hget Hok Hbody Hne)
        as Hstep.
      split; [apply Hstep|]. rewrite Hstep.
      match goal with
      | |- context [user_repos_loop (S n) s ?r ?p ?st1] =>
          destruct (user_repos_loop_first n s r p st1) as [l Hl]
      end.
      exists l. rewrite Hl. simpl. by rewrite <- app_assoc.
  - intros org_name rq. split.
    + intros Hserves acc st st' out Hrun.
      apply (org_repos_loop_pages s org_name items Hserves fuel acc 1 st st' out Hrun); [lia|].
      rewrite page_bound_first. exact Hfuel.
    + split.
      { intros n acc page st resp w Hget. split.
        * intros Hstatus. destruct (raise_for_status_error resp Hstatus) as [msg Hmsg].
          exists msg. simpl. erewrite bind_ret by (apply session_get_answer; exact Hget).
          rewrite bind_lift, Hmsg. reflexivity.
        * intros v Hok Hbody Hempty. simpl.
          erewrite bind_ret by (apply session_get_answer; exact Hget).
          rewrite bind_lift, Hok. unfold response_json. rewrite Hbody, bind_lift, Hempty.
          reflexivity. }
      intros n acc page st resp w batch kept Hget Hok Hbody Hne Hkept.
      pose proof (λ m, org_repos_loop_page m s org_name acc page st resp w batch kept
                         Hget Hok Hbody Hne Hkept) as Hstep.
      split; [apply Hstep|]. rewrite Hstep.
      match goal with
      | |- context [org_repos_loop (S n) s org_name ?r ?p ?st1] =>
          destruct (org_repos_loop_first n s org_name r p st1) as [l Hl]
      end.
      exists l. rewrite Hl. simpl. by rewrite <- app_assoc.
  - intros repo_owner repo_name username rq. split.
    + intros Hserves emails st st' out Hrun.
      apply (commits_loop_pages s repo_owner repo_name username items Hserves
               fuel emails 1 st st' out Hrun); [lia|].
      rewrite page_bound_first. exact Hfuel.
    + split.
      { intros n emails page st resp w Hget Hstop. simpl.
        erewrite bind_ret by (apply session_get_answer; exact Hget).
        destruct (Z.eqb_spec (status_code resp) 200) as [H200|]; [|reflexivity].
        destruct Hstop as [Hne|(v & Hbody & Hempty)]; [contradiction|].
        simpl. unfold response_json. rewrite Hbody, bind_lift, Hempty. reflexivity. }
      intros n emails page st resp w batch emails1 Hget Hok Hbody Hne Hscan.
      assert (∀ m, commits_loop (S m) s repo_owner repo_name username emails page st
                   = commits_loop m s repo_owner repo_name username emails1 (page + 1)
                       (after_request (rq page) w st)) as Hstep.
      { intros m.
        rewrite (commits_loop_page _ _ _ _ _ _ _ _ _ _ _ Hget Hok Hbody Hne), bind_lift, Hscan.
        reflexivity. }
      split; [apply Hstep|]. rewrite Hstep.
      match goal with
      | |- context [commits_loop (S n) s repo_owner repo_name username emails1 ?p ?st1] =>
          destruct (commits_loop_first n s repo_owner repo_name username emails1 p st1)
            as [l Hl]
      end.
      exists l. rewrite Hl. simpl. by rewrite <- app_assoc.
  - intros repo_owner repo_name username rq. split.
    + intros Hserves emails st st' out Hrun.
      apply (pulls_loop_pages s repo_owner repo_name username items Hserves
               fuel emails 1 st st' out Hrun); [lia|].
      rewrite page_bound_first. exact Hfuel.
    + split.
      { intros n emails page st resp w Hget Hstop. simpl.
        erewrite bind_ret by (apply session_get_answer; exact Hget).
        destruct (Z.eqb_spec (status_code resp) 200) as [H200|]; [|reflexivity].
        destruct Hstop as [Hne|(v & Hbody & Hempty)]; [contradiction|].
        simpl. unfold response_json. rewrite Hbody, bind_lift, Hempty. reflexivity. }
      intros n emails page st resp w batch mine emails1 st1 Hget Hok Hbody Hne Hmine Hscan.
      assert (∀ m, pulls_loop (S m) s repo_owner repo_name username emails page st
                   = pulls_loop m s repo_owner repo_name username emails1 (page + 1) st1)
        as Hstep.
      { intros m.
        rewrite (pulls_loop_page _ _ _ _ _ _ _ _ _ _ _ Hget Hok Hbody Hne), bind_lift, Hmine.
        erewrite bind_ret by exact Hscan. reflexivity. }
      split; [apply Hstep|]. rewrite Hstep.
      apply pulls_loop_first.
Qed.

End Pagination.

(** * The properties on the sample forges *)

Lemma scan_commit_extraction_witness :
  (∃ result : gset key,
     scan_commit Sample.alice_commit ∅ = Ret result ∧ result = {[KStr "alice@x.com"]}) ∧
  ∃ (result : gset key) (st' : @state Sample.forge),
    @commits_loop Sample.forge 2 Sample.alice_session (JStr "alice") (JStr "proj")
      (JStr "alice") ∅ 1 Sample.start = (Ret result, st') ∧
    KStr "alice@x.com" ∈ result.
Proof.
  destruct (@scan_commit_extraction Sample.forge
              [("sha", JStr "0a1b2c");
               ("commit", JObj [("author", Sample.person "Alice" "alice@x.com");
                                ("committer", Sample.person "Alice" "alice@x.com")])]
              [("author", Sample.person "Alice" "alice@x.com");
               ("committer", Sample.person "Alice" "alice@x.com")]
              ∅ eq_refl)
    as (Hcommit & Hloop & _).
  - simpl. eexists. reflexivity.
  - simpl. eexists. reflexivity.
  - split.
    + destruct Hcommit as (result & Hrun & _ & _ & _ & _ & _ & Hsame & _).
      exists result. split; [exact Hrun|].
      destruct (Hsame (KStr "alice@x.com") eq_refl eq_refl) as [-> _].
      apply leibniz_equiv. apply (left_id ∅ (∪)).
    + set (run := @commits_loop Sample.forge 2 Sample.alice_session (JStr "alice")
                    (JStr "proj") (JStr "alice") ∅ 1 Sample.start).
      assert (fst run = Ret {[KStr "alice@x.com"]}) as Hfst
        by (refine (bool_decide_unpack _ _); vm_compute; exact I).
      assert (run = (Ret {[KStr "alice@x.com"]}, snd run)) as Hrun
        by (rewrite (surjective_pairing run) at 1; by rewrite Hfst).
      destruct (Hloop 1%nat Sample.alice_session (JStr "alice") (JStr "proj") (JStr "alice")
                  ∅ 1 Sample.start
                  (Sample.listing
                     (get_request Sample.alice_session (Sample.api "/repos/alice/proj/commits")
                        (commits_params (JStr "alice") 1))
                     [Sample.alice_commit])
                  tt [] [] _ _ eq_refl eq_refl eq_refl Hrun)
        as (emails1 & _ & Hfound & _ & Hsub).
      eexists _, _. split; [exact Hrun|].
      apply Hsub, Hfound. apply elem_of_union_r, elem_of_union_l.
      change (KStr "alice@x.com" ∈ ({[KStr "alice@x.com"]} : gset key)).
      by apply elem_of_singleton.
Defined.




Lemma commit_listing_refused_witness :
  ∃ l : list request,
    log (snd (@get_contribution_emails Sample.forge 3 Sample.alice_session
                (JStr "acme") (JStr "tool") (JStr "alice") Sample.start))
    = (get_request Sample.alice_session (Sample.api "/repos/acme/tool/commits")
         (commits_params (JStr "alice") 1)
       :: get_request Sample.alice_session (Sample.api "/repos/acme/tool/pulls")
            (pulls_params 1)
       :: l).
Proof.
  destruct (@commit_listing_refused Sample.forge 2 Sample.alice_session
              (JStr "acme") (JStr "tool") (JStr "alice") Sample.start
              (Sample.reply
                 (get_request Sample.alice_session (Sample.api "/repos/acme/tool/commits")
                    (commits_params (JStr "alice") 1))
                 403 "Forbidden" (JObj [("message", JStr "forbidden")]))
              tt eq_refl) as (_ & _ & l & Hl).
  - simpl. lia.
  - exists l. exact Hl.
Defined.

Lemma pr_commits_refused_witness :
  @scan_prs Sample.forge Sample.alice_session (JStr "acme") (JStr "tool")
    [Sample.pull 3 "alice"; Sample.pull 4 "alice"] ∅ Sample.start
  = @scan_prs Sample.forge Sample.alice_session (JStr "acme") (JStr "tool")
      [Sample.pull 4 "alice"] ∅
      (@after_request Sample.forge
         (get_request Sample.alice_session (Sample.api "/repos/acme/tool/pulls/3/commits") [])
         tt Sample.start).
Proof.
  destruct (@pr_commits_refused Sample.forge Sample.alice_session (JStr "acme") (JStr "tool")
              [] [Sample.pull 4 "alice"] (Sample.pull 3 "alice") (JNum 3) ∅ ∅
              Sample.start Sample.start
              (Sample.reply
                 (get_request Sample.alice_session
                    (Sample.api "/repos/acme/tool/pulls/3/commits") [])
                 404 "Not Found" (JObj [("message", JStr "Not Found")]))
              tt eq_refl eq_refl eq_refl) as [Hskip _].
  - simpl. lia.
  - exact Hskip.
Defined.

Lemma forge_serves_owned :
  @serves Sample.forge
    (fun page => get_request Sample.alice_session user_repos_url (user_repos_params page))
    (@passes Sample.forge) [Sample.proj].
Proof.
  intros page w w' resp Hpage Hget Hreads.
  injection Hget as <- _. reflexivity.
Qed.

Lemma pagination_bound_witness :
  (page_bound [Sample.proj] <= 2)%nat ∧
  ∃ k : nat,
    (1 <= k <= 2)%nat ∧
    log (snd (@get_user_repos Sample.forge 2 Sample.alice_session Sample.start))
    = map (fun page => get_request Sample.alice_session user_repos_url (user_repos_params page))
          (pages k).
Proof.
  assert (page_bound [Sample.proj] <= 2)%nat as Hfuel by (vm_compute; lia).
  split; [exact Hfuel|].
  destruct (@pagination_bound Sample.forge Sample.alice_session [Sample.proj] 2 Hfuel)
    as [[Hbound _] _].
  destruct (Hbound forge_serves_owned Sample.start
              (snd (@get_user_repos Sample.forge 2 Sample.alice_session Sample.start))
              (fst (@get_user_repos Sample.forge 2 Sample.alice_session Sample.start))
              (surjective_pairing _)) as (_ & k & Hk & Hlog).
  exists k. split; [exact Hk|]. exact Hlog.
Defined.

Lemma token_gate_witness :
  @main Sample.forge 5 None Sample.start
  = (Raise (SystemExit 1), printed token_prompt Sample.start) ∧
  ∃ l : list request,
    log (snd (@main Sample.forge 5 (Some "t0ken") Sample.start))
    = get_request Sample.alice_session (Sample.api "/user") [] :: l.
Proof.
  destruct (@token_gate Sample.forge) as [Habsent Hpresent].
  split.
  - destruct (Habsent 5%nat None Sample.start (or_introl eq_refl)) as [Hmain _].
    exact Hmain.
  - destruct (Hpresent 5%nat "t0ken" Sample.start) as (_ & l & Hl); [discriminate|].
    exists l. exact Hl.
Defined.

(** C7, the claim as stated: a run with a token argument that is the empty
    string takes the branch: it prints the prompt and exits with status 1
    without a request. *)
Lemma empty_token_counterexample :
  @main Sample.forge 5 (Some "") Sample.start
  = (Raise (SystemExit 1), printed token_prompt Sample.start) ∧
  stdout (snd (@main Sample.forge 5 (Some "") Sample.start)) = [token_prompt] ∧
  log (snd (@main Sample.forge 5 (Some "") Sample.start)) = [].
Proof. repeat split. Qed.

(** C2, the claim as stated: when the first page of acme's repositories is
    answered with status 500, [get_org_repos] raises instead of returning,
    the next organization (beta) is never asked for its repositories, and
    [main] exits with status 1. *)
Lemma org_listing_counterexample :
  fst (@get_org_repos Sample.failing_forge 5 Sample.alice_session Sample.failing_start)
  = Raise (RequestException
      "500 Server Error: Internal Server Error for url: https://api.github.com/orgs/acme/repos") ∧
  requests_to (Sample.api "/orgs/beta/repos")
    (log (snd (@get_org_repos Sample.failing_forge 5 Sample.alice_session
                 Sample.failing_start))) = [] ∧
  fst (@main Sample.failing_forge 5 (Some "t0ken") Sample.failing_start)
  = Raise (SystemExit 1).
Proof. repeat split; vm_compute; reflexivity. Qed.

Lemma org_listing_failure_aborts_witness :
  ∃ st : @state Sample.failing_forge,
    @main Sample.failing_forge 5 (Some "t0ken") Sample.failing_start
    = (Raise (SystemExit 1), st) ∧
    last (stdout st)
    = Some "Error: 500 Server Error: Internal Server Error for url: https://api.github.com/orgs/acme/repos".
Proof.
  destruct (@org_listing_failure_aborts Sample.failing_forge) as (_ & _ & _ & Hmain).
  pose (session := @create_github_session Sample.failing_forge "t0ken").
  pose (user := JObj [("login", JStr "alice"); ("id", JNum 1)]).
  pose (st1 := snd (@get_authenticated_user Sample.failing_forge session Sample.failing_start)).
  pose (st1' := @printed Sample.failing_forge
                  (nl +:+ "Fetching your repositories...")
                  (@printed Sample.failing_forge "Authenticated as: alice" st1)).
  pose (st2 := snd (@get_user_repos Sample.failing_forge 5 session st1')).
  pose (st2' := @printed Sample.failing_forge
                  (nl +:+ "Fetching organization repositories...")
                  (@printed Sample.failing_forge "Found 1 repositories owned by you" st2)).
  pose (st3 := snd (@get_org_repos Sample.failing_forge 5 session st2')).
  eexists. split.
  - apply (Hmain 5%nat "t"%char "0ken" Sample.failing_start st1 st2 st3 user (JStr "alice")
             [Sample.proj]
             "500 Server Error: Internal Server Error for url: https://api.github.com/orgs/acme/repos").
    + vm_compute. reflexivity.
    + reflexivity.
    + vm_compute. reflexivity.
    + vm_compute. reflexivity.
  - vm_compute. reflexivity.
Defined.

Lemma aggregation_invariant_witness :
  ∃ (all_emails : gset key) (repo_emails : gmap string (gset key)),
    fst (@collect Sample.forge 3 Sample.alice_session (JStr "alice") 2
           [Sample.proj; Sample.tool] 1 (∅, ∅) Sample.start)
    = Ret (all_emails, repo_emails) ∧
    ∀ x : key, x ∈ all_emails <-> ∃ k e, repo_emails !! k = Some e ∧ x ∈ e.
Proof.
  set (run := @collect Sample.forge 3 Sample.alice_session (JStr "alice") 2
                [Sample.proj; Sample.tool] 1 (∅, ∅) Sample.start).
  set (proj_emails := {[KStr "alice@x.com"; KStr "alice@work.com"]} : gset key).
  set (tool_emails := {[KStr "alice@acme.com"; KStr "bot@acme.com"]} : gset key).
  set (all_emails := proj_emails ∪ tool_emails).
  set (repo_emails := <["acme/tool" := tool_emails]> {["alice/proj" := proj_emails]}
                      : gmap string (gset key)).
  assert (run = (Ret (all_emails, repo_emails), snd run)) as Hrun.
  { rewrite (surjective_pairing run) at 1. f_equal; vm_compute; reflexivity. }
  destruct (@aggregation_invariant Sample.forge _ _ _ _ _ _ _ _ _ _ Hrun)
    as (scans & Hscans & _ & _ & _ & Hiff).
  exists all_emails, repo_emails. split; [rewrite Hrun; reflexivity|].
  apply Hiff.
  assert (scans = [("alice/proj", proj_emails); ("acme/tool", tool_emails)]) as ->.
  { assert (@scan_all Sample.forge 3 Sample.alice_session (JStr "alice") 2
              [Sample.proj; Sample.tool] 1 Sample.start
            = (Ret [("alice/proj", proj_emails); ("acme/tool", tool_emails)], snd run)) as Hs
      by (vm_compute; reflexivity).
    rewrite Hs in Hscans. injection Hscans as <-. reflexivity. }
  refine (bool_decide_unpack _ _). vm_compute. exact I.
Defined.

Lemma duplicate_key_replaces_witness :
  ∃ (all_emails : gset key) (repo_emails : gmap string (gset key)),
    fst (@collect Sample.moving_forge 3 Sample.alice_session (JStr "alice") 2
           [Sample.proj; Sample.proj] 1 (∅, ∅) (Sample.moving_start 5))
    = Ret (all_emails, repo_emails) ∧
    repo_emails !! "alice/proj" = Some {[KStr "alice@work.com"]} ∧
    {[KStr "alice@x.com"]} ∪ {[KStr "alice@work.com"]} ⊆ all_emails.
Proof.
  set (run := @collect Sample.moving_forge 3 Sample.alice_session (JStr "alice") 2
                [Sample.proj; Sample.proj] 1 (∅, ∅) (Sample.moving_start 5)).
  set (first := {[KStr "alice@x.com"]} : gset key).
  set (second := {[KStr "alice@work.com"]} : gset key).
  set (all_emails := first ∪ second).
  set (repo_emails := {["alice/proj" := second]} : gmap string (gset key)).
  assert (run = (Ret (all_emails, repo_emails), snd run)) as Hrun.
  { rewrite (surjective_pairing run) at 1. f_equal; vm_compute; reflexivity. }
  assert (@scan_all Sample.moving_forge 3 Sample.alice_session (JStr "alice") 2
            [Sample.proj; Sample.proj] 1 (Sample.moving_start 5)
          = (Ret [("alice/proj", first); ("alice/proj", second)], snd run)) as Hscans
    by (vm_compute; reflexivity).
  exists all_emails, repo_emails. split; [rewrite Hrun; reflexivity|].
  apply (@duplicate_key_replaces Sample.moving_forge _ _ _ _ _ _ _ _ _ _
           _ [] [] [] "alice/proj" first second Hrun Hscans eq_refl).
  - unfold first. set_solver.
  - unfold second. set_solver.
  - intros e Hin. by apply elem_of_nil in Hin.
Defined.

(** C1, the claim as stated: in a run where alice/proj is listed twice and
    its second scan finds other emails than its first, the global set holds
    an email that no entry of the per-repository mapping holds. *)
Lemma aggregation_counterexample :
  ∃ (all_emails : gset key) (repo_emails : gmap string (gset key)),
    fst (@main Sample.moving_forge 5 (Some "t0ken") (Sample.moving_start 0))
    = Ret (all_emails, repo_emails) ∧
    KStr "alice@x.com" ∈ all_emails ∧
    ¬ ∃ (k : string) (e : gset key), repo_emails !! k = Some e ∧ KStr "alice@x.com" ∈ e.
Proof.
  exists ({[KStr "alice@x.com"]} ∪ {[KStr "alice@work.com"]}),
         {["alice/proj" := {[KStr "alice@work.com"]}]}.
  split; [vm_compute; reflexivity|].
  split; [set_solver|].
  intros (k & e & He & Hx).
  apply lookup_singleton_Some in He as [_ <-].
  apply elem_of_singleton in Hx. discriminate.
Qed.

(** * Further properties *)

(** ** What a run sends, prints and raises *)

Lemma raises_only_obind {A B} (E : exn -> Prop) (m : outcome A) (k : A -> outcome B) :
  raises_only E m -> (∀ a, raises_only E (k a)) -> raises_only E (obind m k).
Proof.
  intros Hm Hk. destruct m as [a|e|]; simpl; [apply Hk| |discriminate].
  intros e' [= <-]. by apply Hm.
Qed.

Lemma raises_only_ret {A} (E : exn -> Prop) (a : A) : raises_only E (Ret a).
Proof. intros e. discriminate. Qed.

Lemma not_exit_get (d : json) (k : string) (v : json) : raises_only not_exit (Py.get d k v).
Proof. intros e He code ->. destruct d; discriminate. Qed.

Lemma not_exit_getitem (c : json) (k : string) : raises_only not_exit (Py.getitem c k).
Proof.
  intros e He code ->. unfold Py.getitem in He.
  destruct c; try discriminate. destruct (Py.assoc k o); discriminate.
Qed.

Lemma not_exit_iter (v : json) : raises_only not_exit (Py.iter v).
Proof. intros e He code ->. destruct v; discriminate. Qed.

Lemma not_exit_add_email_of (person : json) (emails : gset key) :
  raises_only not_exit (add_email_of person emails).
Proof.
  unfold add_email_of. destruct (Py.truthy person); [|apply raises_only_ret].
  apply raises_only_obind.
  - intros e He code ->. destruct person; discriminate.
  - intros [|]; [|apply raises_only_ret]. apply raises_only_obind.
    + apply not_exit_getitem.
    + intros v e He code ->. unfold set_add in He. destruct (to_key v); discriminate.
Qed.

Ltac not_exit_pure :=
  repeat first
    [ apply raises_only_obind; [|intros ?]
    | apply raises_only_ret
    | apply not_exit_get
    | apply not_exit_getitem
    | apply not_exit_iter
    | apply not_exit_add_email_of ].

Lemma not_exit_scan_commits (commits : list json) (emails : gset key) :
  raises_only not_exit (scan_commits commits emails).
Proof.
  revert emails. induction commits as [|commit rest IH]; intros emails; simpl.
  - apply raises_only_ret.
  - apply raises_only_obind; [unfold scan_commit; not_exit_pure|]. intros e. apply IH.
Qed.

Lemma not_exit_push_repos (batch : list json) : raises_only not_exit (push_repos batch).
Proof.
  induction batch as [|repo rest IH]; simpl; [apply raises_only_ret|].
  apply raises_only_obind; [unfold has_push; not_exit_pure|].
  intros keep. apply raises_only_obind; [apply IH|]. intros kept. apply raises_only_ret.
Qed.

Lemma not_exit_user_prs (username : json) (prs : list json) :
  raises_only not_exit (user_prs username prs).
Proof.
  induction prs as [|pr rest IH]; simpl; [apply raises_only_ret|].
  apply raises_only_obind; [unfold opened_by; not_exit_pure|].
  intros mine. apply raises_only_obind; [apply IH|]. intros kept. apply raises_only_ret.
Qed.

Lemma not_exit_raise_for_status (resp : response) :
  raises_only not_exit (raise_for_status resp).
Proof.
  intros e He code ->. unfold raise_for_status in He.
  destruct (_ && _); [discriminate|]. destruct (_ && _); discriminate.
Qed.

Lemma not_exit_response_json (resp : response) : raises_only not_exit (response_json resp).
Proof. intros e He code ->. unfold response_json in He. destruct (body resp); discriminate. Qed.

Lemma prefix_app_l (a b c : string) :
  String.prefix a b = true -> String.prefix a (b +:+ c) = true.
Proof.
  revert b. induction a as [|x a IH]; intros b; simpl.
  - intros _. by destruct (b +:+ c).
  - destruct b as [|y b]; simpl; [discriminate|].
    destruct (ascii_dec x y); [apply IH|discriminate].
Qed.

Section Frames.
Context `{Env}.

Variable s : session.

Lemma silent_refl (st : state) : silent s st st.
Proof. split; [reflexivity|]. exists []. split; [by rewrite app_nil_r|constructor]. Qed.

Lemma silent_trans (st1 st2 st3 : state) :
  silent s st1 st2 -> silent s st2 st3 -> silent s st1 st3.
Proof.
  intros [Ho1 (l1 & Hl1 & HP1)] [Ho2 (l2 & Hl2 & HP2)]. split; [congruence|].
  exists (l1 ++ l2)%list. split; [by rewrite Hl2, Hl1, app_assoc|].
  apply Forall_app. done.
Qed.

Lemma talking_refl (st : state) : talking s st st.
Proof.
  split; [exists []; by rewrite app_nil_r|].
  exists []. split; [by rewrite app_nil_r|constructor].
Qed.

Lemma talking_trans (st1 st2 st3 : state) :
  talking s st1 st2 -> talking s st2 st3 -> talking s st1 st3.
Proof.
  intros [(o1 & Ho1) (l1 & Hl1 & HP1)] [(o2 & Ho2) (l2 & Hl2 & HP2)]. split.
  - exists (o1 ++ o2)%list. by rewrite Ho2, Ho1, app_assoc.
  - exists (l1 ++ l2)%list. split; [by rewrite Hl2, Hl1, app_assoc|].
    apply Forall_app. done.
Qed.

Lemma silent_talking (st st' : state) : silent s st st' -> talking s st st'.
Proof. intros [Ho Hl]. split; [|exact Hl]. exists []. by rewrite app_nil_r. Qed.

Section Rules.
Variable R : state -> state -> Prop.
Hypothesis R_refl : ∀ st, R st st.
Hypothesis R_trans : ∀ st1 st2 st3, R st1 st2 -> R st2 st3 -> R st1 st3.

Lemma keeps_ret {A} (E : exn -> Prop) (a : A) : keeps R E (ret a).
Proof. intros st. split; [apply R_refl|apply raises_only_ret]. Qed.

Lemma keeps_timeout {A} (E : exn -> Prop) : keeps R E (@timeout _ A).
Proof. intros st. split; [apply R_refl|]. intros e. discriminate. Qed.

Lemma keeps_lift {A} (E : exn -> Prop) (o : outcome A) :
  raises_only E o -> keeps R E (lift o).
Proof. intros Ho st. split; [apply R_refl|exact Ho]. Qed.

Lemma keeps_bind {A B} (E : exn -> Prop) (m : M A) (k : A -> M B) :
  keeps R E m -> (∀ a, keeps R E (k a)) -> keeps R E (bind m k).
Proof.
  intros Hm Hk st. unfold bind. destruct (Hm st) as [HR HE].
  destruct (m st) as [[a|e|] st1]; simpl in *.
  - destruct (Hk a st1) as [HR' HE']. split; [eapply R_trans; eauto|exact HE'].
  - split; [exact HR|]. intros e' [= <-]. by apply HE.
  - split; [exact HR|]. intros e. discriminate.
Qed.

End Rules.

Lemma keeps_weaken {A} (R R' : state -> state -> Prop) (E : exn -> Prop) (m : M A) :
  (∀ st st', R st st' -> R' st st') -> keeps R E m -> keeps R' E m.
Proof. intros HR Hm st. destruct (Hm st). split; auto. Qed.

Lemma keeps_session_get (u : string) (ps : list (string * json)) :
  String.prefix (GITHUB_API_URL +:+ "/") u = true ->
  keeps (silent s) not_exit (session_get s u ps).
Proof.
  intros Hu st. unfold session_get.
  assert (∀ w, silent s st (after_request (get_request s u ps) w st)) as Hsent.
  { intros w. split; [reflexivity|]. exists [get_request s u ps].
    split; [reflexivity|]. constructor; [|constructor]. split; [reflexivity|exact Hu]. }
  destruct (http_get _ _) as [[msg|resp] w]; simpl; split; try apply Hsent.
  - intros e [= <-] code. discriminate.
  - intros e. discriminate.
Qed.

Lemma keeps_print (line : string) : keeps (talking s) not_exit (print line).
Proof.
  intros st. split; [|intros e; discriminate]. split.
  - exists [line]. reflexivity.
  - exists []. split; [simpl; by rewrite app_nil_r|constructor].
Qed.

End Frames.

(** ** The frame of each function *)

Lemma api_user_repos_url : String.prefix (GITHUB_API_URL +:+ "/") user_repos_url = true.
Proof. reflexivity. Qed.

Section FunctionFrames.
Context `{Env}.

Variable s : session.

Lemma api_org_repos_url (org_name : json) :
  String.prefix (GITHUB_API_URL +:+ "/") (org_repos_url org_name) = true.
Proof. reflexivity. Qed.

Lemma api_repo_url (repo_owner repo_name : json) :
  String.prefix (GITHUB_API_URL +:+ "/") (repo_url repo_owner repo_name) = true.
Proof. reflexivity. Qed.

Ltac api_url :=
  first
    [ apply api_user_repos_url
    | apply api_org_repos_url
    | reflexivity
    | apply prefix_app_l; apply api_repo_url ].

Ltac pure_side :=
  first
    [ apply not_exit_getitem | apply not_exit_raise_for_status
    | apply not_exit_response_json | apply not_exit_iter
    | apply not_exit_push_repos | apply not_exit_user_prs
    | apply not_exit_scan_commits ].

Ltac silent_step :=
  first
    [ apply keeps_ret; apply silent_refl
    | apply keeps_timeout; apply silent_refl
    | apply keeps_lift; [apply silent_refl | pure_side]
    | apply keeps_session_get; api_url
    | apply keeps_bind; [apply silent_trans | | intros ?]
    | match goal with |- keeps _ _ (if ?b then _ else _) => destruct b end ].

Lemma silent_user_repos_loop (fuel : nat) (repos : list json) (page : Z) :
  keeps (silent s) not_exit (user_repos_loop fuel s repos page).
Proof.
  revert repos page. induction fuel as [|fuel IH]; intros repos page; simpl;
    repeat (apply IH || silent_step).
Qed.

Lemma silent_org_repos_loop (fuel : nat) (org_name : json) (acc : list json) (page : Z) :
  keeps (silent s) not_exit (org_repos_loop fuel s org_name acc page).
Proof.
  revert acc page. induction fuel as [|fuel IH]; intros acc page; simpl;
    repeat (apply IH || silent_step).
Qed.

Lemma silent_orgs_loop (fuel : nat) (orgs acc : list json) :
  keeps (silent s) not_exit (orgs_loop fuel s orgs acc).
Proof.
  revert acc. induction orgs as [|org rest IH]; intros acc; simpl;
    repeat (apply IH || apply silent_org_repos_loop || silent_step).
Qed.

Lemma silent_get_org_repos (fuel : nat) :
  keeps (silent s) not_exit (get_org_repos fuel s).
Proof. unfold get_org_repos. repeat (apply silent_orgs_loop || silent_step). Qed.

Lemma silent_commits_loop (fuel : nat) (repo_owner repo_name username : json)
    (emails : gset key) (page : Z) :
  keeps (silent s) not_exit (commits_loop fuel s repo_owner repo_name username emails page).
Proof.
  revert emails page. induction fuel as [|fuel IH]; intros emails page; simpl;
    repeat (apply IH || silent_step).
Qed.

Lemma silent_scan_prs (repo_owner repo_name : json) (prs : list json) (emails : gset key) :
  keeps (silent s) not_exit (scan_prs s repo_owner repo_name prs emails).
Proof.
  revert emails. induction prs as [|pr rest IH]; intros emails; simpl;
    repeat (apply IH || silent_step).
Qed.

Lemma silent_pulls_loop (fuel : nat) (repo_owner repo_name username : json)
    (emails : gset key) (page : Z) :
  keeps (silent s) not_exit (pulls_loop fuel s repo_owner repo_name username emails page).
Proof.
  revert emails page. induction fuel as [|fuel IH]; intros emails page; simpl;
    repeat (apply IH || apply silent_scan_prs || silent_step).
Qed.

Lemma silent_get_contribution_emails (fuel : nat) (repo_owner repo_name username : json) :
  keeps (silent s) not_exit (get_contribution_emails fuel s repo_owner repo_name username).
Proof.
  unfold get_contribution_emails.
  apply keeps_bind; [apply silent_trans|apply silent_commits_loop|].
  intros emails. apply silent_pulls_loop.
Qed.

Lemma silent_get_authenticated_user :
  keeps (silent s) not_exit (get_authenticated_user s).
Proof. unfold get_authenticated_user. repeat silent_step. Qed.

End FunctionFrames.

(** ** The functions of the script as a whole *)

(** X1. The authenticated-user lookup, the two enumerations and the scan
    of a repository print nothing, never raise SystemExit, and send nothing
    but requests that carry the headers of the session to a path under the
    base URL, "https://api.github.com/...". *)
Theorem enumerator_and_scanner_frame `{Env} (s : session) (fuel : nat) :
  keeps (silent s) not_exit (get_authenticated_user s) ∧
  keeps (silent s) not_exit (get_user_repos fuel s) ∧
  keeps (silent s) not_exit (get_org_repos fuel s) ∧
  ∀ repo_owner repo_name username : json,
    keeps (silent s) not_exit (get_contribution_emails fuel s repo_owner repo_name username).
Proof.
  split; [apply silent_get_authenticated_user|].
  split; [apply silent_user_repos_loop|].
  split; [apply silent_get_org_repos|].
  intros. apply silent_get_contribution_emails.
Qed.

(** X4. When the request for the authenticated user fails at the transport
    level, or is answered with a 4xx or 5xx status, [main] prints the one
    line "Error: ..." and exits with status 1 having sent that request
    only. *)
Theorem auth_failure_fatal `{Env} (fuel : nat) (c : ascii) (t : string) (st : state)
    (r : string + response) (w : world)
    (Hget : http_get (get_request (create_github_session (String c t))
                        (GITHUB_API_URL +:+ "/user") []) (net st) = (r, w))
    (Hfail : match r with
             | inl _ => True
             | inr resp => 400 <= status_code resp < 600
             end) :
  ∃ msg : string,
    main fuel (Some (String c t)) st
    = (Raise (SystemExit 1),
       printed ("Error: " +:+ msg)
         (after_request (get_request (create_github_session (String c t))
                           (GITHUB_API_URL +:+ "/user") []) w st)).
Proof.
  assert (∃ msg, get_authenticated_user (create_github_session (String c t)) st
                 = (Raise (RequestException msg),
                    after_request (get_request (create_github_session (String c t))
                                     (GITHUB_API_URL +:+ "/user") []) w st)) as [msg Hmsg].
  { unfold get_authenticated_user, bind at 1, session_get. rewrite Hget.
    destruct r as [msg|resp]; [eauto|].
    destruct (raise_for_status_error resp Hfail) as [msg Hmsg]. exists msg.
    rewrite bind_lift, Hmsg. reflexivity. }
  exists msg. unfold main. apply main_except_request_exception.
  unfold main_try. erewrite bind_raise by exact Hmsg. reflexivity.
Qed.

(** X5. When the answer for the authenticated user is an object without a
    "login" key, [main] raises KeyError: no except clause catches it, so
    nothing is printed and there is no exit with status 1. *)
Theorem missing_login_uncaught `{Env} (fuel : nat) (c : ascii) (t : string) (st : state)
    (resp : response) (w : world) (o : list (string * json))
    (Hget : http_get (get_request (create_github_session (String c t))
                        (GITHUB_API_URL +:+ "/user") []) (net st) = (inr resp, w))
    (Hok : raise_for_status resp = Ret tt)
    (Hbody : body resp = inr (JObj o))
    (Hlogin : Py.assoc "login" o = None) :
  main fuel (Some (String c t)) st
  = (Raise KeyError,
     after_request (get_request (create_github_session (String c t))
                      (GITHUB_API_URL +:+ "/user") []) w st).
Proof.
  unfold main, main_except, main_try.
  assert (get_authenticated_user (create_github_session (String c t)) st
          = (Ret (JObj o),
             after_request (get_request (create_github_session (String c t))
                              (GITHUB_API_URL +:+ "/user") []) w st)) as Huser.
  { unfold get_authenticated_user.
    erewrite bind_ret by (apply session_get_answer; exact Hget).
    rewrite bind_lift, Hok. unfold lift, response_json. by rewrite Hbody. }
  erewrite bind_ret by exact Huser.
  rewrite bind_lift. simpl. rewrite Hlogin. reflexivity.
Qed.

(** ** Listings against a source that always answers *)

Lemma page_of_empty (items : list json) (page : Z) :
  page_of items page = [] -> rest_from items page = [].
Proof.
  unfold page_of. destruct (rest_from items page); [reflexivity|discriminate].
Qed.

Lemma rest_from_next (items : list json) (page : Z) :
  1 <= page ->
  rest_from items page = (page_of items page ++ rest_from items (page + 1))%list.
Proof.
  intros Hpage. unfold page_of, rest_from.
  replace (100 * (Z.to_nat (page + 1) - 1))%nat
    with (100 + 100 * (Z.to_nat page - 1))%nat by lia.
  rewrite <- skipn_skipn. symmetry. apply firstn_skipn.
Qed.

Lemma page_bound_next_eq (items : list json) (page : Z) (x : json) (l : list json) :
  1 <= page ->
  page_of items page = x :: l ->
  page_bound (rest_from items page) = S (page_bound (rest_from items (page + 1))).
Proof.
  intros Hpage Hne. unfold page_bound, page_of, rest_from in *.
  rewrite !length_skipn.
  assert (1 <= length items - 100 * (Z.to_nat page - 1))%nat as Hlen.
  { rewrite <- length_skipn.
    destruct (skipn (100 * (Z.to_nat page - 1)) items); [discriminate|simpl; lia]. }
  replace (Z.to_nat (page + 1) - 1)%nat with (S (Z.to_nat page - 1)) by lia.
  set (n := (length items - 100 * (Z.to_nat page - 1))%nat) in *.
  replace (length items - 100 * S (Z.to_nat page - 1))%nat with (n - 100)%nat by lia.
  destruct (le_lt_dec 100 n) as [Hbig|Hsmall].
  - replace (n + 99)%nat with ((n - 100 + 99) + 1 * 100)%nat by lia.
    rewrite Nat.div_add by lia. lia.
  - replace (n - 100 + 99)%nat with 99%nat by lia.
    change (99 / 100)%nat with 0%nat.
    assert ((n + 99) / 100 = 1)%nat as ->; [|reflexivity].
    replace (n + 99)%nat with ((n - 1) + 1 * 100)%nat by lia.
    rewrite Nat.div_add by lia. rewrite Nat.div_small by lia. reflexivity.
Qed.

Lemma page_bound_nil : page_bound [] = 1%nat.
Proof. reflexivity. Qed.

Lemma push_repos_app (l1 l2 : list json) :
  push_repos (l1 ++ l2)
  = obind (push_repos l1) (fun k1 => obind (push_repos l2) (fun k2 => Ret (k1 ++ k2)%list)).
Proof.
  induction l1 as [|repo l1 IH]; simpl.
  - destruct (push_repos l2); reflexivity.
  - destruct (has_push repo) as [keep|e|]; simpl; try reflexivity.
    rewrite IH. destruct (push_repos l1) as [k1|e|]; simpl; try reflexivity.
    destruct (push_repos l2) as [k2|e|]; simpl; try reflexivity.
    destruct keep; reflexivity.
Qed.

Section Transparency.
Context `{Env}.

Variable s : session.

Lemma user_repos_loop_all (items : list json) :
  let rq := fun page => get_request s user_repos_url (user_repos_params page) in
  serves_all rq passes items ->
  ∀ (fuel : nat) (repos : list json) (page : Z) (st : state),
    1 <= page ->
    (page_bound (rest_from items page) <= fuel)%nat ->
    ∃ st' : state,
      user_repos_loop fuel s repos page st = (Ret (repos ++ rest_from items page)%list, st') ∧
      log st'
      = (log st ++ map rq (pages_from page (page_bound (rest_from items page))))%list.
Proof.
  intros rq Hserves. induction fuel as [|fuel IH]; intros repos page st Hpage Hfuel.
  { unfold page_bound in Hfuel. lia. }
  destruct (Hserves page (net st) Hpage) as (resp & w & Hget & Hreads & Hbody).
  unfold passes in Hreads.
  destruct (raise_for_status resp) as [[]|e|] eqn:Hok; try discriminate.
  simpl user_repos_loop.
  erewrite bind_ret by (apply session_get_answer; exact Hget).
  rewrite bind_lift, Hok. unfold response_json. rewrite Hbody, bind_lift.
  destruct (page_of items page) as [|x l] eqn:Hitems.
  - rewrite (page_of_empty _ _ Hitems), app_nil_r, page_bound_nil.
    eexists. split; [reflexivity|]. simpl. by rewrite Z.add_0_r.
  - change (negb (Py.truthy (JArr (x :: l)))) with false. cbv iota.
    change (Py.iter (JArr (x :: l))) with (Ret (x :: l)). rewrite bind_lift.
    pose proof (page_bound_next_eq items page x l Hpage Hitems) as Hnext.
    destruct (IH (repos ++ x :: l)%list (page + 1)
                (after_request (rq page) w st)) as (st' & Hrun & Hlog); [lia|lia|].
    exists st'. subst rq. cbv beta in *. split.
    + rewrite Hrun, (rest_from_next items page Hpage), Hitems. by rewrite <- app_assoc.
    + rewrite Hlog, Hnext, pages_from_S. simpl. by rewrite <- app_assoc.
Qed.

(** X6. Against a source of owned repositories that always answers, with
    fuel for [ceil(|items| / 100) + 1] iterations, [get_user_repos] returns
    exactly the items of the source, in order, and sends exactly the
    requests for the pages 1, ..., [ceil(|items| / 100) + 1]. *)
Theorem get_user_repos_all (items : list json) (fuel : nat) (st : state)
    (Hserves : serves_all
                 (fun page => get_request s user_repos_url (user_repos_params page))
                 passes items)
    (Hfuel : (page_bound items <= fuel)%nat) :
  ∃ st' : state,
    get_user_repos fuel s st = (Ret items, st') ∧
    log st'
    = (log st ++ map (fun page => get_request s user_repos_url (user_repos_params page))
                     (pages (page_bound items)))%list.
Proof.
  destruct (user_repos_loop_all items Hserves fuel [] 1 st) as (st' & Hrun & Hlog);
    [lia|exact Hfuel|].
  exists st'. split; [exact Hrun|exact Hlog].
Qed.

Lemma org_repos_loop_all (org_name : json) (items : list json) :
  let rq := fun page => get_request s (org_repos_url org_name) (org_repos_params page) in
  serves_all rq passes items ->
  ∀ (fuel : nat) (acc : list json) (page : Z) (st : state),
    1 <= page ->
    (page_bound (rest_from items page) <= fuel)%nat ->
    ∃ st' : state,
      org_repos_loop fuel s org_name acc page st
      = (obind (push_repos (rest_from items page)) (fun kept => Ret (acc ++ kept)%list), st').
Proof.
  intros rq Hserves. induction fuel as [|fuel IH]; intros acc page st Hpage Hfuel.
  { unfold page_bound in Hfuel. lia. }
  destruct (Hserves page (net st) Hpage) as (resp & w & Hget & Hreads & Hbody).
  unfold passes in Hreads.
  destruct (raise_for_status resp) as [[]|e|] eqn:Hok; try discriminate.
  simpl org_repos_loop.
  erewrite bind_ret by (apply session_get_answer; exact Hget).
  rewrite bind_lift, Hok. unfold response_json. rewrite Hbody, bind_lift.
  destruct (page_of items page) as [|x l] eqn:Hitems.
  - rewrite (page_of_empty _ _ Hitems). simpl. rewrite app_nil_r. eauto.
  - change (negb (Py.truthy (JArr (x :: l)))) with false. cbv iota.
    change (Py.iter (JArr (x :: l))) with (Ret (x :: l)). rewrite !bind_lift.
    pose proof (page_bound_next_eq items page x l Hpage Hitems) as Hnext.
    rewrite (rest_from_next items page Hpage), Hitems, push_repos_app.
    destruct (push_repos (x :: l)) as [k1|e|]; simpl obind; [|eauto|eauto].
    destruct (IH (acc ++ k1)%list (page + 1) (after_request (rq page) w st))
      as (st' & Hrun); [lia|lia|].
    exists st'. subst rq. cbv beta in *. rewrite Hrun.
    destruct (push_repos (rest_from items (page + 1))) as [k2|e|]; simpl; try reflexivity.
    by rewrite app_assoc.
Qed.

Lemma orgs_loop_all (fuel : nat) (repos_of : json -> list json)
    (orgs names : list json) :
  Forall2 (fun org name => Py.getitem org "login" = Ret name) orgs names ->
  (∀ name, name ∈ names ->
     serves_all (fun page => get_request s (org_repos_url name) (org_repos_params page))
       passes (repos_of name) ∧
     Forall repo_typed (repos_of name) ∧
     (page_bound (repos_of name) <= fuel)%nat) ->
  ∀ (acc : list json) (st : state),
    ∃ st' : state,
      orgs_loop fuel s orgs acc st
      = (Ret (acc ++ concat (map (fun name => filter (fun repo => reports_push repo)
                                                (repos_of name)) names))%list, st').
Proof.
  induction 1 as [|org name orgs names Hlogin _ IH]; intros Hall acc st.
  { simpl. rewrite app_nil_r. eauto. }
  destruct (Hall name) as (Hserves & Htyped & Hfuel); [apply list_elem_of_here|].
  simpl orgs_loop. rewrite bind_lift, Hlogin.
  destruct (org_repos_loop_all name (repos_of name) Hserves fuel acc 1 st)
    as (st1 & Hrun); [lia|exact Hfuel|].
  change (rest_from (repos_of name) 1) with (repos_of name) in Hrun.
  rewrite (push_repos_typed _ Htyped) in Hrun. simpl in Hrun.
  erewrite bind_ret by exact Hrun.
  destruct (IH (fun n Hn => Hall n (list_elem_of_further _ _ _ Hn))
              (acc ++ filter (fun repo => reports_push repo) (repos_of name))%list st1)
    as (st' & Hrest).
  exists st'. rewrite Hrest. simpl. by rewrite app_assoc.
Qed.

(** X7. When the organization listing is answered with the organizations
    [orgs], with logins [names], and the repositories of each are served by
    a source that always answers, with entries as the API sends them,
    [get_org_repos] returns, organization after organization and in the
    order of each source, the repositories whose permissions report
    push=true. *)
Theorem get_org_repos_all (fuel : nat) (repos_of : json -> list json)
    (orgs names : list json) (st : state) (resp : response) (w : world)
    (Hget : http_get (get_request s (GITHUB_API_URL +:+ "/user/orgs") []) (net st)
            = (inr resp, w))
    (Hok : raise_for_status resp = Ret tt)
    (Hbody : body resp = inr (JArr orgs))
    (Hnames : Forall2 (fun org name => Py.getitem org "login" = Ret name) orgs names)
    (Hall : ∀ name, name ∈ names ->
       serves_all (fun page => get_request s (org_repos_url name) (org_repos_params page))
         passes (repos_of name) ∧
       Forall repo_typed (repos_of name) ∧
       (page_bound (repos_of name) <= fuel)%nat) :
  ∃ st' : state,
    get_org_repos fuel s st
    = (Ret (concat (map (fun name => filter (fun repo => reports_push repo) (repos_of name))
                        names)), st').
Proof.
  unfold get_org_repos.
  erewrite bind_ret by (apply session_get_answer; exact Hget).
  rewrite bind_lift, Hok. unfold response_json. rewrite Hbody, bind_lift.
  change (Py.iter (JArr orgs)) with (Ret orgs). rewrite bind_lift.
  apply (orgs_loop_all fuel repos_of orgs names Hnames Hall []).
Qed.

Lemma commits_loop_from (repo_owner repo_name username : json) (items : list json) :
  serves_all
    (fun page => get_request s (commits_url repo_owner repo_name)
                   (commits_params username page))
    is_200 items ->
  ∀ (fuel : nat) (emails : gset key) (page : Z) (st : state),
    1 <= page ->
    (page_bound (rest_from items page) <= fuel)%nat ->
    fst (commits_loop fuel s repo_owner repo_name username emails page st)
    = scan_commits (rest_from items page) emails.
Proof.
  intros Hserves. induction fuel as [|fuel IH]; intros emails page st Hpage Hfuel.
  { unfold page_bound in Hfuel. lia. }
  destruct (Hserves page (net st) Hpage) as (resp & w & Hget & Hreads & Hbody).
  unfold is_200 in Hreads.
  simpl commits_loop.
  erewrite bind_ret by (apply session_get_answer; exact Hget).
  rewrite Hreads. change (negb true) with false. cbv iota.
  unfold response_json. rewrite Hbody, bind_lift.
  destruct (page_of items page) as [|x l] eqn:Hitems.
  - rewrite (page_of_empty _ _ Hitems). reflexivity.
  - change (negb (Py.truthy (JArr (x :: l)))) with false. cbv iota.
    change (Py.iter (JArr (x :: l))) with (Ret (x :: l)). rewrite !bind_lift.
    pose proof (page_bound_next_eq items page x l Hpage Hitems) as Hnext.
    rewrite (rest_from_next items page Hpage), Hitems, scan_commits_app.
    destruct (scan_commits (x :: l) emails) as [emails1|e|]; simpl obind; try reflexivity.
    apply IH; lia.
Qed.

(** X8. Against a source of commits that always answers with status 200,
    with fuel for [ceil(|items| / 100) + 1] iterations, the commit scan is
    the scan of the whole list of the source's commits: it returns what
    [scan_commits] returns on it, and raises what it raises. *)
Theorem commits_loop_all (repo_owner repo_name username : json) (items : list json)
    (fuel : nat) (emails : gset key) (st : state)
    (Hserves : serves_all
                 (fun page => get_request s (commits_url repo_owner repo_name)
                                (commits_params username page))
                 is_200 items)
    (Hfuel : (page_bound items <= fuel)%nat) :
  fst (commits_loop fuel s repo_owner repo_name username emails 1 st)
  = scan_commits items emails.
Proof.
  apply (commits_loop_from repo_owner repo_name username items Hserves fuel emails 1 st);
    [lia|exact Hfuel].
Qed.

(** X9. The loop of [get_user_repos] has no bound of its own: against a
    source that answers every page request with a non-empty list, it is
    still running after any number of iterations, having asked for one page
    after another. *)
Theorem user_repos_loop_unbounded (fuel : nat) (repos : list json) (page : Z) (st : state)
    (Hmore : never_empty
               (fun page => get_request s user_repos_url (user_repos_params page)) passes) :
  ∃ st' : state,
    user_repos_loop fuel s repos page st = (Timeout, st') ∧
    log st'
    = (log st ++ map (fun page => get_request s user_repos_url (user_repos_params page))
                     (pages_from page fuel))%list.
Proof.
  revert repos page st. induction fuel as [|fuel IH]; intros repos page st.
  { exists st. split; [reflexivity|]. simpl. by rewrite app_nil_r. }
  destruct (Hmore page (net st)) as (resp & w & x & l & Hget & Hreads & Hbody).
  unfold passes in Hreads.
  destruct (raise_for_status resp) as [[]|e|] eqn:Hok; try discriminate.
  simpl user_repos_loop.
  erewrite bind_ret by (apply session_get_answer; exact Hget).
  rewrite bind_lift, Hok. unfold response_json. rewrite Hbody, bind_lift.
  change (negb (Py.truthy (JArr (x :: l)))) with false. cbv iota.
  change (Py.iter (JArr (x :: l))) with (Ret (x :: l)). rewrite bind_lift.
  destruct (IH (repos ++ x :: l)%list (page + 1)
              (after_request (get_request s user_repos_url (user_repos_params page)) w st))
    as (st' & Hrun & Hlog).
  exists st'. split; [exact Hrun|].
  rewrite Hlog, pages_from_S. simpl. by rewrite <- app_assoc.
Qed.

End Transparency.

(** ** The enumeration keeps the push filter *)

Lemma push_repos_sound (batch kept : list json) :
  push_repos batch = Ret kept -> Forall (fun repo => has_push repo = Ret true) kept.
Proof.
  revert kept. induction batch as [|repo rest IH]; intros kept; simpl.
  - intros [= <-]. constructor.
  - destruct (has_push repo) as [keep|e|] eqn:Hkeep; simpl; try discriminate.
    destruct (push_repos rest) as [kept'|e|]; simpl; try discriminate.
    intros [= <-]. specialize (IH kept' eq_refl).
    destruct keep; [constructor; assumption|assumption].
Qed.

Section Enumeration.
Context `{Env}.

Lemma org_repos_loop_sound (fuel : nat) (s : session) (org_name : json)
    (acc out : list json) (page : Z) (st st' : state) :
  Forall (fun repo => has_push repo = Ret true) acc ->
  org_repos_loop fuel s org_name acc page st = (Ret out, st') ->
  Forall (fun repo => has_push repo = Ret true) out.
Proof.
  revert acc page st. induction fuel as [|fuel IH]; intros acc page st Hacc Hrun;
    [discriminate|].
  simpl in Hrun. unfold bind at 1 in Hrun.
  destruct (session_get _ _ _ st) as [[resp|e|] st1]; try discriminate.
  rewrite bind_lift in Hrun. destruct (raise_for_status resp); try discriminate.
  rewrite bind_lift in Hrun. destruct (response_json resp) as [batch|e|]; try discriminate.
  destruct (negb (Py.truthy batch)); [injection Hrun as <- _; exact Hacc|].
  rewrite bind_lift in Hrun. destruct (Py.iter batch) as [items|e|]; try discriminate.
  rewrite bind_lift in Hrun.
  destruct (push_repos items) as [kept|e|] eqn:Hkept; try discriminate.
  eapply IH; [|exact Hrun]. apply Forall_app. split; [exact Hacc|].
  by apply (push_repos_sound items).
Qed.

Lemma orgs_loop_sound (fuel : nat) (s : session) (orgs acc out : list json)
    (st st' : state) :
  Forall (fun repo => has_push repo = Ret true) acc ->
  orgs_loop fuel s orgs acc st = (Ret out, st') ->
  Forall (fun repo => has_push repo = Ret true) out.
Proof.
  revert acc st. induction orgs as [|org rest IH]; intros acc st Hacc Hrun.
  { injection Hrun as <- _. exact Hacc. }
  simpl in Hrun. rewrite bind_lift in Hrun.
  destruct (Py.getitem org "login") as [org_name|e|]; try discriminate.
  unfold bind at 1 in Hrun.
  destruct (org_repos_loop fuel s org_name acc 1 st) as [[acc1|e|] st1] eqn:Hloop;
    try discriminate.
  eapply IH; [|exact Hrun]. eapply org_repos_loop_sound; [exact Hacc|exact Hloop].
Qed.

(** X10. Whatever the forge answers, every repository [get_org_repos]
    returns passed the filter: [repo.get("permissions", {}).get("push",
    False)] is true of it. *)
Theorem get_org_repos_sound (fuel : nat) (s : session) (st st' : state) (out : list json)
    (Hrun : get_org_repos fuel s st = (Ret out, st')) :
  Forall (fun repo => has_push repo = Ret true) out.
Proof.
  unfold get_org_repos in Hrun. unfold bind at 1 in Hrun.
  destruct (session_get _ _ _ st) as [[resp|e|] st1]; try discriminate.
  rewrite bind_lift in Hrun. destruct (raise_for_status resp); try discriminate.
  rewrite bind_lift in Hrun. destruct (response_json resp) as [orgs|e|]; try discriminate.
  rewrite bind_lift in Hrun. destruct (Py.iter orgs) as [org_list|e|]; try discriminate.
  eapply orgs_loop_sound; [constructor|exact Hrun].
Qed.

End Enumeration.

(** ** The scan of a repository and the loop over the repositories *)

Section Scanning.
Context `{Env}.

(** X11. When the scan of a repository returns, it is the commit scan
    followed by the pull-request scan started from the commit scan's
    emails, and every email the commit scan found is in the result. *)
Theorem get_contribution_emails_steps (fuel : nat) (s : session)
    (repo_owner repo_name username : json) (st st' : state) (result : gset key)
    (Hrun : get_contribution_emails fuel s repo_owner repo_name username st
            = (Ret result, st')) :
  ∃ (commit_emails : gset key) (st1 : state),
    commits_loop fuel s repo_owner repo_name username ∅ 1 st = (Ret commit_emails, st1) ∧
    pulls_loop fuel s repo_owner repo_name username commit_emails 1 st1 = (Ret result, st') ∧
    commit_emails ⊆ result.
Proof.
  unfold get_contribution_emails, bind in Hrun.
  destruct (commits_loop fuel s repo_owner repo_name username ∅ 1 st)
    as [[commit_emails|e|] st1]; try discriminate.
  exists commit_emails, st1. split; [reflexivity|]. split; [exact Hrun|].
  eapply pulls_loop_mono. exact Hrun.
Qed.

Lemma scan_all_lines (fuel : nat) (s : session) (username : json) (total : Z)
    (repos : list json) (i : Z) (st st' : state) (scans : list (string * gset key)) :
  scan_all fuel s username total repos i st = (Ret scans, st') ->
  length scans = length repos ∧
  stdout st' = (stdout st ++ progress_lines total i (fst <$> scans))%list.
Proof.
  revert i st scans. induction repos as [|repo rest IH]; intros i st scans Hrun.
  { injection Hrun as <- <-. split; [reflexivity|]. simpl. by rewrite app_nil_r. }
  simpl in Hrun. rewrite bind_lift in Hrun.
  destruct (Py.getitem repo "owner") as [owner|e|]; try discriminate.
  rewrite bind_lift in Hrun.
  destruct (Py.getitem owner "login") as [repo_owner|e|]; try discriminate.
  rewrite bind_lift in Hrun.
  destruct (Py.getitem repo "name") as [repo_name|e|]; try discriminate.
  unfold bind at 1 in Hrun. unfold print at 1 in Hrun.
  unfold bind at 1 in Hrun.
  match type of Hrun with
  | context [get_contribution_emails fuel s repo_owner repo_name username ?st1] =>
      destruct (silent_get_contribution_emails s fuel repo_owner repo_name username st1)
        as [[Hout _] _];
      destruct (get_contribution_emails fuel s repo_owner repo_name username st1)
        as [[emails|e|] st2]; try discriminate
  end.
  unfold bind at 1 in Hrun.
  destruct (scan_all fuel s username total rest (i + 1) st2) as [[scans'|e|] st3] eqn:Hrest;
    try discriminate.
  injection Hrun as <- <-.
  destruct (IH _ _ _ Hrest) as [Hlen Hlines].
  split; [simpl; by rewrite Hlen|].
  rewrite Hlines. simpl in Hout. rewrite Hout. simpl.
  unfold progress_lines. rewrite imap_cons, <- app_assoc. simpl.
  unfold progress_line at 2. rewrite Z.add_0_r. do 2 f_equal.
  apply imap_ext. intros j k _. simpl. f_equal. lia.
Qed.

(** X12. When the loop over the repositories returns, it has printed one
    progress line per repository, in order, numbered from [i] on, each with
    the total and the "owner/name" key of the repository, and nothing
    else. *)
Theorem collect_progress (fuel : nat) (s : session) (username : json) (total : Z)
    (repos : list json) (i : Z) (acc result : aggregates) (st st' : state)
    (Hrun : collect fuel s username total repos i acc st = (Ret result, st')) :
  ∃ scans : list (string * gset key),
    scan_all fuel s username total repos i st = (Ret scans, st') ∧
    length scans = length repos ∧
    stdout st' = (stdout st ++ progress_lines total i (fst <$> scans))%list.
Proof.
  destruct (collect_scans _ _ _ _ _ _ _ _ _ _ Hrun) as (scans & Hscans & _).
  exists scans. split; [exact Hscans|]. eapply scan_all_lines. exact Hscans.
Qed.

(** X13. A repository whose commit listing and pull-request listing are
    both refused on the first page leaves no trace in the aggregates: the
    loop prints its progress line, sends the two requests, and goes on with
    the aggregates unchanged. *)
Theorem inaccessible_repository_skipped (fuel : nat) (s : session) (username : json)
    (total : Z) (repo owner repo_owner repo_name : json) (rest : list json) (i : Z)
    (acc : aggregates) (st : state) (r1 r2 : response) (w1 w2 : world)
    (Howner : Py.getitem repo "owner" = Ret owner)
    (Hlogin : Py.getitem owner "login" = Ret repo_owner)
    (Hname : Py.getitem repo "name" = Ret repo_name)
    (Hcommits : http_get (get_request s (commits_url repo_owner repo_name)
                            (commits_params username 1)) (net st) = (inr r1, w1))
    (Hrefused1 : status_code r1 ≠ 200)
    (Hpulls : http_get (get_request s (pulls_url repo_owner repo_name) (pulls_params 1)) w1
              = (inr r2, w2))
    (Hrefused2 : status_code r2 ≠ 200) :
  collect (S fuel) s username total (repo :: rest) i acc st
  = collect (S fuel) s username total rest (i + 1) acc
      (after_request (get_request s (pulls_url repo_owner repo_name) (pulls_params 1)) w2
         (after_request (get_request s (commits_url repo_owner repo_name)
                           (commits_params username 1)) w1
            (printed (progress_line total i (repo_key repo_owner repo_name)) st))).
Proof.
  simpl collect. rewrite bind_lift, Howner, bind_lift, Hlogin, bind_lift, Hname.
  unfold bind at 1. unfold print at 1.
  fold (progress_line total i (repo_key repo_owner repo_name)).
  set (st0 := printed (progress_line total i (repo_key repo_owner repo_name)) st).
  assert (commits_loop (S fuel) s repo_owner repo_name username ∅ 1 st0
          = (Ret ∅,
             after_request (get_request s (commits_url repo_owner repo_name)
                              (commits_params username 1)) w1 st0)) as Hscan.
  { simpl commits_loop. erewrite bind_ret by (apply session_get_answer; exact Hcommits).
    destruct (Z.eqb_spec (status_code r1) 200); [contradiction|]. reflexivity. }
  assert (get_contribution_emails (S fuel) s repo_owner repo_name username st0
          = (Ret ∅,
             after_request (get_request s (pulls_url repo_owner repo_name) (pulls_params 1)) w2
               (after_request (get_request s (commits_url repo_owner repo_name)
                                 (commits_params username 1)) w1 st0))) as Hempty.
  { unfold get_contribution_emails. erewrite bind_ret by exact Hscan. simpl pulls_loop.
    erewrite bind_ret by (apply session_get_answer; exact Hpulls).
    destruct (Z.eqb_spec (status_code r2) 200); [contradiction|]. reflexivity. }
  erewrite bind_ret by exact Hempty.
  unfold record_emails. destruct (decide (∅ = ∅)); [reflexivity|contradiction].
Qed.

End Scanning.

(** ** The report *)

Lemma str_le_total : Total str_le.
Proof. intros s t. apply String.leb_total. Qed.

Lemma str_le_antisym : AntiSymm eq str_le.
Proof. intros s t. apply String.leb_antisym. Qed.

Lemma str_le_lt (s t : string) : str_le s t <-> String_as_OT.lt s t ∨ s = t.
Proof.
  unfold str_le, String.leb. change (String.compare s t) with (String_as_OT.cmp s t).
  destruct (String_as_OT.cmp s t) eqn:Hc.
  - apply String_as_OT.cmp_eq in Hc. tauto.
  - apply String_as_OT.cmp_lt in Hc. tauto.
  - split; [discriminate|]. intros [Hlt| ->].
    + apply String_as_OT.cmp_lt in Hlt. congruence.
    + assert (String_as_OT.cmp t t = Eq) by (by apply String_as_OT.cmp_eq). congruence.
Qed.

Lemma str_le_trans : Transitive str_le.
Proof.
  intros a b c. rewrite !str_le_lt. intros [Hab| ->] [Hbc| ->]; auto.
  left. eapply String_as_OT.lt_trans; eauto.
Qed.

Lemma strings_of_fmap (ss : list string) : strings_of (KStr <$> ss) = Some ss.
Proof. induction ss as [|s ss IH]; csimpl; [reflexivity|]. by rewrite IH. Qed.

Lemma strings_of_Some (l : list key) (ss : list string) :
  strings_of l = Some ss -> l = KStr <$> ss.
Proof.
  revert ss. induction l as [|[| |s] l IH]; intros ss; simpl; try discriminate.
  - intros [= <-]. reflexivity.
  - destruct (strings_of l) as [ss'|]; simpl; [|discriminate].
    intros [= <-]. csimpl. f_equal. by apply IH.
Qed.

Lemma ints_of_Some (l : list key) (ns : list Z) :
  ints_of l = Some ns -> l = KInt <$> ns.
Proof.
  revert ns. induction l as [|[|n|] l IH]; intros ns; simpl; try discriminate.
  - intros [= <-]. reflexivity.
  - destruct (ints_of l) as [ns'|]; simpl; [|discriminate].
    intros [= <-]. csimpl. f_equal. by apply IH.
Qed.

Lemma omap_strings (ss : list string) :
  omap (fun k => match k with KStr s => Some s | _ => None end) (KStr <$> ss) = ss.
Proof. induction ss as [|s ss IH]; csimpl; [reflexivity|]. by rewrite IH. Qed.

Lemma all_strings_elements (emails : gset key) :
  all_strings emails -> ∃ ss : list string, elements emails = KStr <$> ss.
Proof.
  intros Hall.
  assert (Forall (fun k => ∃ s, k = KStr s) (elements emails)) as Hl.
  { apply Forall_forall. intros k Hk. apply Hall. by apply elem_of_elements. }
  induction Hl as [|k l [s ->] _ [ss ->]].
  - by exists [].
  - by exists (s :: ss).
Qed.

Lemma py_sorted_long (l : list key) :
  (2 <= length l)%nat ->
  py_sorted l
  = match strings_of l, ints_of l with
    | Some ss, _ => Ret (KStr <$> merge_sort str_le ss)
    | None, Some ns => Ret (KInt <$> merge_sort Z.le ns)
    | None, None => Raise TypeError
    end.
Proof. destruct l as [|a [|b l]]; simpl; [lia|lia|reflexivity]. Qed.

Lemma py_sorted_strings (ss : list string) :
  py_sorted (KStr <$> ss) = Ret (KStr <$> merge_sort str_le ss).
Proof.
  destruct ss as [|s [|t ss]]; [reflexivity|reflexivity|].
  rewrite py_sorted_long by (rewrite length_fmap; simpl; lia).
  by rewrite strings_of_fmap.
Qed.

Lemma py_sorted_elements (emails : gset key) :
  all_strings emails ->
  py_sorted (elements emails) = Ret (KStr <$> email_lines emails).
Proof.
  intros Hall. destruct (all_strings_elements emails Hall) as [ss Hss].
  unfold email_lines. rewrite Hss, omap_strings. apply py_sorted_strings.
Qed.

(** X14. The emails of a set of string emails are listed in ascending
    order, each of them once, and nothing else is listed. *)
Theorem email_lines_sorted (emails : gset key) (Hall : all_strings emails) :
  py_sorted (elements emails) = Ret (KStr <$> email_lines emails) ∧
  StronglySorted str_le (email_lines emails) ∧
  NoDup (email_lines emails) ∧
  ∀ s : string, s ∈ email_lines emails <-> KStr s ∈ emails.
Proof.
  split; [by apply py_sorted_elements|].
  destruct (all_strings_elements emails Hall) as [ss Hss].
  assert (email_lines emails ≡ₚ ss) as Hperm.
  { unfold email_lines. rewrite Hss, omap_strings. apply merge_sort_Permutation. }
  assert (NoDup ss) as Hnd.
  { pose proof (NoDup_elements emails) as Hnd. rewrite Hss in Hnd.
    eapply NoDup_fmap_1. exact Hnd. }
  split.
  { unfold email_lines.
    apply (@StronglySorted_merge_sort _ str_le _ str_le_trans str_le_total). }
  split; [by rewrite Hperm|].
  intros s. rewrite Hperm, <- elem_of_elements, Hss.
  rewrite list_elem_of_fmap. split; [eauto|]. intros (s' & [= ->] & Hin). exact Hin.
Qed.

Section ReportRuns.
Context `{Env}.

Variable show_int : Z -> string.

Lemma printed_all_nil (st : state) : printed_all [] st = st.
Proof. destruct st. unfold printed_all. simpl. by rewrite app_nil_r. Qed.

Lemma printed_all_app (l1 l2 : list string) (st : state) :
  printed_all l2 (printed_all l1 st) = printed_all (l1 ++ l2) st.
Proof. unfold printed_all. simpl. by rewrite app_assoc. Qed.

Lemma print_each_run (lines : list string) (st : state) :
  print_each lines st = (Ret tt, printed_all lines st).
Proof.
  revert st. induction lines as [|line rest IH]; intros st; simpl.
  - by rewrite printed_all_nil.
  - unfold bind, print. rewrite IH.
    change (printed line st) with (printed_all [line] st).
    by rewrite printed_all_app.
Qed.

Lemma print_run {B} (line : string) (k : unit -> M B) (st : state) :
  bind (print line) k st = k tt (printed_all [line] st).
Proof. reflexivity. Qed.

Lemma key_str_fmap (ss : list string) : map (key_str show_int) (KStr <$> ss) = ss.
Proof. induction ss as [|s ss IH]; csimpl; [reflexivity|]. by rewrite IH. Qed.

Lemma bullet_fmap (ss : list string) :
  map (fun email => "  - " +:+ key_str show_int email) (KStr <$> ss)
  = map (fun s => "  - " +:+ s) ss.
Proof. induction ss as [|s ss IH]; csimpl; [reflexivity|]. by rewrite IH. Qed.

Lemma breakdown_run (items : list (string * gset key)) (st : state) :
  Forall (fun item => all_strings (snd item)) items ->
  breakdown show_int items st = (Ret tt, printed_all (concat (map section_lines items)) st).
Proof.
  intros Hitems. revert st. induction Hitems as [|[name emails] items Hall _ IH]; intros st.
  { simpl. by rewrite printed_all_nil. }
  simpl in Hall. simpl breakdown. rewrite print_run, bind_lift, (py_sorted_elements _ Hall).
  unfold bind at 1. rewrite print_each_run, IH, bullet_fmap.
  rewrite !printed_all_app. reflexivity.
Qed.

(** X15. For email sets of strings, the report prints the rule, the line
    with the number of emails and of repositories, the rule, the emails in
    ascending order, the heading of the breakdown and, for each entry of the
    dict in its order, the name and the emails of that repository in
    ascending order; it returns, sends no request and leaves the world as it
    is. *)
Theorem report_output (all_emails : gset key) (repo_emails : list (string * gset key))
    (st : state)
    (Hall : all_strings all_emails)
    (Hitems : Forall (fun item => all_strings (snd item)) repo_emails) :
  report show_int all_emails repo_emails st
  = (Ret tt, printed_all (report_lines all_emails repo_emails) st).
Proof.
  unfold report. rewrite !print_run, bind_lift, (py_sorted_elements _ Hall).
  unfold bind at 1. rewrite print_each_run, print_run, (breakdown_run _ _ Hitems).
  rewrite !printed_all_app, key_str_fmap. reflexivity.
Qed.

End ReportRuns.

(** ** The dict of the report and the mapping of the aggregates *)

Lemma dict_set_keys (k : string) (v : gset key) (items : list (string * gset key)) :
  fst <$> dict_set k v items
  = if decide (k ∈ fst <$> items) then fst <$> items else ((fst <$> items) ++ [k])%list.
Proof.
  induction items as [|[k' v'] items IH]; csimpl.
  - destruct (decide (k ∈ [])) as [Hin|]; [by apply elem_of_nil in Hin|reflexivity].
  - destruct (String.eqb_spec k' k) as [->|Hne]; csimpl.
    + destruct (decide (k ∈ k :: (fst <$> items))) as [|Hn]; [reflexivity|].
      exfalso. apply Hn, list_elem_of_here.
    + rewrite IH. destruct (decide (k ∈ fst <$> items)) as [Hin|Hnin].
      * destruct (decide (k ∈ k' :: (fst <$> items))) as [|Hn]; [reflexivity|].
        exfalso. apply Hn. by apply list_elem_of_further.
      * destruct (decide (k ∈ k' :: (fst <$> items))) as [Hin'|]; [|reflexivity].
        apply elem_of_cons in Hin' as [->|?]; [congruence|contradiction].
Qed.

Lemma dict_set_NoDup (k : string) (v : gset key) (items : list (string * gset key)) :
  NoDup (fst <$> items) -> NoDup (fst <$> dict_set k v items).
Proof.
  intros Hnd. rewrite dict_set_keys. destruct (decide (k ∈ fst <$> items)); [exact Hnd|].
  apply NoDup_app. split; [exact Hnd|]. split; [|apply NoDup_singleton].
  intros x Hx Hk. apply list_elem_of_singleton in Hk as ->. contradiction.
Qed.

Lemma dict_set_map (k : string) (v : gset key) (items : list (string * gset key)) :
  (list_to_map (dict_set k v items) : gmap string (gset key))
  = <[k := v]> (list_to_map items).
Proof.
  induction items as [|[k' v'] items IH]; simpl; [reflexivity|].
  destruct (String.eqb_spec k' k) as [->|Hne]; simpl.
  - by rewrite insert_insert_eq.
  - rewrite IH. by apply insert_insert_ne.
Qed.

Lemma record_items_emails (k : string) (emails : gset key) (acc : ordered_aggregates) :
  (fst (record_items k emails acc), list_to_map (snd (record_items k emails acc)))
  = record_emails k emails (fst acc, list_to_map (snd acc)).
Proof.
  unfold record_items, record_emails. destruct (decide (emails = ∅)); [reflexivity|].
  simpl. by rewrite dict_set_map.
Qed.

Lemma record_items_NoDup (k : string) (emails : gset key) (acc : ordered_aggregates) :
  NoDup (fst <$> snd acc) -> NoDup (fst <$> snd (record_items k emails acc)).
Proof.
  unfold record_items. destruct (decide (emails = ∅)); [auto|]. apply dict_set_NoDup.
Qed.

Lemma py_sorted_raises (l : list key) (e : exn) : py_sorted l = Raise e -> e = TypeError.
Proof.
  destruct l as [|a [|b l]]; try discriminate.
  rewrite py_sorted_long by (simpl; lia).
  destruct (strings_of _); [discriminate|]. destruct (ints_of _); [discriminate|].
  by intros [= <-].
Qed.

Section ReportExceptions.
Context `{Env}.

Variable show_int : Z -> string.

Lemma breakdown_raises (items : list (string * gset key)) (st st' : state) (e : exn) :
  breakdown show_int items st = (Raise e, st') -> e = TypeError.
Proof.
  revert st. induction items as [|[name emails] items IH]; intros st; [discriminate|].
  simpl breakdown. rewrite print_run, bind_lift.
  destruct (py_sorted (elements emails)) as [sorted|e'|] eqn:Hsorted.
  - unfold bind at 1. rewrite print_each_run. apply IH.
  - intros [= <- _]. by apply (py_sorted_raises _ _ Hsorted).
  - discriminate.
Qed.

Lemma report_raises (all_emails : gset key) (items : list (string * gset key))
    (st st' : state) (e : exn) :
  report show_int all_emails items st = (Raise e, st') -> e = TypeError.
Proof.
  unfold report. rewrite !print_run, bind_lift.
  destruct (py_sorted (elements all_emails)) as [sorted|e'|] eqn:Hsorted.
  - unfold bind at 1. rewrite print_each_run, print_run. apply breakdown_raises.
  - intros [= <- _]. by apply (py_sorted_raises _ _ Hsorted).
  - discriminate.
Qed.

Lemma main_except_report (all_emails : gset key) (items : list (string * gset key))
    (st : state) :
  main_except (report show_int all_emails items) st = report show_int all_emails items st.
Proof.
  unfold main_except.
  destruct (report show_int all_emails items st) as [[[]|e|] st'] eqn:Hrun; try reflexivity.
  apply report_raises in Hrun as ->. reflexivity.
Qed.

End ReportExceptions.

(** ** The requests and the exceptions of [main] *)

Lemma header_set_eq (k v : string) (hs : list (string * string)) :
  header k (header_set k v hs) = Some v.
Proof.
  induction hs as [|[k' v'] hs IH]; simpl.
  - by rewrite String.eqb_refl.
  - destruct (String.eqb (Py.lower k') (Py.lower k)) eqn:Hk; simpl.
    + by rewrite String.eqb_refl.
    + by rewrite Hk.
Qed.

Lemma header_set_ne (k k0 v0 : string) (hs : list (string * string)) :
  Py.lower k0 ≠ Py.lower k -> header k (header_set k0 v0 hs) = header k hs.
Proof.
  intros Hne. apply String.eqb_neq in Hne.
  induction hs as [|[k' v'] hs IH]; simpl.
  - by rewrite Hne.
  - destruct (String.eqb_spec (Py.lower k') (Py.lower k0)) as [Heq|Hk0]; simpl.
    + rewrite Hne, Heq, Hne. reflexivity.
    + by rewrite IH.
Qed.

Lemma header_set_items (k0 v0 : string) (hs : list (string * string)) (kv : string * string) :
  kv ∈ header_set k0 v0 hs -> kv = (k0, v0) ∨ kv ∈ hs.
Proof.
  induction hs as [|[k' v'] hs IH]; simpl.
  - intros Hin. apply list_elem_of_singleton in Hin. by left.
  - destruct (String.eqb (Py.lower k') (Py.lower k0)).
    + intros Hin. apply elem_of_cons in Hin as [->|Hin]; [by left|].
      right. by apply list_elem_of_further.
    + intros Hin. apply elem_of_cons in Hin as [->|Hin]; [right; apply list_elem_of_here|].
      destruct (IH Hin) as [->|Hhs]; [by left|right; by apply list_elem_of_further].
Qed.

(** The headers of the session [create_github_session] returns: the three
    the script sets, with the values it sets, and besides them only
    defaults of the library. *)
Lemma create_github_session_headers `{Env} (token : string) :
  let hs := session_headers (create_github_session token) in
  header "Authorization" hs = Some ("Bearer " +:+ token) ∧
  header "Accept" hs = Some "application/vnd.github.v3+json" ∧
  header "User-Agent" hs = Some "GitHub-Email-Finder" ∧
  ∀ k v : string,
    (k, v) ∈ hs ->
    (k, v) ∈ default_headers ∨
    (k, v) ∈ [("Authorization", "Bearer " +:+ token);
              ("Accept", "application/vnd.github.v3+json");
              ("User-Agent", "GitHub-Email-Finder")].
Proof.
  simpl. unfold headers_update. simpl.
  split; [|split; [|split]].
  - rewrite !header_set_ne by discriminate. apply header_set_eq.
  - rewrite header_set_ne by discriminate. apply header_set_eq.
  - apply header_set_eq.
  - intros k v Hin.
    apply header_set_items in Hin as [->|Hin]; [right; set_solver|].
    apply header_set_items in Hin as [->|Hin]; [right; set_solver|].
    apply header_set_items in Hin as [->|Hin]; [right; set_solver|].
    by left.
Qed.

Lemma not_exit_py_sorted (l : list key) : raises_only not_exit (py_sorted l).
Proof. intros e He code ->. apply py_sorted_raises in He. discriminate. Qed.

Section MainFrame.
Context `{Env}.

Variable show_int : Z -> string.
Variable s : session.

Ltac main_step :=
  first
    [ apply keeps_ret; apply talking_refl
    | apply keeps_print
    | apply (keeps_weaken _ _ _ _ (silent_talking s)); apply keeps_lift;
        [apply silent_refl | first [apply not_exit_py_sorted | apply not_exit_getitem]]
    | apply keeps_bind; [apply talking_trans | | intros ?] ].

Lemma talking_print_each (lines : list string) :
  keeps (talking s) not_exit (print_each lines).
Proof. induction lines as [|line rest IH]; simpl; repeat (apply IH || main_step). Qed.

Lemma talking_breakdown (items : list (string * gset key)) :
  keeps (talking s) not_exit (breakdown show_int items).
Proof.
  induction items as [|[repo_name emails] rest IH]; simpl;
    repeat (apply IH || apply talking_print_each || main_step).
Qed.

Lemma talking_report (all_emails : gset key) (items : list (string * gset key)) :
  keeps (talking s) not_exit (report show_int all_emails items).
Proof.
  unfold report.
  repeat (apply talking_breakdown || apply talking_print_each || main_step).
Qed.

Lemma talking_collect_items (fuel : nat) (username : json) (total : Z) (repos : list json)
    (i : Z) (acc : ordered_aggregates) :
  keeps (talking s) not_exit (collect_items fuel s username total repos i acc).
Proof.
  revert i acc. induction repos as [|repo rest IH]; intros i acc; simpl.
  - apply keeps_ret. apply talking_refl.
  - repeat (apply IH
            || (apply (keeps_weaken _ _ _ _ (silent_talking s));
                apply silent_get_contribution_emails)
            || main_step).
Qed.

End MainFrame.

Lemma talking_main_try_report `{Env} (show_int : Z -> string) (fuel : nat) (token : string) :
  keeps (talking (create_github_session token)) not_exit
    (main_try_report show_int fuel token).
Proof.
  unfold main_try_report.
  repeat first
    [ apply talking_collect_items
    | apply talking_report
    | apply (keeps_weaken _ _ _ _ (silent_talking _)); apply silent_get_authenticated_user
    | apply (keeps_weaken _ _ _ _ (silent_talking _)); apply silent_user_repos_loop
    | apply (keeps_weaken _ _ _ _ (silent_talking _)); apply silent_get_org_repos
    | apply keeps_print
    | apply (keeps_weaken _ _ _ _ (silent_talking _)); apply keeps_lift;
        [apply silent_refl | apply not_exit_getitem]
    | apply keeps_bind; [apply talking_trans | | intros ?] ].
Qed.

(** X2. Every request [main] sends, the report included, is a request of
    the session made from the token: in the headers the session gives it,
    Authorization is "Bearer " and the token, Accept and User-Agent are the
    ones the script sets, and every other item is a default of the library;
    and its URL is a path under the base URL, "https://api.github.com/...";
    without a token, or with an empty one, [main] sends no request. *)
Theorem main_requests `{Env} (show_int : Z -> string) (fuel : nat) (token : option string)
    (st : state) :
  ∃ l : list request,
    log (snd (main_report show_int fuel token st)) = (log st ++ l)%list ∧
    Forall (fun rq => ∃ t : string,
              token = Some t ∧ t ≠ "" ∧
              header "Authorization" (headers rq) = Some ("Bearer " +:+ t) ∧
              header "Accept" (headers rq) = Some "application/vnd.github.v3+json" ∧
              header "User-Agent" (headers rq) = Some "GitHub-Email-Finder" ∧
              (∀ k v : string,
                  (k, v) ∈ headers rq ->
                  (k, v) ∈ default_headers ∨
                  (k, v) ∈ [("Authorization", "Bearer " +:+ t);
                            ("Accept", "application/vnd.github.v3+json");
                            ("User-Agent", "GitHub-Email-Finder")]) ∧
              String.prefix "https://api.github.com/" (url rq) = true) l.
Proof.
  destruct token as [[|c t]|].
  1,3: exists []; split; [simpl; by rewrite app_nil_r|constructor].
  change (main_report show_int fuel (Some (String c t)) st)
    with (main_except (main_try_report show_int fuel (String c t)) st).
  rewrite main_except_log.
  destruct (talking_main_try_report show_int fuel (String c t) st) as [[_ (l & Hl & HP)] _].
  exists l. split; [exact Hl|].
  eapply Forall_impl; [exact HP|].
  intros rq [Hh Hu]. exists (String c t).
  destruct (create_github_session_headers (String c t)) as (Hauth & Haccept & Hagent & Hrest).
  rewrite Hh. repeat split; [discriminate|exact Hauth|exact Haccept|exact Hagent|exact Hrest|
                             exact Hu].
Qed.


(** ** Emails that are not strings *)

Lemma two_elements {A} (l : list A) (a b : A) : a ∈ l -> b ∈ l -> a ≠ b -> (2 <= length l)%nat.
Proof.
  intros Ha Hb Hab. destruct l as [|x [|y l]]; simpl; [|  |lia].
  - by apply elem_of_nil in Ha.
  - apply list_elem_of_singleton in Ha, Hb. congruence.
Qed.

Lemma py_sorted_mixed (l : list key) (a b : key) :
  a ∈ l -> b ∈ l -> a ≠ b ->
  match a, b with
  | KStr _, KStr _ | KInt _, KInt _ => False
  | _, _ => True
  end ->
  py_sorted l = Raise TypeError.
Proof.
  intros Ha Hb Hab Hkinds.
  rewrite py_sorted_long by exact (two_elements l a b Ha Hb Hab).
  destruct (strings_of l) as [ss|] eqn:Hs.
  { apply strings_of_Some in Hs. subst l.
    apply list_elem_of_fmap in Ha as (sa & -> & _).
    apply list_elem_of_fmap in Hb as (sb & -> & _). contradiction. }
  destruct (ints_of l) as [ns|] eqn:Hn; [|reflexivity].
  apply ints_of_Some in Hn. subst l.
  apply list_elem_of_fmap in Ha as (na & -> & _).
  apply list_elem_of_fmap in Hb as (nb & -> & _). contradiction.
Qed.

(** X17. When the global set holds two emails that [sorted] cannot compare
    (a null email, or a number, beside a string), the report prints its
    three heading lines and raises TypeError, which [main] does not catch:
    no email is printed, and there is no "Error:" line and no exit with
    status 1. *)
Theorem report_mixed_emails `{Env} (show_int : Z -> string) (all_emails : gset key)
    (items : list (string * gset key)) (st : state) (a b : key)
    (Ha : a ∈ all_emails)
    (Hb : b ∈ all_emails)
    (Hab : a ≠ b)
    (Hkinds : match a, b with
              | KStr _, KStr _ | KInt _, KInt _ => False
              | _, _ => True
              end) :
  let headings :=
    [nl +:+ str_mul "=" 60;
     "Found " +:+ Py.str_int (Z.of_nat (size all_emails))
       +:+ " unique email addresses across "
       +:+ Py.str_int (len items) +:+ " repositories:";
     str_mul "=" 60] in
  report show_int all_emails items st = (Raise TypeError, printed_all headings st) ∧
  main_except (report show_int all_emails items) st
  = (Raise TypeError, printed_all headings st).
Proof.
  intros headings.
  assert (report show_int all_emails items st = (Raise TypeError, printed_all headings st))
    as Hrun.
  { unfold report. rewrite !print_run, bind_lift.
    rewrite (py_sorted_mixed (elements all_emails) a b);
      [|by apply elem_of_elements|by apply elem_of_elements|exact Hab|exact Hkinds].
    rewrite !printed_all_app. reflexivity. }
  split; [exact Hrun|]. rewrite main_except_report. exact Hrun.
Qed.

(** ** The order of the breakdown *)

Lemma items_after_record_all (scans : list (string * gset key)) (acc : ordered_aggregates) :
  (fst (items_after scans acc), list_to_map (snd (items_after scans acc)))
  = record_all scans (fst acc, list_to_map (snd acc)).
Proof.
  revert acc. induction scans as [|[k e] scans IH]; intros acc; [reflexivity|].
  simpl. unfold items_after, record_all in IH. rewrite IH.
  by rewrite record_items_emails.
Qed.

Lemma items_after_NoDup (scans : list (string * gset key)) (acc : ordered_aggregates) :
  NoDup (fst <$> snd acc) -> NoDup (fst <$> snd (items_after scans acc)).
Proof.
  revert acc. induction scans as [|[k e] scans IH]; intros acc Hnd; [exact Hnd|].
  simpl. apply IH. by apply record_items_NoDup.
Qed.

Lemma items_after_keys (scans : list (string * gset key)) (acc : ordered_aggregates) :
  fst <$> snd (items_after scans acc)
  = fold_left (fun seen k => if decide (k ∈ seen) then seen else seen ++ [k])%list
      (fst <$> fruitful scans) (fst <$> snd acc).
Proof.
  revert acc. induction scans as [|[k e] scans IH]; intros acc; [reflexivity|].
  simpl. unfold items_after in IH. rewrite IH. unfold fruitful. rewrite filter_cons.
  unfold record_items. simpl.
  destruct (decide (e = ∅)) as [->|Hne].
  - destruct (decide (∅ ≠ ∅)) as [?|_]; [done|reflexivity].
  - destruct (decide (e ≠ ∅)) as [_|?]; [|done]. csimpl. by rewrite dict_set_keys.
Qed.

Section Breakdown.
Context `{Env}.

Lemma collect_items_scan_all (fuel : nat) (s : session) (username : json) (total : Z)
    (repos : list json) (i : Z) (acc : ordered_aggregates) (st : state) :
  collect_items fuel s username total repos i acc st
  = bind (scan_all fuel s username total repos i)
         (fun scans => ret (items_after scans acc)) st.
Proof.
  revert i acc st. induction repos as [|repo rest IH]; intros i acc st; [reflexivity|].
  simpl. rewrite bind_assoc. apply bind_cong. intros owner st1.
  rewrite bind_assoc. apply bind_cong. intros repo_owner st2.
  rewrite bind_assoc. apply bind_cong. intros repo_name st3.
  rewrite bind_assoc. apply bind_cong. intros [] st4.
  rewrite bind_assoc. apply bind_cong. intros emails st5.
  rewrite bind_assoc. rewrite IH. apply bind_cong. intros scans st6. reflexivity.
Qed.

(** X18. The dict the loop over the repositories builds has one entry per
    key under which a scan found emails, in the order in which those keys
    first had such a scan, and the entry of a key holds the emails of the
    last such scan under it. *)
Theorem collect_items_order (fuel : nat) (s : session) (username : json) (total : Z)
    (repos : list json) (i : Z) (st st' : state)
    (all_emails : gset key) (items : list (string * gset key))
    (Hrun : collect_items fuel s username total repos i (∅, []) st
            = (Ret (all_emails, items), st')) :
  ∃ scans : list (string * gset key),
    scan_all fuel s username total repos i st = (Ret scans, st') ∧
    fst <$> items = first_occurrences (fst <$> fruitful scans) ∧
    NoDup (fst <$> items) ∧
    ∀ (k : string) (e : gset key), (k, e) ∈ items <-> last_scan k scans = Some e.
Proof.
  rewrite collect_items_scan_all in Hrun. unfold bind in Hrun.
  destruct (scan_all fuel s username total repos i st) as [[scans|e|] st1];
    try discriminate.
  injection Hrun as Hacc <-. exists scans. split; [reflexivity|].
  assert (items = snd (items_after scans (∅, []))) as -> by (by rewrite Hacc).
  split; [apply (items_after_keys scans (∅, []))|].
  assert (NoDup (fst <$> snd (items_after scans (∅, [])))) as Hnd.
  { apply items_after_NoDup. constructor. }
  split; [exact Hnd|].
  intros k e. rewrite (elem_of_list_to_map (M := gmap string) _ _ _ Hnd).
  pose proof (items_after_record_all scans (∅, [])) as Hmap.
  pose proof (record_all_lookup scans (∅, ∅) k) as Hlook.
  simpl in Hmap. rewrite <- Hmap in Hlook. simpl in Hlook. rewrite Hlook, lookup_empty.
  destruct (last_scan k scans); split; congruence.
Qed.

End Breakdown.

(** ** Pull request entries without a user object *)

(** X19. When a page of pull requests holds an entry whose "user" is
    present and not an object (null, for one), or that is not an object
    itself, the filter raises AttributeError whatever the other entries are:
    no pull request of the page is scanned, the scan of the repository ends
    with that exception, and [main] does not catch it. *)
Theorem untyped_pr_aborts `{Env} (fuel : nat) (s : session)
    (repo_owner repo_name username : json) (emails : gset key) (page : Z) (st : state)
    (resp : response) (w : world) (pr : json) (prs : list json)
    (Hget : http_get (get_request s (pulls_url repo_owner repo_name) (pulls_params page))
                     (net st) = (inr resp, w))
    (Hok : status_code resp = 200)
    (Hbody : body resp = inr (JArr prs))
    (Hin : pr ∈ prs)
    (Hpr : ¬ pr_typed pr) :
  let st1 := after_request
               (get_request s (pulls_url repo_owner repo_name) (pulls_params page)) w st in
  user_prs username prs = Raise AttributeError ∧
  pulls_loop (S fuel) s repo_owner repo_name username emails page st
  = (Raise AttributeError, st1) ∧
  main_except (pulls_loop (S fuel) s repo_owner repo_name username emails page) st
  = (Raise AttributeError, st1).
Proof.
  intros st1.
  assert (user_prs username prs = Raise AttributeError) as Hfilter.
  { apply user_prs_untyped. apply Exists_exists. eauto. }
  assert (pulls_loop (S fuel) s repo_owner repo_name username emails page st
          = (Raise AttributeError, st1)) as Hloop.
  { simpl. erewrite bind_ret by (apply session_get_answer; exact Hget).
    rewrite Hok. change (negb (200 =? 200)) with false. cbv iota.
    unfold response_json. rewrite Hbody, bind_lift.
    destruct prs as [|x l]; [by apply elem_of_nil in Hin|].
    change (negb (Py.truthy (JArr (x :: l)))) with false. cbv iota.
    change (Py.iter (JArr (x :: l))) with (Ret (x :: l)).
    rewrite !bind_lift, Hfilter. reflexivity. }
  split; [exact Hfilter|]. split; [exact Hloop|].
  unfold main_except. rewrite Hloop. reflexivity.
Qed.

(** * The further properties on the sample forges *)

Lemma auth_failure_fatal_witness :
  ∃ msg : string,
    @main Cases.denied_forge 5 (Some "t0ken") (@initial Cases.denied_forge tt)
    = (Raise (SystemExit 1),
       @Build_state Cases.denied_forge tt
         [get_request Sample.alice_session (Sample.api "/user") []]
         ["Error: " +:+ msg]).
Proof.
  destruct (@auth_failure_fatal Cases.denied_forge 5 "t"%char "0ken"
              (@initial Cases.denied_forge tt) _ tt eq_refl) as [msg Hmsg].
  - simpl. lia.
  - exists msg. exact Hmsg.
Defined.

Lemma missing_login_uncaught_witness :
  @main Cases.anonymous_forge 5 (Some "t0ken") (@initial Cases.anonymous_forge tt)
  = (Raise KeyError,
     @Build_state Cases.anonymous_forge tt
       [get_request Sample.alice_session (Sample.api "/user") []] []).
Proof.
  exact (@missing_login_uncaught Cases.anonymous_forge 5 "t"%char "0ken"
           (@initial Cases.anonymous_forge tt) _ tt [("id", JNum 1)]
           eq_refl eq_refl eq_refl eq_refl).
Defined.

Lemma forge_serves_all_owned :
  @serves_all Sample.forge
    (fun page => get_request Sample.alice_session user_repos_url (user_repos_params page))
    (@passes Sample.forge) [Sample.proj].
Proof. intros page w Hpage. eexists _, w. repeat split. Qed.

Lemma get_user_repos_all_witness :
  ∃ st' : @state Sample.forge,
    @get_user_repos Sample.forge 2 Sample.alice_session Sample.start
    = (Ret [Sample.proj], st') ∧
    log st' = map (fun page => get_request Sample.alice_session user_repos_url
                                 (user_repos_params page)) [1; 2].
Proof.
  destruct (@get_user_repos_all Sample.forge Sample.alice_session [Sample.proj] 2
              Sample.start forge_serves_all_owned) as (st' & Hrun & Hlog).
  - vm_compute. lia.
  - exists st'. split; [exact Hrun|exact Hlog].
Defined.

Lemma forge_serves_all_orgs (name : json) :
  name ∈ [JStr "acme"; JStr "beta"] ->
  @serves_all Sample.forge
    (fun page => get_request Sample.alice_session (@org_repos_url Sample.forge name)
                   (org_repos_params page))
    (@passes Sample.forge) (Cases.repos_of name) ∧
  Forall repo_typed (Cases.repos_of name) ∧
  (page_bound (Cases.repos_of name) <= 2)%nat.
Proof.
  intros Hname. apply elem_of_cons in Hname as [->|Hname];
    [|apply list_elem_of_singleton in Hname as ->].
  - split; [|split; [repeat constructor|vm_compute; lia]].
    intros page w Hpage. eexists _, w. repeat split.
  - split; [|split; [repeat constructor|vm_compute; lia]].
    intros page w Hpage. eexists _, w. repeat split.
Qed.

Lemma get_org_repos_all_witness :
  ∃ st' : @state Sample.forge,
    @get_org_repos Sample.forge 2 Sample.alice_session Sample.start
    = (Ret [Sample.tool], st').
Proof.
  apply (@get_org_repos_all Sample.forge Sample.alice_session 2 Cases.repos_of
           [JObj [("login", JStr "acme")]; JObj [("login", JStr "beta")]]
           [JStr "acme"; JStr "beta"] Sample.start
           (Sample.ok (get_request Sample.alice_session (Sample.api "/user/orgs") [])
              (JArr [JObj [("login", JStr "acme")]; JObj [("login", JStr "beta")]]))
           tt).
  - reflexivity.
  - reflexivity.
  - reflexivity.
  - repeat constructor.
  - exact forge_serves_all_orgs.
Defined.

Lemma forge_serves_all_commits :
  @serves_all Sample.forge
    (fun page => get_request Sample.alice_session
                   (@commits_url Sample.forge (JStr "alice") (JStr "proj"))
                   (commits_params (JStr "alice") page))
    is_200 [Sample.alice_commit].
Proof. intros page w Hpage. eexists _, w. repeat split. Qed.

Lemma commits_loop_all_witness :
  fst (@commits_loop Sample.forge 2 Sample.alice_session (JStr "alice") (JStr "proj")
         (JStr "alice") ∅ 1 Sample.start)
  = Ret {[KStr "alice@x.com"]}.
Proof.
  rewrite (@commits_loop_all Sample.forge Sample.alice_session (JStr "alice") (JStr "proj")
             (JStr "alice") [Sample.alice_commit] 2 ∅ Sample.start
             forge_serves_all_commits).
  - refine (bool_decide_unpack _ _). vm_compute. exact I.
  - vm_compute. lia.
Defined.

Lemma endless_never_empty :
  @never_empty Cases.endless_forge
    (fun page => get_request Sample.alice_session user_repos_url (user_repos_params page))
    (@passes Cases.endless_forge).
Proof. intros page w. eexists _, w, _, _. repeat split. Qed.

Lemma user_repos_loop_unbounded_witness :
  ∃ st' : @state Cases.endless_forge,
    @user_repos_loop Cases.endless_forge 7 Sample.alice_session [] 1
      (@initial Cases.endless_forge tt)
    = (Timeout, st') ∧
    length (log st') = 7%nat.
Proof.
  destruct (@user_repos_loop_unbounded Cases.endless_forge Sample.alice_session 7 [] 1
              (@initial Cases.endless_forge tt) endless_never_empty)
    as (st' & Hrun & Hlog).
  exists st'. split; [exact Hrun|]. rewrite Hlog. reflexivity.
Defined.

Lemma get_org_repos_sound_witness :
  ∃ (out : list json) (st' : @state Sample.forge),
    @get_org_repos Sample.forge 3 Sample.alice_session Sample.start = (Ret out, st') ∧
    Forall (fun repo => has_push repo = Ret true) out.
Proof.
  eassert (@get_org_repos Sample.forge 3 Sample.alice_session Sample.start
           = (Ret [Sample.tool], _)) as Hrun by (vm_compute; reflexivity).
  eexists _, _. split; [exact Hrun|].
  exact (@get_org_repos_sound Sample.forge _ _ _ _ _ Hrun).
Defined.

Lemma get_contribution_emails_steps_witness :
  ∃ commit_emails : gset key,
    fst (@commits_loop Sample.forge 3 Sample.alice_session (JStr "alice") (JStr "proj")
           (JStr "alice") ∅ 1 Sample.start) = Ret commit_emails ∧
    commit_emails ⊆ {[KStr "alice@x.com"]} ∪ {[KStr "alice@work.com"]}.
Proof.
  set (run := @get_contribution_emails Sample.forge 3 Sample.alice_session
                (JStr "alice") (JStr "proj") (JStr "alice") Sample.start).
  assert (fst run = Ret ({[KStr "alice@x.com"]} ∪ {[KStr "alice@work.com"]})) as Hfst
    by (refine (bool_decide_unpack _ _); vm_compute; exact I).
  assert (run = (Ret ({[KStr "alice@x.com"]} ∪ {[KStr "alice@work.com"]}), snd run)) as Hrun
    by (rewrite (surjective_pairing run) at 1; by rewrite Hfst).
  destruct (@get_contribution_emails_steps Sample.forge _ _ _ _ _ _ _ _ Hrun)
    as (commit_emails & st1 & Hcommits & _ & Hsub).
  exists commit_emails. split; [by rewrite Hcommits|exact Hsub].
Defined.

Lemma collect_progress_witness :
  stdout (snd (@collect Sample.forge 3 Sample.alice_session (JStr "alice") 2
                 [Sample.proj; Sample.tool] 1 (∅, ∅) Sample.start))
  = ["[1/2] Checking alice/proj..."; "[2/2] Checking acme/tool..."].
Proof.
  set (run := @collect Sample.forge 3 Sample.alice_session (JStr "alice") 2
                [Sample.proj; Sample.tool] 1 (∅, ∅) Sample.start).
  set (proj_emails := {[KStr "alice@x.com"; KStr "alice@work.com"]} : gset key).
  set (tool_emails := {[KStr "alice@acme.com"; KStr "bot@acme.com"]} : gset key).
  assert (fst run = Ret (proj_emails ∪ tool_emails,
                         <["acme/tool" := tool_emails]> {["alice/proj" := proj_emails]}))
    as Hfst by (refine (bool_decide_unpack _ _); vm_compute; exact I).
  assert (run = (Ret (proj_emails ∪ tool_emails,
                      <["acme/tool" := tool_emails]> {["alice/proj" := proj_emails]}),
                 snd run)) as Hrun
    by (rewrite (surjective_pairing run) at 1; by rewrite Hfst).
  destruct (@collect_progress Sample.forge _ _ _ _ _ _ _ _ _ _ Hrun)
    as (scans & Hscans & Hlen & Hout).
  assert (fst (@scan_all Sample.forge 3 Sample.alice_session (JStr "alice") 2
                 [Sample.proj; Sample.tool] 1 Sample.start)
          = Ret [("alice/proj", proj_emails); ("acme/tool", tool_emails)]) as Hs
    by (refine (bool_decide_unpack _ _); vm_compute; exact I).
  rewrite Hscans in Hs. injection Hs as ->.
  rewrite Hout. reflexivity.
Defined.

Lemma inaccessible_repository_skipped_witness :
  @collect Sample.forge 1 Sample.alice_session (JStr "alice") 1 [Sample.docs] 1 (∅, ∅)
    Sample.start
  = (Ret (∅, ∅),
     @Build_state Sample.forge tt
       [get_request Sample.alice_session (Sample.api "/repos/acme/docs/commits")
          (commits_params (JStr "alice") 1);
        get_request Sample.alice_session (Sample.api "/repos/acme/docs/pulls")
          (pulls_params 1)]
       ["[1/1] Checking acme/docs..."]).
Proof.
  rewrite (@inaccessible_repository_skipped Sample.forge 0 Sample.alice_session
             (JStr "alice") 1 Sample.docs (JObj [("login", JStr "acme")])
             (JStr "acme") (JStr "docs") [] 1 (∅, ∅) Sample.start
             (Sample.reply (get_request Sample.alice_session
                              (Sample.api "/repos/acme/docs/commits")
                              (commits_params (JStr "alice") 1))
                404 "Not Found" (JObj [("message", JStr "Not Found")]))
             (Sample.reply (get_request Sample.alice_session
                              (Sample.api "/repos/acme/docs/pulls") (pulls_params 1))
                404 "Not Found" (JObj [("message", JStr "Not Found")]))
             tt tt eq_refl eq_refl eq_refl eq_refl).
  - reflexivity.
  - simpl. lia.
  - reflexivity.
  - simpl. lia.
Defined.

Lemma acme_emails_strings : all_strings Cases.acme_emails.
Proof.
  intros k Hk. unfold Cases.acme_emails in Hk.
  apply elem_of_union in Hk as [Hk|Hk]; apply elem_of_singleton in Hk as ->; eauto.
Qed.

Lemma email_lines_sorted_witness :
  py_sorted (elements Cases.acme_emails)
  = Ret [KStr "alice@acme.com"; KStr "bot@acme.com"].
Proof.
  destruct (email_lines_sorted Cases.acme_emails acme_emails_strings) as [Hsorted _].
  rewrite Hsorted. vm_compute. reflexivity.
Defined.

Lemma report_output_witness :
  stdout (snd (@report Sample.forge Py.str_int Cases.acme_emails
                 [("acme/tool", Cases.acme_emails)] Sample.start))
  = [nl +:+ str_mul "=" 60;
     "Found 2 unique email addresses across 1 repositories:";
     str_mul "=" 60;
     "alice@acme.com"; "bot@acme.com";
     nl +:+ "Repository breakdown:";
     nl +:+ "acme/tool:"; "  - alice@acme.com"; "  - bot@acme.com"].
Proof.
  rewrite (@report_output Sample.forge Py.str_int Cases.acme_emails
             [("acme/tool", Cases.acme_emails)] Sample.start acme_emails_strings).
  - vm_compute. reflexivity.
  - constructor; [exact acme_emails_strings|constructor].
Defined.

Lemma report_mixed_emails_witness :
  fst (@report Sample.forge Py.str_int Cases.mixed_emails [] Sample.start)
  = Raise TypeError.
Proof.
  destruct (@report_mixed_emails Sample.forge Py.str_int Cases.mixed_emails []
              Sample.start KNone (KStr "alice@x.com")) as [Hrun _].
  - unfold Cases.mixed_emails. set_solver.
  - unfold Cases.mixed_emails. set_solver.
  - discriminate.
  - exact I.
  - rewrite Hrun. reflexivity.
Defined.

Lemma collect_items_order_witness :
  ∃ (all_emails : gset key) (items : list (string * gset key)),
    fst (@collect_items Sample.moving_forge 3 Sample.alice_session (JStr "alice") 2
           [Sample.proj; Sample.proj] 1 (∅, []) (Sample.moving_start 5))
    = Ret (all_emails, items) ∧
    fst <$> items = ["alice/proj"] ∧
    ∀ e : gset key, ("alice/proj", e) ∈ items -> e = {[KStr "alice@work.com"]}.
Proof.
  set (run := @collect_items Sample.moving_forge 3 Sample.alice_session (JStr "alice") 2
                [Sample.proj; Sample.proj] 1 (∅, []) (Sample.moving_start 5)).
  set (first := {[KStr "alice@x.com"]} : gset key).
  set (second := {[KStr "alice@work.com"]} : gset key).
  assert (fst run = Ret (first ∪ second, [("alice/proj", second)])) as Hfst
    by (refine (bool_decide_unpack _ _); vm_compute; exact I).
  assert (run = (Ret (first ∪ second, [("alice/proj", second)]), snd run)) as Hrun
    by (rewrite (surjective_pairing run) at 1; by rewrite Hfst).
  destruct (@collect_items_order Sample.moving_forge _ _ _ _ _ _ _ _ _ _ Hrun)
    as (scans & Hscans & Hkeys & _ & Hlast).
  assert (fst (@scan_all Sample.moving_forge 3 Sample.alice_session (JStr "alice") 2
                 [Sample.proj; Sample.proj] 1 (Sample.moving_start 5))
          = Ret [("alice/proj", first); ("alice/proj", second)]) as Hs
    by (refine (bool_decide_unpack _ _); vm_compute; exact I).
  rewrite Hscans in Hs. injection Hs as ->.
  exists (first ∪ second), [("alice/proj", second)].
  split; [exact Hfst|]. split; [reflexivity|].
  intros e He. apply list_elem_of_singleton in He. by injection He as ->.
Defined.

Lemma untyped_pr_aborts_witness :
  fst (@pulls_loop Cases.ghost_forge 3 Sample.alice_session (JStr "alice") (JStr "proj")
         (JStr "alice") ∅ 1 (@initial Cases.ghost_forge tt))
  = Raise AttributeError.
Proof.
  destruct (@untyped_pr_aborts Cases.ghost_forge 2 Sample.alice_session
              (JStr "alice") (JStr "proj") (JStr "alice") ∅ 1
              (@initial Cases.ghost_forge tt)
              (Sample.ok (get_request Sample.alice_session
                            (Sample.api "/repos/alice/proj/pulls") (pulls_params 1))
                 (JArr [Sample.pull 7 "alice"; Cases.ghost_pull]))
              tt Cases.ghost_pull [Sample.pull 7 "alice"; Cases.ghost_pull]
              eq_refl eq_refl eq_refl) as (_ & Hloop & _).
  - apply list_elem_of_further, list_elem_of_here.
  - intros Htyped. exact Htyped.
  - rewrite Hloop. reflexivity.
Defined.
